(** * Yahoo key-metrics extractor: a shallow embedding of [get_data.py] and of
      [calculate_additional_metrics], [calculate_valuation_metrics] and
      [create_metrics_radar_chart] from [app.py].

    Modelling conventions.
    - Text is a Rocq [string] (8-bit characters).  The Python predicates
      [\d], [\s], [str.upper], [str.lower], [str.isalpha] and [str.strip] are
      modelled on the ASCII range; characters above 127 are neither digits,
      letters nor white space and are unchanged by case conversion.
    - A Python [float] is modelled by the exact rational it denotes ([Q], kept
      in lowest terms by [Qred]); rounding, overflow and underflow of binary
      floating point are not modelled.
    - A Python [dict] is a [gmap string pyval].
    - A raised exception is the [Raise] outcome of [outcome]; [try]/[except]
      is [try_except].
    - What the code writes with [print] and its pauses ([time.sleep]) are
      left out. *)

From Stdlib Require Import QArith Qreduction Ascii String.
From stdpp Require Import base option list strings pretty gmap fin_maps.

Set Warnings "-register-all".

Local Open Scope string_scope.
Local Open Scope Z_scope.

(** ** Python values and exceptions *)

Inductive exn_kind :=
| ValueError | TypeError | ZeroDivisionError | KeyError | IndexError
| RequestException.

Record exn := Exn { exn_kind_of : exn_kind; exn_str : string }.

Inductive outcome (A : Type) :=
| Ok (a : A)
| Raise (e : exn).
Arguments Ok {A} a.
Arguments Raise {A} e.

#[global] Instance outcome_ret : MRet outcome := fun A a => Ok a.
#[global] Instance outcome_bind : MBind outcome := fun A B k m =>
  match m with
  | Ok a => k a
  | Raise e => Raise e
  end.

Definition exn_kind_eqb (a b : exn_kind) : bool :=
  match a, b with
  | ValueError, ValueError | TypeError, TypeError
  | ZeroDivisionError, ZeroDivisionError | KeyError, KeyError
  | IndexError, IndexError | RequestException, RequestException => true
  | _, _ => false
  end.

(** [try: body / except (kinds): handler]. *)
Definition try_except {A} (body : outcome A) (kinds : list exn_kind)
    (handler : exn -> outcome A) : outcome A :=
  match body with
  | Ok a => Ok a
  | Raise e =>
      if existsb (exn_kind_eqb (exn_kind_of e)) kinds then handler e else Raise e
  end.

(** [try: body / except Exception as e: handler]. *)
Definition try_except_all {A} (body : outcome A) (handler : exn -> outcome A)
    : outcome A :=
  match body with
  | Ok a => Ok a
  | Raise e => handler e
  end.

Inductive pyval :=
| PNone
| PFloat (q : Q)
| PStr (s : string).

(** Python truthiness of the values stored in the metrics dictionaries. *)
Definition q_is_zero (q : Q) : bool := Qnum q =? 0.

Definition truthy (v : pyval) : bool :=
  match v with
  | PNone => false
  | PFloat q => negb (q_is_zero q)
  | PStr s => negb (String.eqb s "")
  end.

(** [d.get(k)]: a missing key reads as [None]. *)
Definition dict_get (d : gmap string pyval) (k : string) : pyval :=
  default PNone (d !! k).

Definition of_opt (o : option Q) : pyval :=
  match o with
  | Some q => PFloat q
  | None => PNone
  end.

(** ** Strings *)

Definition code (c : ascii) : N := N_of_ascii c.

Definition is_digit (c : ascii) : bool := ((48 <=? code c) && (code c <=? 57))%N.
Definition is_upper (c : ascii) : bool := ((65 <=? code c) && (code c <=? 90))%N.
Definition is_lower (c : ascii) : bool := ((97 <=? code c) && (code c <=? 122))%N.
Definition is_alpha (c : ascii) : bool := is_upper c || is_lower c.

(** White space as [str.strip] and [\s] see it, on the ASCII range. *)
Definition is_space (c : ascii) : bool :=
  ((9 <=? code c) && (code c <=? 13) || (28 <=? code c) && (code c <=? 32))%N.

Definition upper_char (c : ascii) : ascii :=
  if is_lower c then ascii_of_N (code c - 32) else c.
Definition lower_char (c : ascii) : ascii :=
  if is_upper c then ascii_of_N (code c + 32) else c.

Fixpoint str_map (f : ascii -> ascii) (s : string) : string :=
  match s with
  | EmptyString => EmptyString
  | String c s' => String (f c) (str_map f s')
  end.

Fixpoint str_filter (p : ascii -> bool) (s : string) : string :=
  match s with
  | EmptyString => EmptyString
  | String c s' => if p c then String c (str_filter p s') else str_filter p s'
  end.

Fixpoint str_forall (p : ascii -> bool) (s : string) : bool :=
  match s with
  | EmptyString => true
  | String c s' => p c && str_forall p s'
  end.

Definition upper (s : string) : string := str_map upper_char s.
Definition lower (s : string) : string := str_map lower_char s.

Definition is_empty (s : string) : bool :=
  match s with EmptyString => true | _ => false end.

(** [s.isalpha()]: false on the empty string. *)
Definition isalpha (s : string) : bool := negb (is_empty s) && str_forall is_alpha s.

Fixpoint lstrip (s : string) : string :=
  match s with
  | EmptyString => EmptyString
  | String c s' => if is_space c then lstrip s' else s
  end.

Fixpoint rstrip (s : string) : string :=
  match s with
  | EmptyString => EmptyString
  | String c s' =>
      let r := rstrip s' in
      if is_space c && is_empty r then EmptyString else String c r
  end.

Definition strip (s : string) : string := rstrip (lstrip s).

(** [sub in s]. *)
Fixpoint contains (sub s : string) : bool :=
  String.prefix sub s ||
  match s with
  | EmptyString => false
  | String _ s' => contains sub s'
  end.

(** [x in [a, b, ...]] for a list of strings. *)
Definition str_in (x : string) (l : list string) : bool := existsb (String.eqb x) l.

Fixpoint join (sep : string) (l : list string) : string :=
  match l with
  | [] => ""
  | [x] => x
  | x :: l' => x +:+ sep +:+ join sep l'
  end.

Definition concat_str (l : list string) : string := fold_right String.append "" l.

(** ** [float(s)] on the strings the extractor hands to it

    Every argument of [float] in [get_data.py] is either the output of
    [re.sub(r'[^\d.-]', '', ...)] or a capture of [\d+ \.? \d*]; it consists of
    digits, ['.'] and ['-'] only.  On that alphabet Python accepts an optional
    leading minus sign followed by digits with at most one decimal point and
    at least one digit; anything else raises [ValueError]. *)

Fixpoint span_digits (s : string) : string * string :=
  match s with
  | String c s' =>
      if is_digit c then
        let '(d, r) := span_digits s' in (String c d, r)
      else (EmptyString, s)
  | EmptyString => (EmptyString, EmptyString)
  end.

Fixpoint digits_value (acc : Z) (s : string) : Z :=
  match s with
  | EmptyString => acc
  | String c s' => digits_value (10 * acc + (Z.of_N (code c) - 48)) s'
  end.

Definition decimal (neg : bool) (ip fp : string) : Q :=
  let n := digits_value 0 (ip +:+ fp) in
  Qred (Qmake (if neg then - n else n)
              (Z.to_pos (10 ^ Z.of_nat (String.length fp)))).

(** The optional leading minus sign. *)
Definition split_sign (s : string) : bool * string :=
  match s with
  | String "-" t => (true, t)
  | _ => (false, s)
  end.

(** The optional decimal point and the digits after it. *)
Definition split_point (r1 : string) : string * string :=
  match r1 with
  | String "." t => span_digits t
  | _ => (EmptyString, r1)
  end.

Definition py_float (s : string) : outcome Q :=
  let '(neg, body) := split_sign s in
  let '(ip, r1) := span_digits body in
  let '(fp, r2) := split_point r1 in
  if is_empty r2 && negb (is_empty ip && is_empty fp)
  then Ok (decimal neg ip fp)
  else Raise (Exn ValueError "could not convert string to float").

(** ** Value normalizer *)

(** [re.sub(r'[^\d.-]', '', value)]. *)
Definition numeric_char (c : ascii) : bool :=
  is_digit c || Ascii.eqb c "." || Ascii.eqb c "-".

Definition strip_non_numeric (value : string) : string := str_filter numeric_char value.

Definition is_sentinel (value : string) : bool :=
  is_empty value || str_in (upper value) ["N/A"; "NA"; "--"; ""; "NULL"].

Definition degenerate (cleaned : string) : bool :=
  is_empty cleaned || str_in cleaned ["-"; "."; "-."].

Definition _clean_numeric_value (value : string) : outcome (option Q) :=
  if is_sentinel value then Ok None
  else
    try_except
      (let cleaned := strip_non_numeric value in
       if negb (is_empty cleaned) && negb (str_in cleaned ["-"; "."; "-."])
       then q ← py_float cleaned; Ok (Some q)
       else Ok None)
      [ValueError; TypeError]
      (fun _ => Ok None).

Definition _clean_percentage_value (value : string) : outcome (option Q) :=
  if is_sentinel value then Ok None
  else
    try_except
      (let cleaned := strip_non_numeric value in
       if negb (is_empty cleaned) && negb (str_in cleaned ["-"; "."; "-."])
       then q ← py_float cleaned; Ok (Some q)
       else Ok None)
      [ValueError; TypeError]
      (fun _ => Ok None).

(** ** Regular expressions

    Every pattern of [get_data.py] is a sequence of quantified
    single-character classes, some of them inside a capture group.  An [atom]
    is one quantified class; matching is greedy with backtracking, as in
    Python's [re]: each atom first takes as many characters as it can and
    gives them back one at a time while the rest of the pattern fails. *)

Record atom := Atom {
  a_class : ascii -> bool;
  a_min : nat;
  a_max : option nat;   (* [None]: unbounded *)
  a_group : nat         (* capture group the atom belongs to; 0 for none *)
}.

Definition lit (c : ascii) : ascii -> bool := Ascii.eqb c.

Fixpoint str_take (n : nat) (s : string) : string :=
  match n, s with
  | S n', String c s' => String c (str_take n' s')
  | _, _ => EmptyString
  end.

Fixpoint str_drop (n : nat) (s : string) : string :=
  match n, s with
  | S n', String _ s' => str_drop n' s'
  | _, _ => s
  end.

(** Length of the longest prefix of [s] made of characters of the class,
    capped by [limit]. *)
Fixpoint span (p : ascii -> bool) (limit : option nat) (s : string) : nat :=
  match limit with
  | Some O => O
  | _ =>
      match s with
      | String c s' => if p c then S (span p (Nat.pred <$> limit) s') else O
      | EmptyString => O
      end
  end.

(** Try [n], [n-1], ..., [lo] repetitions; the first success wins. *)
Fixpoint backtrack {A} (lo n : nat) (attempt : nat -> option A) : option A :=
  if (n <? lo)%nat then None
  else
    match attempt n with
    | Some r => Some r
    | None =>
        match n with
        | O => None
        | S n' => backtrack lo n' attempt
        end
    end.

(** [match_here pat dollar s] matches [pat] at the start of [s] and returns
    the text taken by each atom and the unmatched rest.  With [dollar] the
    pattern ends in [$]: the rest must be empty or a single final newline. *)
Fixpoint match_here (pat : list atom) (dollar : bool) (s : string)
    : option (list string * string) :=
  match pat with
  | [] =>
      if dollar then
        if is_empty s || String.eqb s (String (ascii_of_N 10) EmptyString)
        then Some ([], s) else None
      else Some ([], s)
  | a :: pat' =>
      backtrack (a_min a) (span (a_class a) (a_max a) s)
        (fun k =>
           match match_here pat' dollar (str_drop k s) with
           | Some (ts, rest) => Some (str_take k s :: ts, rest)
           | None => None
           end)
  end.

(** [m.group(g)] for a capture group [g] (1, 2, ...): the text taken by the
    atoms of that group. *)
Fixpoint group (pat : list atom) (ts : list string) (g : nat) : string :=
  match pat, ts with
  | a :: pat', t :: ts' =>
      if (a_group a =? g)%nat then t +:+ group pat' ts' g else group pat' ts' g
  | _, _ => EmptyString
  end.

(** [re.search(pat, s)]: the leftmost match. *)
Fixpoint re_search (pat : list atom) (s : string) : option (list string) :=
  match match_here pat false s with
  | Some (ts, _) => Some ts
  | None =>
      match s with
      | EmptyString => None
      | String _ s' => re_search pat s'
      end
  end.

(** [re.findall(pat, s)] for a pattern without groups whose matches are never
    empty: the non-overlapping matches from left to right.  [skip] counts the
    characters of the previous match that are still to be stepped over. *)
Fixpoint findall_from (pat : list atom) (skip : nat) (s : string) {struct s}
    : list string :=
  match s with
  | EmptyString => []
  | String _ s' =>
      match skip with
      | S k => findall_from pat k s'
      | O =>
          match match_here pat false s with
          | Some (ts, _) =>
              let m := concat_str ts in
              m :: findall_from pat (Nat.pred (String.length m)) s'
          | None => findall_from pat 0 s'
          end
      end
  end.

Definition re_findall (pat : list atom) (s : string) : list string :=
  findall_from pat 0 s.

(** The pattern [^ \d{1,4} \. \d{2} $]. *)
Definition price_re : list atom :=
  [Atom is_digit 1 (Some 4%nat) 0; Atom (lit ".") 1 (Some 1%nat) 0;
   Atom is_digit 2 (Some 2%nat) 0].

Definition matches_price_re (text : string) : bool :=
  match match_here price_re true text with Some _ => true | None => false end.

(** The pattern [\d+ \.? \d*]. *)
Definition number_re : list atom :=
  [Atom is_digit 1 None 0; Atom (lit ".") 0 (Some 1%nat) 0; Atom is_digit 0 None 0].

(** The pattern [\d+ \.? \d* %]. *)
Definition percent_re : list atom :=
  [Atom is_digit 1 None 0; Atom (lit ".") 0 (Some 1%nat) 0; Atom is_digit 0 None 0;
   Atom (lit "%") 1 (Some 1%nat) 0].

(** The pattern [( \d+ \.? \d* ) \s* \( ( \d+ \.? \d* %? ) \)], written here
    with blanks between its parts; the two parenthesised parts are capture
    groups 1 and 2. *)
Definition dividend_re : list atom :=
  [Atom is_digit 1 None 1; Atom (lit ".") 0 (Some 1%nat) 1; Atom is_digit 0 None 1;
   Atom is_space 0 None 0;
   Atom (lit "(") 1 (Some 1%nat) 0;
   Atom is_digit 1 None 2; Atom (lit ".") 0 (Some 1%nat) 2; Atom is_digit 0 None 2;
   Atom (lit "%") 0 (Some 1%nat) 2;
   Atom (lit ")") 1 (Some 1%nat) 0].

(** ** Parsed documents (BeautifulSoup trees)

    A [Tag] carries its name, its single-valued attributes, its [class]
    attribute (a list of class names, [None] when the attribute is missing) and
    its children in document order.  The root of a document is a tag without
    attributes.  Comments and the contents of scripts and style sheets, which
    [get_text] leaves out, are not part of the tree. *)

Inductive node :=
| NavigableString (s : string)
| Tag (name : string) (attrs : gmap string string)
      (class_ : option (list string)) (contents : list node).

Definition is_tag (n : node) : bool :=
  match n with Tag _ _ _ _ => true | NavigableString _ => false end.

Definition tag_name (n : node) : string :=
  match n with Tag name _ _ _ => name | NavigableString _ => "" end.

(** [tag.get(key)] for a single-valued attribute. *)
Definition get_attr (n : node) (key : string) : option string :=
  match n with Tag _ attrs _ _ => attrs !! key | NavigableString _ => None end.

(** [tag.get('class')]. *)
Definition get_class (n : node) : option (list string) :=
  match n with Tag _ _ c _ => c | NavigableString _ => None end.

(** The descendants of a node in document order, each with its parent. *)
Fixpoint descendants_with_parent (n : node) : list (node * node) :=
  match n with
  | NavigableString _ => []
  | Tag _ _ _ cs =>
      (fix go (l : list node) : list (node * node) :=
         match l with
         | [] => []
         | c :: l' => ((c, n) :: descendants_with_parent c ++ go l')%list
         end) cs
  end.

Definition descendants (n : node) : list node := (descendants_with_parent n).*1.

(** [tag.get_text(strip=...)]: the strings below the tag, concatenated; with
    [strip] each string is stripped and dropped when nothing is left. *)
Definition string_piece (strip_ : bool) (n : node) : list string :=
  match n with
  | NavigableString s =>
      if strip_ then (if is_empty (strip s) then [] else [strip s]) else [s]
  | Tag _ _ _ _ => []
  end.

Definition get_text (strip_ : bool) (n : node) : string :=
  concat_str (flat_map (string_piece strip_) (descendants n)).

(** [tag.string]: the single string below a chain of only children. *)
Fixpoint tag_string (n : node) : option string :=
  match n with
  | NavigableString s => Some s
  | Tag _ _ _ [c] => tag_string c
  | Tag _ _ _ _ => None
  end.

(** [tag.find_all(...)] and [tag.find(...)] with the filter as a predicate. *)
Definition find_all (p : node -> bool) (n : node) : list node :=
  List.filter (fun d => is_tag d && p d) (descendants n).

Definition find (p : node -> bool) (n : node) : option node :=
  head (find_all p n).

Definition named (names : list string) (n : node) : bool := str_in (tag_name n) names.

Definition attr_is (key value : string) (n : node) : bool :=
  match get_attr n key with
  | Some v => String.eqb v value
  | None => false
  end.

(** A function filter on a single-valued attribute: called on the value, or
    on [None] when the attribute is missing. *)
Definition attr_where (key : string) (f : option string -> bool) (n : node) : bool :=
  f (get_attr n key).

(** A function filter on [class]: tried on every class name, then on the
    names joined by spaces; called on [None] when the tag has no class. *)
Definition class_where (f : option string -> bool) (n : node) : bool :=
  match get_class n with
  | None => f None
  | Some l => existsb (fun c => f (Some c)) l || f (Some (join " " l))
  end.

Definition find_all_with_parent (p : node -> bool) (n : node) : list (node * node) :=
  List.filter (fun dp => is_tag dp.1 && p dp.1) (descendants_with_parent n).

(** The [string=] filter of [find_all] with a compiled pattern: the pattern
    is searched in [tag.string]; a tag without [string] does not match. *)
Definition string_matches (re_ok : string -> bool) (n : node) : bool :=
  match tag_string n with
  | Some s => re_ok s
  | None => false
  end.

(** ** The metrics dictionary as mutable state

    The extractor methods receive the [metrics] dictionary and assign into it.
    [M A] is a computation over that dictionary which returns an [A] or
    raises; assignments made before an exception is raised stay in place. *)

Definition M (A : Type) : Type :=
  gmap string pyval -> outcome A * gmap string pyval.

#[global] Instance M_ret : MRet M := fun A a d => (Ok a, d).
#[global] Instance M_bind : MBind M := fun A B k m d =>
  match m d with
  | (Ok a, d') => k a d'
  | (Raise e, d') => (Raise e, d')
  end.

Definition lift {A} (o : outcome A) : M A := fun d => (o, d).

(** [metrics[key] = v] *)
Definition setitem (key : string) (v : pyval) : M unit :=
  fun d => (Ok tt, <[key := v]> d).

(** [metrics.get(key)] *)
Definition getm (key : string) : M pyval := fun d => (Ok (dict_get d key), d).

(** [metrics.update(other)] *)
Definition update (other : gmap string pyval) : M unit :=
  fun d => (Ok tt, other ∪ d).

(** [try: body / except Exception as e: handler] over the dictionary. *)
Definition try_all {A} (body : M A) (handler : exn -> M A) : M A :=
  fun d =>
    match body d with
    | (Ok a, d') => (Ok a, d')
    | (Raise e, d') => handler e d'
    end.

Fixpoint for_each {A} (l : list A) (body : A -> M unit) : M unit :=
  match l with
  | [] => mret tt
  | x :: l' => body x ;; for_each l' body
  end.

(** The dictionary left by a computation started on [d]. *)
Definition exec {A} (m : M A) (d : gmap string pyval) : gmap string pyval := (m d).2.

(** ** Dividend sub-routine *)

Definition _parse_dividend_info (dividend_text : string) : M unit :=
  try_all
    (match re_search dividend_re dividend_text with
     | Some ts =>
         rate ← lift (py_float (group dividend_re ts 1));
         setitem "forward_dividend_rate" (PFloat rate) ;;
         let yield_text := group dividend_re ts 2 in
         y ← lift (_clean_percentage_value yield_text);
         setitem "forward_dividend_yield" (of_opt y)
     | None =>
         let numbers := re_findall number_re dividend_text in
         let percentages := re_findall percent_re dividend_text in
         rate_now ← getm "forward_dividend_rate";
         match head numbers with
         | Some n =>
             if negb (truthy rate_now)
             then rate ← lift (py_float n); setitem "forward_dividend_rate" (PFloat rate)
             else mret tt
         | None => mret tt
         end ;;
         yield_now ← getm "forward_dividend_yield";
         match head percentages with
         | Some p =>
             if negb (truthy yield_now)
             then y ← lift (_clean_percentage_value p);
                  setitem "forward_dividend_yield" (of_opt y)
             else mret tt
         | None => mret tt
         end
     end)
    (fun _ => mret tt).

(** ** Current price *)

(** [price and price > lo] *)
Definition price_above (lo : Q) (price : option Q) : bool :=
  match price with
  | Some p => negb (q_is_zero p) && negb (Qle_bool p lo)
  | None => false
  end.

(** A strategy yields [Some p] when it assigns [metrics['current_price'] = p]
    and returns, [None] when control falls through to the next strategy. *)
Definition accept (lo : Q) (price : option Q) : option Q :=
  if price_above lo price then price else None.

Fixpoint first_hit {A} (l : list A) (f : A -> outcome (option Q)) : outcome (option Q) :=
  match l with
  | [] => Ok None
  | x :: l' =>
      r ← f x;
      match r with
      | Some p => Ok (Some p)
      | None => first_hit l' f
      end
  end.

Definition or_else (m1 m2 : outcome (option Q)) : outcome (option Q) :=
  r ← m1;
  match r with
  | Some p => Ok (Some p)
  | None => m2
  end.

Definition nonempty_attr (o : option string) : bool :=
  match o with Some v => negb (is_empty v) | None => false end.

Definition price_method1 (soup : node) : outcome (option Q) :=
  match find (fun n => named ["span"] n && attr_is "data-testid" "qsp-price" n) soup with
  | Some price_element =>
      let price_text := get_text true price_element in
      price ← _clean_numeric_value price_text;
      Ok (accept 0 price)
  | None => Ok None
  end.

Definition price_method2 (soup : node) : outcome (option Q) :=
  first_hit
    (find_all (fun n => named ["fin-streamer"] n && attr_is "data-field" "regularMarketPrice" n) soup)
    (fun element =>
       let value :=
         if nonempty_attr (get_attr element "value")
         then default "" (get_attr element "value")
         else get_text true element in
       if negb (is_empty value) then
         price ← _clean_numeric_value value;
         Ok (accept 0 price)
       else Ok None).

Definition strict_price (text : string) : outcome (option Q) :=
  if matches_price_re text then
    price ← _clean_numeric_value text;
    Ok (accept 1 price)
  else Ok None.

Definition price_class (x : option string) : bool :=
  match x with
  | Some c => negb (is_empty c) && (contains "price" (lower c) || contains "qsp" (lower c))
  | None => false
  end.

Definition price_method3 (soup : node) : outcome (option Q) :=
  match find (fun n => named ["section"] n && attr_is "data-testid" "quote-price" n) soup with
  | Some quote_price_section =>
      first_hit
        (find_all (fun n => named ["span"] n && class_where price_class n) quote_price_section)
        (fun span => strict_price (get_text true span))
  | None => Ok None
  end.

Definition price_method4 (soup : node) : outcome (option Q) :=
  let quote_header :=
    match find (fun n => named ["div"] n && attr_is "data-testid" "quote-header" n) soup with
    | Some h => Some h
    | None => find (fun n => named ["section"] n && attr_is "data-testid" "quote-hdr" n) soup
    end in
  match quote_header with
  | Some h =>
      first_hit (find_all (named ["span"]) h) (fun span => strict_price (get_text true span))
  | None => Ok None
  end.

Definition price_keywords : list string := ["price"; "quote"; "market"].

(** [str(parent.get('data-testid', '')) + ' ' + ' '.join(parent.get('class', []))] *)
Definition parent_attrs (parent : node) : string :=
  default "" (get_attr parent "data-testid") +:+ " " +:+ join " " (default [] (get_class parent)).

Definition has_identifying_attrs (parent : node) : bool :=
  nonempty_attr (get_attr parent "data-testid") ||
  match get_class parent with Some (_ :: _) => true | _ => false end.

Definition parent_mentions_price (parent : node) : bool :=
  has_identifying_attrs parent &&
  existsb (fun keyword => contains keyword (lower (parent_attrs parent))) price_keywords.

Definition fallback_candidates (soup : node) : list (node * node) :=
  find_all_with_parent
    (fun n => named ["span"; "div"] n && string_matches matches_price_re n) soup.

Definition fallback_element (ep : node * node) : outcome (option Q) :=
  let '(element, parent) := ep in
  let text := get_text true element in
  price ← _clean_numeric_value text;
  if price_above 1 price then
    if parent_mentions_price parent then Ok price else Ok None
  else Ok None.

Definition price_method5 (soup : node) : outcome (option Q) :=
  first_hit (fallback_candidates soup) fallback_element.

Definition price_strategies (soup : node) : outcome (option Q) :=
  or_else (price_method1 soup)
    (or_else (price_method2 soup)
       (or_else (price_method3 soup)
          (or_else (price_method4 soup) (price_method5 soup)))).

Definition _extract_current_price (soup : node) : M unit :=
  try_all
    (r ← lift (price_strategies soup);
     match r with
     | Some price => setitem "current_price" (PFloat price)
     | None => mret tt
     end)
    (fun _ => mret tt).

(** ** P/E ratio and dividend locators *)

Definition test_ids : list (string * string) :=
  [("PE_RATIO-value", "pe_ratio_ttm");
   ("FORWARD_DIVIDEND_AND_YIELD-value", "forward_dividend_yield");
   ("TD_DIVIDEND_AND_YIELD-value", "forward_dividend_yield")].

Definition testid_step (soup : node) (entry : string * string) : M unit :=
  let '(test_id, metric_key) := entry in
  match find (attr_is "data-testid" test_id) soup with
  | Some element =>
      let value := get_text true element in
      if negb (is_empty value) && negb (str_in (upper value) ["N/A"; "NA"; "--"]) then
        if String.eqb metric_key "forward_dividend_yield" then
          _parse_dividend_info value
        else if String.eqb metric_key "pe_ratio_ttm" then
          v ← lift (_clean_numeric_value value);
          setitem metric_key (of_opt v)
        else mret tt
      else mret tt
  | None => mret tt
  end.

Definition _extract_by_testid (soup : node) : M unit :=
  for_each test_ids (testid_step soup).

Definition quote_stat_testid (x : option string) : bool :=
  match x with
  | Some v => negb (is_empty v) && contains "quote" v && contains "stat" v
  | None => false
  end.

Definition quote_class (x : option string) : bool :=
  match x with
  | Some c => negb (is_empty c) && contains "quote" (lower c)
  | None => false
  end.

Definition stats_sections (soup : node) : list node :=
  match find_all (fun n => named ["div"] n && attr_where "data-testid" quote_stat_testid n) soup with
  | [] => find_all (fun n => named ["section"] n && class_where quote_class n) soup
  | sections => sections
  end.

Definition mentions_trailing_pe (text : string) : bool :=
  (contains "pe ratio" text || contains "p/e ratio" text) &&
  (contains "ttm" text || contains "trailing" text).

(** The body of the inner loop of [_extract_from_quote_stats]. *)
Definition quote_stat_item (item : node) : M unit :=
  try_all
    (let text := lower (get_text true item) in
     if contains "pe ratio" text || contains "p/e ratio" text then
       if contains "ttm" text || contains "trailing" text then
         let numbers := re_findall number_re (get_text false item) in
         match last numbers with
         | Some n =>
             v ← lift (_clean_numeric_value n);
             setitem "pe_ratio_ttm" (of_opt v)
         | None => mret tt
         end
       else mret tt
     else if contains "dividend" text && contains "yield" text then
       let div_text := get_text true item in
       _parse_dividend_info div_text
     else mret tt)
    (fun _ => mret tt).

Definition _extract_from_quote_stats (soup : node) : M unit :=
  for_each (stats_sections soup)
    (fun section => for_each (find_all (named ["li"; "tr"; "div"]) section) quote_stat_item).

(** The body of the inner loop of [_extract_from_tables]. *)
Definition table_row (row : node) : M unit :=
  match find_all (named ["td"; "th"]) row with
  | c0 :: c1 :: _ =>
      try_all
        (let label := lower (get_text true c0) in
         let value := get_text true c1 in
         if (contains "pe ratio" label || contains "p/e ratio" label) &&
            (contains "ttm" label || contains "trailing" label) then
           v ← lift (_clean_numeric_value value);
           setitem "pe_ratio_ttm" (of_opt v)
         else if contains "forward annual dividend rate" label then
           v ← lift (_clean_numeric_value value);
           setitem "forward_dividend_rate" (of_opt v)
         else if contains "forward annual dividend yield" label then
           v ← lift (_clean_percentage_value value);
           setitem "forward_dividend_yield" (of_opt v)
         else if contains "dividend" label && contains "yield" label && contains "forward" label then
           _parse_dividend_info value
         else mret tt)
        (fun _ => mret tt)
  | _ => mret tt
  end.

Definition _extract_from_tables (soup : node) : M unit :=
  for_each (find_all (named ["table"]) soup)
    (fun table => for_each (find_all (named ["tr"]) table) table_row).

(** ** Growth estimate *)

Definition growth_keywords : list string := ["next year"; "next 5 years"; "2025"; "2024"].

Fixpoint find_column (i : nat) (headers : list string) : option nat :=
  match headers with
  | [] => None
  | header :: rest =>
      if existsb (fun keyword => contains keyword (lower header)) growth_keywords
      then Some i
      else find_column (S i) rest
  end.

(** The test on the upper-cased first cell of a row. *)
Definition is_company_row (symbol first_cell_text : string) : bool :=
  String.eqb first_cell_text (upper symbol) ||
  ((String.length first_cell_text <=? 6)%nat && isalpha first_cell_text &&
   negb (contains "S&P" first_cell_text) && negb (contains "500" first_cell_text) &&
   negb (contains "SECTOR" first_cell_text) && negb (contains "INDUSTRY" first_cell_text)).

(** The tokens that make the row loop go on to the next row. *)
Definition unavailable (growth_value : string) : bool :=
  is_empty growth_value || str_in (upper growth_value) ["N/A"; "NA"; "--"].

Fixpoint scan_rows (next_year_col_idx : nat) (symbol : string) (rows : list node)
    : outcome (option Q) :=
  match rows with
  | [] => Ok None
  | row :: rest =>
      let cells := find_all (named ["td"; "th"]) row in
      if (next_year_col_idx <? length cells)%nat then
        match cells !! 0%nat, cells !! next_year_col_idx with
        | Some c0, Some ci =>
            let first_cell_text := upper (get_text true c0) in
            if is_company_row symbol first_cell_text then
              let growth_value := get_text true ci in
              if negb (unavailable growth_value)
              then _clean_percentage_value growth_value
              else scan_rows next_year_col_idx symbol rest
            else scan_rows next_year_col_idx symbol rest
        | _, _ => Raise (Exn IndexError "list index out of range")
        end
      else scan_rows next_year_col_idx symbol rest
  end.

Definition _extract_from_growth_table (table : node) (symbol : string) : outcome (option Q) :=
  try_except_all
    (let header_row :=
       match find (named ["thead"]) table with
       | Some h => Some h
       | None => find (named ["tr"]) table
       end in
     match header_row with
     | None => Ok None
     | Some header_row =>
         let headers := map (get_text true) (find_all (named ["th"; "td"]) header_row) in
         match find_column 0 headers with
         | None => Ok None
         | Some next_year_col_idx =>
             scan_rows next_year_col_idx symbol (find_all (named ["tr"]) table)
         end
     end)
    (fun _ => Ok None).

Definition _extract_growth_estimate_table (soup : node) (symbol : string) : outcome (option Q) :=
  try_except_all
    (let method1 :=
       match find (fun n => named ["section"] n && attr_is "data-testid" "growthEstimate" n) soup with
       | Some growth_section =>
           match find (named ["table"]) growth_section with
           | Some table => _extract_from_growth_table table symbol
           | None => Ok None
           end
       | None => Ok None
       end in
     let tables := find_all_with_parent (named ["table"]) soup in
     let method2 :=
       first_hit tables
         (fun tp =>
            let table_text := lower (get_text false tp.1) in
            if contains "growth" table_text && contains "next year" table_text
            then _extract_from_growth_table tp.1 symbol
            else Ok None) in
     let method3 :=
       first_hit tables
         (fun tp =>
            let parent_text := lower (get_text false tp.2) in
            if (contains "estimate" parent_text && contains "growth" parent_text)
               || contains "next year" (lower (get_text false tp.1))
            then _extract_from_growth_table tp.1 symbol
            else Ok None) in
     or_else method1 (or_else method2 method3))
    (fun _ => Ok None).

(** ** The extraction pipeline

    The page fetcher is external: [session_get url] is the outcome of
    [self.session.get(url, timeout=15)], a response or a raised transport
    error.  A response carries its status code and the tree that
    [BeautifulSoup(response.text, 'html.parser')] builds from its body.
    [quote] is [urllib.parse.quote]. *)

Record response := Response { status_code : Z; soup_of : node }.

Section Pipeline.

Variable session_get : string -> outcome response.
Variable quote : string -> string.

Definition summary_url (symbol : string) : string :=
  "https://finance.yahoo.com/quote/" +:+ quote (upper symbol).

Definition analysis_url (symbol : string) : string :=
  "https://finance.yahoo.com/quote/" +:+ quote (upper symbol) +:+ "/analysis".

(** The result of a method whose [try] block may [return] early: [Some d] is
    the returned dictionary, [None] falls through to [return metrics]. *)
Definition finish (r : outcome (option (gmap string pyval)) * gmap string pyval)
    : outcome (gmap string pyval) :=
  match r with
  | (Ok (Some early), _) => Ok early
  | (Ok None, metrics) => Ok metrics
  | (Raise e, _) => Raise e
  end.

Definition _get_summary_metrics (symbol : string) : outcome (gmap string pyval) :=
  finish
    (try_all
       (let url := summary_url symbol in
        resp ← lift (session_get url);
        if negb (status_code resp =? 200) then
          mret (Some ({[ "error" :=
            PStr ("Failed to retrieve summary data: Status code " +:+ pretty (status_code resp)) ]}
            : gmap string pyval))
        else
          let soup := soup_of resp in
          _extract_current_price soup ;;
          _extract_by_testid soup ;;
          _extract_from_quote_stats soup ;;
          _extract_from_tables soup ;;
          mret None)
       (fun e => setitem "error" (PStr ("Error in summary metrics: " +:+ exn_str e)) ;; mret None)
       ∅).

Definition _get_growth_estimates (symbol : string) : outcome (gmap string pyval) :=
  finish
    (try_all
       (let url := analysis_url symbol in
        resp ← lift (session_get url);
        if negb (status_code resp =? 200) then
          mret (Some ({[ "error" :=
            PStr ("Failed to retrieve analysis data: Status code " +:+ pretty (status_code resp)) ]}
            : gmap string pyval))
        else
          let soup := soup_of resp in
          growth_estimate ← lift (_extract_growth_estimate_table soup symbol);
          match growth_estimate with
          | Some g => setitem "growth_estimate_next_year" (PFloat g)
          | None => mret tt
          end ;;
          mret None)
       (fun e => setitem "error" (PStr ("Error in growth estimates: " +:+ exn_str e)) ;; mret None)
       ∅).

Definition initial_metrics (symbol : string) : gmap string pyval :=
  <["symbol" := PStr (upper symbol)]>
  (<["current_price" := PNone]>
  (<["pe_ratio_ttm" := PNone]>
  (<["forward_dividend_rate" := PNone]>
  (<["forward_dividend_yield" := PNone]>
  (<["growth_estimate_next_year" := PNone]>
  (<["error" := PNone]> ∅)))))).

(** [get_key_metrics]: the outcome of the call and, when it returns, the
    dictionary returned. *)
Definition get_key_metrics (symbol : string) : outcome (gmap string pyval) :=
  let '(r, metrics) :=
    try_all
      (summary_metrics ← lift (_get_summary_metrics symbol);
       update summary_metrics ;;
       growth_metrics ← lift (_get_growth_estimates symbol);
       update growth_metrics)
      (fun e =>
         setitem "error" (PStr ("Error fetching metrics for " +:+ symbol +:+ ": " +:+ exn_str e)))
      (initial_metrics symbol) in
  _ ← r; Ok metrics.

End Pipeline.

(** ** Secondary metrics ([app.py]) *)

(** [metrics[key]] *)
Definition getitem (d : gmap string pyval) (key : string) : outcome pyval :=
  match d !! key with
  | Some v => Ok v
  | None => Raise (Exn KeyError key)
  end.

(** [v != 0] *)
Definition ne_zero (v : pyval) : bool :=
  match v with
  | PFloat q => negb (q_is_zero q)
  | _ => true
  end.

(** [a / b] *)
Definition truediv (a b : pyval) : outcome pyval :=
  match a, b with
  | PFloat x, PFloat y =>
      if q_is_zero y then Raise (Exn ZeroDivisionError "float division by zero")
      else Ok (PFloat (x / y))
  | _, _ => Raise (Exn TypeError "unsupported operand type(s) for /")
  end.

(** [a * b] on the operands the calculator multiplies. *)
Definition mul (a b : pyval) : outcome pyval :=
  match a, b with
  | PFloat x, PFloat y => Ok (PFloat (x * y))
  | _, _ => Raise (Exn TypeError "unsupported operand type(s) for *")
  end.

Definition peg_step (metrics additional_metrics : gmap string pyval)
    : outcome (gmap string pyval) :=
  if truthy (dict_get metrics "pe_ratio_ttm") && truthy (dict_get metrics "growth_estimate_next_year") then
    g ← getitem metrics "growth_estimate_next_year";
    if ne_zero g then
      pe ← getitem metrics "pe_ratio_ttm";
      g' ← getitem metrics "growth_estimate_next_year";
      r ← truediv pe g';
      Ok (<["peg_ratio" := r]> additional_metrics)
    else Ok additional_metrics
  else Ok additional_metrics.

Definition coverage_step (metrics additional_metrics : gmap string pyval)
    : outcome (gmap string pyval) :=
  if truthy (dict_get metrics "forward_dividend_rate") && truthy (dict_get metrics "current_price")
     && truthy (dict_get metrics "pe_ratio_ttm") then
    pe ← getitem metrics "pe_ratio_ttm";
    eps ← (if ne_zero pe then
             price ← getitem metrics "current_price";
             pe' ← getitem metrics "pe_ratio_ttm";
             truediv price pe'
           else Ok PNone);
    if truthy eps then
      let additional_metrics := <["estimated_eps" := eps]> additional_metrics in
      rate ← getitem metrics "forward_dividend_rate";
      if ne_zero rate then
        rate' ← getitem metrics "forward_dividend_rate";
        r ← truediv eps rate';
        Ok (<["dividend_coverage_ratio" := r]> additional_metrics)
      else Ok additional_metrics
    else Ok additional_metrics
  else Ok additional_metrics.

Definition pb_step (metrics additional_metrics : gmap string pyval)
    : outcome (gmap string pyval) :=
  if truthy (dict_get metrics "pe_ratio_ttm") && truthy (dict_get metrics "growth_estimate_next_year") then
    g ← getitem metrics "growth_estimate_next_year";
    estimated_roe ← (if truthy g then
                       g' ← getitem metrics "growth_estimate_next_year";
                       truediv g' (PFloat 100)
                     else Ok (PFloat (1 # 10)));
    pe ← getitem metrics "pe_ratio_ttm";
    r ← mul pe estimated_roe;
    Ok (<["estimated_pb_ratio" := r]> additional_metrics)
  else Ok additional_metrics.

Definition calculate_additional_metrics (metrics : gmap string pyval)
    : outcome (gmap string pyval) :=
  a1 ← peg_step metrics ∅;
  a2 ← coverage_step metrics a1;
  pb_step metrics a2.

(** ** Display ([format_metrics_display])

    [format_2f] is Python's formatting of a float with [:.2f]; [str_float] is
    [str] of a float. *)

Section Display.

Variable format_2f : Q -> string.
Variable str_float : Q -> string.

(** An f-string field without a format specification. *)
Definition format_plain (v : pyval) : string :=
  match v with
  | PNone => "None"
  | PFloat q => str_float q
  | PStr s => s
  end.

(** An f-string field with [:.2f]. *)
Definition format_fixed (v : pyval) : outcome string :=
  match v with
  | PFloat q => Ok (format_2f q)
  | PStr _ => Raise (Exn ValueError "Unknown format code 'f' for object of type 'str'")
  | PNone => Raise (Exn TypeError "unsupported format string passed to NoneType.__format__")
  end.

Definition display_line (metrics : gmap string pyval) (key label before after : string)
    : outcome string :=
  v ← getitem metrics key;
  if truthy v then
    v' ← getitem metrics key;
    text ← format_fixed v';
    Ok (label +:+ ": " +:+ before +:+ text +:+ after)
  else Ok (label +:+ ": N/A").

Definition display_lines (metrics : gmap string pyval) : outcome (list string) :=
  symbol ← getitem metrics "symbol";
  l1 ← display_line metrics "current_price" "Current Price" "$" "";
  l2 ← display_line metrics "pe_ratio_ttm" "PE Ratio (TTM)" "" "";
  l3 ← display_line metrics "forward_dividend_rate" "Forward Dividend Rate" "$" "";
  l4 ← display_line metrics "forward_dividend_yield" "Forward Dividend Yield" "" "%";
  l5 ← display_line metrics "growth_estimate_next_year" "Growth Estimate Next Year" "" "%";
  let lines := ["Symbol: " +:+ format_plain symbol; l1; l2; l3; l4; l5] in
  if truthy (dict_get metrics "error") then
    e ← getitem metrics "error";
    Ok (lines ++ ["Error: " +:+ format_plain e])%list
  else Ok lines.

Definition format_metrics_display (metrics : gmap string pyval) : outcome string :=
  lines ← display_lines metrics;
  Ok (join (String (ascii_of_N 10) EmptyString) lines).

End Display.

(** ** The normalizer as the specification words it

    "Strip everything except digits, a single leading minus sign, and a single
    decimal point": a minus sign is kept only in front of everything else that
    is kept, and only the first decimal point is kept.  This definition follows
    the specification, not the code; it is compared with
    [_clean_numeric_value] below. *)

Fixpoint keep_spec (seen_any seen_point : bool) (s : string) : string :=
  match s with
  | EmptyString => EmptyString
  | String c s' =>
      if is_digit c then String c (keep_spec true seen_point s')
      else if Ascii.eqb c "." then
        if seen_point then keep_spec seen_any seen_point s'
        else String c (keep_spec true true s')
      else if Ascii.eqb c "-" then
        if seen_any then keep_spec seen_any seen_point s'
        else String c (keep_spec true seen_point s')
      else keep_spec seen_any seen_point s'
  end.

Definition normalize_numeric_spec (text : string) : option Q :=
  if is_sentinel text then None
  else
    let residual := keep_spec false false text in
    if degenerate residual then None
    else
      match py_float residual with
      | Ok q => Some q
      | Raise _ => None
      end.

(** The result of parsing a residual: its value, or absent when it is not a
    decimal literal. *)
Definition parsed (residual : string) : option Q :=
  match py_float residual with
  | Ok q => Some q
  | Raise _ => None
  end.

(** ** Vocabulary of the statements *)

(** A metrics record: each numeric field holds a number or [None], or is
    missing. *)
Definition numeric_keys : list string :=
  ["current_price"; "pe_ratio_ttm"; "forward_dividend_rate";
   "forward_dividend_yield"; "growth_estimate_next_year"].

Definition numeric_field (metrics : gmap string pyval) (key : string) : Prop :=
  match metrics !! key with
  | Some (PStr _) => False
  | _ => True
  end.

Definition metrics_record (metrics : gmap string pyval) : Prop :=
  Forall (numeric_field metrics) numeric_keys.

(** The field holds a number different from zero. *)
Definition nonzero_field (metrics : gmap string pyval) (key : string) : Prop :=
  exists q, metrics !! key = Some (PFloat q) /\ ~ (q == 0)%Q.

(** The field holds the number zero. *)
Definition zero_field (metrics : gmap string pyval) (key : string) : Prop :=
  exists q, metrics !! key = Some (PFloat q) /\ (q == 0)%Q.

(** The derived metrics whose formula in [calculate_additional_metrics] reads
    the field. *)
Definition derived_from (key : string) : list string :=
  if String.eqb key "pe_ratio_ttm" then
    ["peg_ratio"; "estimated_eps"; "dividend_coverage_ratio"; "estimated_pb_ratio"]
  else if String.eqb key "growth_estimate_next_year" then
    ["peg_ratio"; "estimated_pb_ratio"]
  else if String.eqb key "current_price" then
    ["estimated_eps"; "dividend_coverage_ratio"]
  else if String.eqb key "forward_dividend_rate" then
    ["dividend_coverage_ratio"]
  else [].

(** The cells of a table row, as the row loops read them. *)
Definition cells_of (row : node) : list node := find_all (named ["td"; "th"]) row.

(** What a row contributes to the scan of the growth table: the text of its
    cell in the target column, when the row has such a cell, its first cell
    passes the company test and the target cell is not an "unavailable"
    token. *)
Definition deciding_cell (idx : nat) (symbol : string) (row : node) : option string :=
  match cells_of row !! 0%nat, cells_of row !! idx with
  | Some c0, Some ci =>
      if is_company_row symbol (upper (get_text true c0))
         && negb (unavailable (get_text true ci))
      then Some (get_text true ci)
      else None
  | _, _ => None
  end.

Definition first_deciding (idx : nat) (symbol : string) (rows : list node) : option string :=
  head (omap (deciding_cell idx symbol) rows).

(** Sample growth tables. *)
Definition cell (tag text : string) : node := Tag tag ∅ None [NavigableString text].

Definition table_row_of (tag : string) (texts : list string) : node :=
  Tag "tr" ∅ None (map (cell tag) texts).

Definition growth_header : node :=
  table_row_of "th" ["Currency"; "Current Qtr."; "Next Qtr."; "Current Year"; "Next Year"].

(** The benchmark row comes before the company row. *)
Definition benchmark_first_table : node :=
  Tag "table" ∅ None
    [growth_header;
     table_row_of "td" ["S&P 500"; "2.0"; "3.0"; "4.0"; "5.0"];
     table_row_of "td" ["AAPL"; "1.2"; "1.3"; "6.1"; "8.4"]].

(** The company row holds NULL in the target column; another row follows. *)
Definition null_cell_table : node :=
  Tag "table" ∅ None
    [growth_header;
     table_row_of "td" ["AAPL"; "1.2"; "1.3"; "6.1"; "NULL"];
     table_row_of "td" ["MSFT"; "1.0"; "1.1"; "7.0"; "8.4"]].

(** The company row holds N/A in the target column; another row follows. *)
Definition na_cell_table : node :=
  Tag "table" ∅ None
    [growth_header;
     table_row_of "td" ["AAPL"; "1.2"; "1.3"; "6.1"; "N/A"];
     table_row_of "td" ["MSFT"; "1.0"; "1.1"; "7.0"; "8.4"]].

(** A sample quote page: the only price-like text sits below an element
    tagged as a quote box. *)
Definition fallback_page : node :=
  Tag "[document]" ∅ None
    [Tag "div" ∅ None [Tag "span" ∅ None [NavigableString "12.34"]];
     Tag "div" {[ "data-testid" := "Quote-Box" ]} None
       [Tag "span" ∅ None [NavigableString "201.18"]]].

(** The text taken by an atom fits the atom: its characters are in the class
    and their number is within the bounds. *)
Definition fits (a : atom) (t : string) : Prop :=
  str_forall (a_class a) t = true
  /\ (a_min a <= String.length t)%nat
  /\ match a_max a with
     | Some m => (String.length t <= m)%nat
     | None => True
     end.

(** The current-price strategies in their priority order. *)
Definition price_methods : list (node -> outcome (option Q)) :=
  [price_method1; price_method2; price_method3; price_method4; price_method5].

(** A computation leaves the value under [key] as it found it, whether it
    returns or raises. *)
Definition preserves {A} (key : string) (m : M A) : Prop :=
  forall d, (m d).2 !! key = d !! key.

(** A sample quote page: the P/E ratio is tagged with its identifier, and a
    quote-statistics list shows another number for it. *)
Definition two_pe_page : node :=
  Tag "[document]" ∅ None
    [Tag "span" {[ "data-testid" := "PE_RATIO-value" ]} None [NavigableString "15.0"];
     Tag "div" {[ "data-testid" := "quote-statistics" ]} None
       [Tag "li" ∅ None [NavigableString "PE Ratio (TTM) 99.5"]]].

(** A sample quote page whose price is tagged as the primary price. *)
Definition primary_price_page : node :=
  Tag "[document]" ∅ None
    [Tag "span" {[ "data-testid" := "qsp-price" ]} None [NavigableString "201.18"];
     Tag "div" {[ "data-testid" := "quote-header" ]} None
       [Tag "span" ∅ None [NavigableString "7.77"]]].

(** A quote-statistics item with a negative P/E ratio, and the same figures
    as a table row. *)
Definition negative_pe_item : node :=
  Tag "li" ∅ None [NavigableString "PE Ratio (TTM) -12.5"].

Definition negative_pe_row : node :=
  table_row_of "td" ["PE Ratio (TTM)"; "-12.5"].

Definition negative_pe_page : node :=
  Tag "[document]" ∅ None
    [Tag "div" {[ "data-testid" := "quote-statistics" ]} None [negative_pe_item]].

(** The dictionary a phase returns on a status code other than 200. *)
Definition failed_fetch (what : string) (status : Z) : gmap string pyval :=
  {[ "error" := PStr ("Failed to retrieve " +:+ what +:+ " data: Status code " +:+ pretty status) ]}.

(** A page fetcher for the examples: the quote page of the sample symbol is
    [summary] and its analysis page is [analysis]. *)
Definition sample_fetch (summary analysis : response) (url : string) : outcome response :=
  if String.eqb url "https://finance.yahoo.com/quote/AAPL" then Ok summary
  else if String.eqb url "https://finance.yahoo.com/quote/AAPL/analysis" then Ok analysis
  else Raise (Exn RequestException "connection refused").

Definition not_found : response := Response 404 (Tag "[document]" ∅ None []).

Definition analysis_page : node :=
  Tag "[document]" ∅ None
    [Tag "section" {[ "data-testid" := "growthEstimate" ]} None [benchmark_first_table]].

(** A sample record, and the same record with a dividend yield of zero. *)
Definition sample_metrics : gmap string pyval :=
  <["symbol" := PStr "AAPL"]>
  (<["current_price" := PFloat 100]>
  (<["pe_ratio_ttm" := PFloat 20]>
  (<["forward_dividend_rate" := PFloat 2]>
  (<["forward_dividend_yield" := PFloat 2]>
  (<["growth_estimate_next_year" := PFloat 10]>
  (<["error" := PNone]> ∅)))))).

Definition zero_yield_metrics : gmap string pyval :=
  <["forward_dividend_yield" := PFloat 0]> sample_metrics.

(** A stand-in for the two float formatters in the examples. *)
Definition sample_format (q : Q) : string := "#.##".

(** What a numeric field of a metrics record can hold. *)
Inductive field_view (metrics : gmap string pyval) (key : string) : Prop :=
| field_missing : metrics !! key = None -> field_view metrics key
| field_none : metrics !! key = Some PNone -> field_view metrics key
| field_zero q : metrics !! key = Some (PFloat q) -> q_is_zero q = true ->
                 field_view metrics key
| field_number q : metrics !! key = Some (PFloat q) -> q_is_zero q = false ->
                   field_view metrics key.

(** The label under which [format_metrics_display] prints a numeric field. *)
Definition label_of (key : string) : string :=
  if String.eqb key "current_price" then "Current Price"
  else if String.eqb key "pe_ratio_ttm" then "PE Ratio (TTM)"
  else if String.eqb key "forward_dividend_rate" then "Forward Dividend Rate"
  else if String.eqb key "forward_dividend_yield" then "Forward Dividend Yield"
  else "Growth Estimate Next Year".

(** A sample quote page: the dividend is tagged with its identifier, and a
    statistics table shows other figures for it. *)
Definition two_dividend_page : node :=
  Tag "[document]" ∅ None
    [Tag "span" {[ "data-testid" := "FORWARD_DIVIDEND_AND_YIELD-value" ]} None
       [NavigableString "0.96 (1.45%)"];
     Tag "table" ∅ None
       [table_row_of "td" ["Forward Annual Dividend Rate"; "1.00"];
        table_row_of "td" ["Forward Annual Dividend Yield"; "2.00%"]]].

(** ** What a computation may write, and whether it raises *)

(** Every key is left as it was or holds a value that [allowed] admits for
    it, whether the computation returns or raises. *)
Definition writes_only {A} (allowed : string -> pyval -> Prop) (m : M A) : Prop :=
  forall d key,
    (m d).2 !! key = d !! key \/ exists v, (m d).2 !! key = Some v /\ allowed key v.

Definition never_raises {A} (m : M A) : Prop :=
  forall d, exists a d', m d = (Ok a, d').

(** A dividend figure that is not negative. *)
Definition dividend_value (key : string) (v : pyval) : Prop :=
  (key = "forward_dividend_rate" \/ key = "forward_dividend_yield")
  /\ exists q, v = PFloat q /\ (0 <= q)%Q.

(** A price above zero. *)
Definition price_value (key : string) (v : pyval) : Prop :=
  key = "current_price" /\ exists q, v = PFloat q /\ (0 < q)%Q.

(** A P/E ratio or dividend figure: a number or [None]. *)
Definition ratio_value (key : string) (v : pyval) : Prop :=
  (key = "pe_ratio_ttm" \/ key = "forward_dividend_rate" \/ key = "forward_dividend_yield")
  /\ (v = PNone \/ exists q, v = PFloat q).

(** ** Vocabulary of the record returned by [get_key_metrics] *)

Definition record_keys : list string :=
  ["symbol"; "current_price"; "pe_ratio_ttm"; "forward_dividend_rate";
   "forward_dividend_yield"; "growth_estimate_next_year"; "error"].

(** A growth estimate: a number. *)
Definition growth_value (key : string) (v : pyval) : Prop :=
  key = "growth_estimate_next_year" /\ exists g, v = PFloat g.

(** An error report: a message that is not empty. *)
Definition error_value (key : string) (v : pyval) : Prop :=
  key = "error" /\ exists message, v = PStr message /\ message <> "".

(** What the record of [symbol] can hold under [key]. *)
Definition well_formed (symbol key : string) (v : pyval) : Prop :=
  (key = "symbol" /\ v = PStr (upper symbol))
  \/ (key = "current_price" /\ (v = PNone \/ exists p, v = PFloat p /\ (0 < p)%Q))
  \/ ((key = "pe_ratio_ttm" \/ key = "forward_dividend_rate"
       \/ key = "forward_dividend_yield" \/ key = "growth_estimate_next_year")
      /\ (v = PNone \/ exists q, v = PFloat q))
  \/ (key = "error" /\ (v = PNone \/ exists message, v = PStr message /\ message <> "")).

(** The message a phase leaves under [error]: [what] names the page in the
    message for a status other than 200, [label] the phase in the message
    for an exception; [None] when the page answered 200. *)
Definition phase_error (fetched : outcome response) (what label : string) : option string :=
  match fetched with
  | Ok r =>
      if status_code r =? 200 then None
      else Some ("Failed to retrieve " +:+ what +:+ " data: Status code "
                 +:+ pretty (status_code r))
  | Raise e => Some ("Error in " +:+ label +:+ ": " +:+ exn_str e)
  end.

(** ** Batch extraction ([get_multiple_stocks_metrics]) *)

Section Batch.

Variable session_get : string -> outcome response.
Variable quote : string -> string.

(** The loop over [symbols], with the [results] dictionary built so far. *)
Fixpoint batch_loop (symbols : list string) (results : gmap string (gmap string pyval))
    : outcome (gmap string (gmap string pyval)) :=
  match symbols with
  | [] => Ok results
  | symbol :: rest =>
      metrics ← get_key_metrics session_get quote symbol;
      batch_loop rest (<[upper symbol := metrics]> results)
  end.

Definition get_multiple_stocks_metrics (symbols : list string)
    : outcome (gmap string (gmap string pyval)) :=
  batch_loop symbols ∅.

End Batch.

(** The number under [key] when the field reads as present: a number other
    than zero. *)
Definition number_at (metrics : gmap string pyval) (key : string) : option Q :=
  match metrics !! key with
  | Some (PFloat q) => if q_is_zero q then None else Some q
  | _ => None
  end.

(** ** Valuation ([calculate_valuation_metrics], [app.py])

    The float literals [0.10], [0.05] and [1.5] are the rationals they
    spell. *)

(** [a + b] *)
Definition add (a b : pyval) : outcome pyval :=
  match a, b with
  | PFloat x, PFloat y => Ok (PFloat (x + y))
  | PStr x, PStr y => Ok (PStr (x +:+ y))
  | _, _ => Raise (Exn TypeError "unsupported operand type(s) for +")
  end.

(** [a - b] *)
Definition sub (a b : pyval) : outcome pyval :=
  match a, b with
  | PFloat x, PFloat y => Ok (PFloat (x - y))
  | _, _ => Raise (Exn TypeError "unsupported operand type(s) for -")
  end.

Definition q_lt (x y : Q) : bool := negb (Qle_bool y x).

(** A comparison of [v] with a number: [test] is the comparison as a test on
    the number [v] holds; anything but a number raises. *)
Definition compare_number (v : pyval) (test : Q -> bool) : outcome bool :=
  match v with
  | PFloat x => Ok (test x)
  | _ => Raise (Exn TypeError "comparison not supported between instances")
  end.

(** [v is not None] *)
Definition is_not_none (v : pyval) : bool :=
  match v with PNone => false | _ => true end.

Definition calculate_valuation_metrics
    (current_price pe_ratio growth_rate dividend_yield : pyval)
    : outcome (gmap string pyval) :=
  let valuations : gmap string pyval := ∅ in
  if truthy current_price && truthy pe_ratio
     && is_not_none growth_rate && is_not_none dividend_yield then
    valuations ←
      (if ne_zero growth_rate then
         let fair_pe := growth_rate in
         earnings ← truediv current_price pe_ratio;
         fair_value ← mul earnings fair_pe;
         Ok (<["peg_based_fair_value" := fair_value]> valuations)
       else Ok valuations);
    pays ← compare_number dividend_yield (fun y => q_lt 0 y);
    valuations ←
      (if (pays : bool) then
         fraction ← truediv dividend_yield (PFloat 100);
         dividend_per_share ← mul current_price fraction;
         let required_return := PFloat (10 # 100) in
         growth_rate_decimal ←
           (if truthy growth_rate then truediv growth_rate (PFloat 100)
            else Ok (PFloat (5 # 100)));
         below ← compare_number growth_rate_decimal (fun g => q_lt g (10 # 100));
         if (below : bool) then
           grown ← add (PFloat 1) growth_rate_decimal;
           numerator ← mul dividend_per_share grown;
           spread ← sub required_return growth_rate_decimal;
           fair_value ← truediv numerator spread;
           Ok (<["dividend_growth_fair_value" := fair_value]> valuations)
         else Ok valuations
       else Ok valuations);
    peg_value ←
      (if ne_zero pe_ratio then
         total ← add growth_rate dividend_yield;
         truediv total pe_ratio
       else Ok (PFloat 0));
    let valuations := <["valuation_score" := peg_value]> valuations in
    is_over ← compare_number peg_value (fun p => q_lt p 1);
    if (is_over : bool) then Ok (<["valuation_status" := PStr "🚩 Overvalued"]> valuations)
    else
      is_fair ←
        (lo ← compare_number peg_value (fun p => Qle_bool 1 p);
         if (lo : bool) then compare_number peg_value (fun p => Qle_bool p (15 # 10))
         else Ok false);
      if (is_fair : bool) then Ok (<["valuation_status" := PStr "✅ Fairly Valued"]> valuations)
      else
        is_neutral ←
          (lo ← compare_number peg_value (fun p => q_lt (15 # 10) p);
           if (lo : bool) then compare_number peg_value (fun p => Qle_bool p 2)
           else Ok false);
        if (is_neutral : bool) then Ok (<["valuation_status" := PStr "📈 Neutral"]> valuations)
        else Ok (<["valuation_status" := PStr "📈 Undervalued"]> valuations)
  else Ok valuations.

(** ** Radar chart ([create_metrics_radar_chart], [app.py])

    The figure is modelled by what it plots: the [theta] labels and the [r]
    values handed to [go.Scatterpolar].  The float literals [2.5], [3.33] and
    [33.33] are the rationals they spell. *)

(** [min(a, b)] and [max(a, b)]: the first argument unless the second is
    strictly smaller, respectively larger. *)
Definition py_min (a b : pyval) : outcome pyval :=
  match a, b with
  | PFloat x, PFloat y => Ok (if q_lt y x then b else a)
  | _, _ => Raise (Exn TypeError "'<' not supported between instances")
  end.

Definition py_max (a b : pyval) : outcome pyval :=
  match a, b with
  | PFloat x, PFloat y => Ok (if q_lt x y then b else a)
  | _, _ => Raise (Exn TypeError "'>' not supported between instances")
  end.

(** [max(0, min(100, x))] *)
Definition clamp (x : pyval) : outcome pyval :=
  m ← py_min (PFloat 100) x;
  py_max (PFloat 0) m.

(** One [if d.get(key): categories.append(label); values.append(...)] step;
    [normalized] maps [d[key]] to the value plotted. *)
Definition radar_axis (d : gmap string pyval) (key label : string)
    (normalized : pyval -> outcome pyval) (chart : list string * list pyval)
    : outcome (list string * list pyval) :=
  if truthy (dict_get d key) then
    x ← getitem d key;
    v ← normalized x;
    Ok ((chart.1 ++ [label])%list, (chart.2 ++ [v])%list)
  else Ok chart.

Definition create_metrics_radar_chart (metrics : gmap string pyval)
    : outcome (option (list string * list pyval)) :=
  chart ← radar_axis metrics "pe_ratio_ttm" "P/E Ratio<br>(Lower is Better)"
             (fun pe => scaled ← mul pe (PFloat (25 # 10));
                        inverse ← sub (PFloat 100) scaled;
                        clamp inverse)
             ([], []);
  chart ← radar_axis metrics "growth_estimate_next_year" "Growth Rate<br>(Higher is Better)"
             (fun growth => scaled ← mul growth (PFloat (333 # 100)); clamp scaled)
             chart;
  chart ← radar_axis metrics "forward_dividend_yield" "Dividend Yield<br>(Higher is Better)"
             (fun yld => scaled ← mul yld (PFloat 10); clamp scaled)
             chart;
  additional_metrics ← calculate_additional_metrics metrics;
  chart ← radar_axis additional_metrics "peg_ratio" "PEG Ratio<br>(Lower is Better)"
             (fun peg => scaled ← mul peg (PFloat (3333 # 100));
                         inverse ← sub (PFloat 100) scaled;
                         clamp inverse)
             chart;
  if (3 <=? length chart.1)%nat then Ok (Some chart) else Ok None.

(** A plotted value: a number between 0 and 100. *)
Definition in_range (v : pyval) : Prop :=
  exists c, v = PFloat c /\ (0 <= c)%Q /\ (c <= 100)%Q.

(** * Properties *)

(** ** Strings *)

Lemma app_cons c x y : String c x +:+ y = String c (x +:+ y).
Proof. reflexivity. Qed.

Lemma app_nil_r x : x +:+ "" = x.
Proof. induction x as [|c x IH]; [reflexivity|]. now rewrite app_cons, IH. Qed.

Lemma app_assoc_str x y z : (x +:+ y) +:+ z = x +:+ (y +:+ z).
Proof. induction x as [|c x IH]; [reflexivity|]. now rewrite !app_cons, IH. Qed.

(** ** Value normalizer *)

Lemma py_float_raises_value_error s e :
  py_float s = Raise e -> exn_kind_of e = ValueError.
Proof.
  unfold py_float.
  destruct (split_sign s) as [neg body].
  destruct (span_digits body) as [ip r1].
  destruct (split_point r1) as [fp r2].
  destruct (is_empty r2 && negb (is_empty ip && is_empty fp)); [discriminate|].
  intros [= <-]. reflexivity.
Qed.

Lemma clean_numeric_value_eq value :
  _clean_numeric_value value =
  Ok (if is_sentinel value then None
      else if degenerate (strip_non_numeric value) then None
      else parsed (strip_non_numeric value)).
Proof.
  unfold _clean_numeric_value, degenerate, parsed.
  destruct (is_sentinel value); [reflexivity|].
  rewrite <- negb_orb.
  destruct (is_empty (strip_non_numeric value) || _); simpl; [reflexivity|].
  destruct (py_float (strip_non_numeric value)) as [q|e] eqn:Hf; simpl; [reflexivity|].
  rewrite (py_float_raises_value_error _ _ Hf). reflexivity.
Qed.

Lemma clean_percentage_is_clean_numeric value :
  _clean_percentage_value value = _clean_numeric_value value.
Proof. reflexivity. Qed.

Lemma clean_numeric_never_raises value : exists r, _clean_numeric_value value = Ok r.
Proof. rewrite clean_numeric_value_eq. eauto. Qed.

Lemma clean_percentage_never_raises value : exists r, _clean_percentage_value value = Ok r.
Proof. rewrite clean_percentage_is_clean_numeric. apply clean_numeric_never_raises. Qed.

Example clean_currency : _clean_numeric_value "$1,234.50" = Ok (Some (2469 # 2)).
Proof. reflexivity. Qed.
Example clean_lowercase_sentinel : _clean_numeric_value "n/a" = Ok None.
Proof. reflexivity. Qed.
Example clean_negative_fraction : _clean_numeric_value "-.5" = Ok (Some (-1 # 2)).
Proof. reflexivity. Qed.
Example clean_percent_sign : _clean_percentage_value "1.45%" = Ok (Some (29 # 20)).
Proof. reflexivity. Qed.

Lemma is_sentinel_iff value :
  is_sentinel value = true <->
  value = "" \/ upper value = "N/A" \/ upper value = "NA" \/ upper value = "--"
  \/ upper value = "NULL".
Proof.
  unfold is_sentinel, str_in. simpl existsb.
  rewrite !orb_true_iff, !String.eqb_eq.
  split.
  - intros [H | [H | [H | [H | [H | [H | H]]]]]]; auto; try discriminate.
    + destruct value; [auto | discriminate].
    + destruct value; [auto | discriminate].
  - intros [H | [H | [H | [H | H]]]]; auto 10.
    subst. auto.
Qed.

Lemma span_digits_spec s d r :
  span_digits s = (d, r) -> s = d +:+ r /\ str_forall is_digit d = true.
Proof.
  revert d r. induction s as [|c s IH]; simpl; intros d r.
  - intros [= <- <-]. auto.
  - destruct (is_digit c) eqn:Hc.
    + destruct (span_digits s) as [d' r'].
      intros [= <- <-]. destruct (IH _ _ eq_refl) as [-> Hd].
      simpl. rewrite Hc, Hd. auto.
    + intros [= <- <-]. auto.
Qed.

(** A residual that parses is a decimal literal: an optional leading minus
    sign, then digits with at most one decimal point and at least one digit;
    its value is the decimal number it spells. *)
Lemma parsed_is_decimal_literal residual q :
  parsed residual = Some q ->
  exists (neg point : bool) (ip fp : string),
    residual = (if neg then "-" else "") +:+ ip +:+ (if point then "." else "") +:+ fp
    /\ str_forall is_digit ip = true /\ str_forall is_digit fp = true
    /\ (is_empty ip && is_empty fp = false)
    /\ q = decimal neg ip fp.
Proof.
  unfold parsed, py_float.
  set (nb := split_sign residual).
  assert (Hnb : residual = (if nb.1 then "-" else "") +:+ nb.2).
  { subst nb. unfold split_sign. destruct residual as [|c t]; [reflexivity|].
    destruct c as [[] [] [] [] [] [] [] []]; reflexivity. }
  destruct nb as [neg body]. simpl in Hnb.
  destruct (span_digits body) as [ip r1] eqn:Hip.
  apply span_digits_spec in Hip as [-> Hipd].
  set (fr := split_point r1).
  assert (Hfr : exists point : bool,
             r1 = (if point then "." else "") +:+ fr.1 +:+ fr.2
             /\ str_forall is_digit fr.1 = true).
  { subst fr. unfold split_point. destruct r1 as [|c t]; [exists false; auto|].
    destruct (Ascii.eqb_spec c ".") as [->|Hne].
    - destruct (span_digits t) as [fp r2] eqn:Hfp.
      apply span_digits_spec in Hfp as [-> Hfpd]. exists true. auto.
    - exists false.
      destruct c as [[] [] [] [] [] [] [] []]; try (split; reflexivity).
      now destruct Hne. }
  destruct fr as [fp r2]. destruct Hfr as (point & -> & Hfpd). simpl in *.
  destruct r2; simpl; [|discriminate].
  destruct (is_empty ip && is_empty fp) eqn:He; simpl; [discriminate|].
  intros [= <-]. exists neg, point, ip, fp.
  subst residual. repeat split; auto.
  now rewrite app_nil_r.
Qed.

(** C3 (as amended).  [_clean_numeric_value] never raises.  It returns absent
    for the sentinel tokens (the empty text and, in any letter case, N/A, NA,
    -- and NULL).  Otherwise it removes every character that is not a digit, a
    decimal point or a minus sign, keeping all the points and minus signs
    there are, and returns absent when that residual is empty, is one of "-",
    "." and "-.", or is not a decimal literal, and the value of the residual
    otherwise: a number is returned only for a residual made of an optional
    leading minus sign and digits with at most one decimal point. *)
Theorem clean_numeric_value_spec (value : string) :
  _clean_numeric_value value =
    Ok (if is_sentinel value then None
        else if degenerate (strip_non_numeric value) then None
        else parsed (strip_non_numeric value))
  /\ strip_non_numeric value
     = str_filter (fun c => is_digit c || Ascii.eqb c "." || Ascii.eqb c "-") value
  /\ (is_sentinel value = true <->
      value = "" \/ upper value = "N/A" \/ upper value = "NA" \/ upper value = "--"
      \/ upper value = "NULL")
  /\ (degenerate (strip_non_numeric value) = true <->
      strip_non_numeric value = "" \/ strip_non_numeric value = "-"
      \/ strip_non_numeric value = "." \/ strip_non_numeric value = "-.")
  /\ (forall q,
        _clean_numeric_value value = Ok (Some q) ->
        exists (neg point : bool) (ip fp : string),
          strip_non_numeric value
          = (if neg then "-" else "") +:+ ip +:+ (if point then "." else "") +:+ fp
          /\ str_forall is_digit ip = true /\ str_forall is_digit fp = true
          /\ (is_empty ip && is_empty fp = false)
          /\ q = decimal neg ip fp).
Proof.
  split; [apply clean_numeric_value_eq|].
  split; [reflexivity|].
  split; [apply is_sentinel_iff|].
  split.
  - unfold degenerate, str_in. simpl existsb.
    rewrite !orb_true_iff, !String.eqb_eq.
    destruct (strip_non_numeric value); simpl; intuition discriminate.
  - intros q. rewrite clean_numeric_value_eq.
    destruct (is_sentinel value); [discriminate|].
    destruct (degenerate (strip_non_numeric value)); [discriminate|].
    intros [= H]. by apply parsed_is_decimal_literal.
Qed.

(** C3, counterexample.  The text "1.2.3" is no sentinel and its residual is
    "1.2.3" itself: both decimal points are kept, the residual is neither
    empty nor degenerate, and yet the result is absent, where the claim's
    single-point residual "1.23" would parse. *)
Lemma clean_numeric_value_keeps_every_point :
  is_sentinel "1.2.3" = false
  /\ strip_non_numeric "1.2.3" = "1.2.3"
  /\ degenerate (strip_non_numeric "1.2.3") = false
  /\ _clean_numeric_value "1.2.3" = Ok None
  /\ normalize_numeric_spec "1.2.3" = Some (123 # 100)
  /\ _clean_numeric_value "1.2.3" <> Ok (normalize_numeric_spec "1.2.3").
Proof. repeat split; try reflexivity. discriminate. Qed.

(** ** Secondary metrics *)

Lemma q_is_zero_spec q : q_is_zero q = true <-> (q == 0)%Q.
Proof.
  unfold q_is_zero, Qeq. simpl. rewrite Z.eqb_eq. lia.
Qed.

Lemma q_is_zero_false q : q_is_zero q = false <-> ~ (q == 0)%Q.
Proof.
  rewrite <- q_is_zero_spec. destruct (q_is_zero q); intuition congruence.
Qed.

Lemma numeric_field_view metrics key :
  numeric_field metrics key -> field_view metrics key.
Proof.
  unfold numeric_field. intros H.
  destruct (metrics !! key) as [[|q|s]|] eqn:E; try contradiction.
  - now apply field_none.
  - destruct (q_is_zero q) eqn:Z; [eapply field_zero | eapply field_number]; eauto.
  - now apply field_missing.
Qed.

Lemma metrics_record_fields metrics :
  metrics_record metrics ->
  field_view metrics "current_price" /\ field_view metrics "pe_ratio_ttm"
  /\ field_view metrics "forward_dividend_rate"
  /\ field_view metrics "growth_estimate_next_year".
Proof.
  unfold metrics_record, numeric_keys. rewrite !Forall_cons.
  intros (H1 & H2 & H3 & H4 & H5 & _).
  auto using numeric_field_view.
Qed.

Lemma nonzero_field_intro metrics key q :
  metrics !! key = Some (PFloat q) -> q_is_zero q = false -> nonzero_field metrics key.
Proof. intros H Z. exists q. split; [exact H | now apply q_is_zero_false]. Qed.

Local Ltac read_fields :=
  unfold dict_get, getitem;
  repeat match goal with
         | H : ?m !! ?k = _ |- context [?m !! ?k] => rewrite H
         end;
  cbn [default from_option id truthy ne_zero negb andb mbind outcome_bind truediv mul];
  repeat match goal with
         | H : q_is_zero ?q = _ |- context [q_is_zero ?q] => rewrite H
         end;
  cbn [default from_option id truthy ne_zero negb andb mbind outcome_bind truediv mul].

Lemma peg_step_cases metrics a :
  field_view metrics "pe_ratio_ttm" -> field_view metrics "growth_estimate_next_year" ->
  peg_step metrics a = Ok a
  \/ exists pe g,
       nonzero_field metrics "pe_ratio_ttm"
       /\ nonzero_field metrics "growth_estimate_next_year"
       /\ peg_step metrics a = Ok (<["peg_ratio" := PFloat (pe / g)]> a).
Proof.
  intros [Hp|Hp|pe Hp Zp|pe Hp Zp] [Hg|Hg|g Hg Zg|g Hg Zg];
    unfold peg_step; read_fields; auto.
  right. exists pe, g. read_fields. eauto using nonzero_field_intro.
Qed.

Lemma coverage_step_cases metrics a :
  field_view metrics "current_price" -> field_view metrics "pe_ratio_ttm" ->
  field_view metrics "forward_dividend_rate" ->
  coverage_step metrics a = Ok a
  \/ exists eps cov,
       nonzero_field metrics "current_price"
       /\ nonzero_field metrics "pe_ratio_ttm"
       /\ nonzero_field metrics "forward_dividend_rate"
       /\ coverage_step metrics a =
          Ok (<["dividend_coverage_ratio" := PFloat cov]> (<["estimated_eps" := PFloat eps]> a)).
Proof.
  intros [Hc|Hc|c Hc Zc|c Hc Zc] [Hp|Hp|pe Hp Zp|pe Hp Zp] [Hr|Hr|r Hr Zr|r Hr Zr];
    unfold coverage_step; read_fields; auto.
  destruct (q_is_zero (c / pe)) eqn:Ze; read_fields; auto.
  right. exists (c / pe)%Q, (c / pe / r)%Q.
  repeat split; eauto using nonzero_field_intro.
Qed.

Lemma pb_step_cases metrics a :
  field_view metrics "pe_ratio_ttm" -> field_view metrics "growth_estimate_next_year" ->
  pb_step metrics a = Ok a
  \/ exists pb, pb_step metrics a = Ok (<["estimated_pb_ratio" := PFloat pb]> a).
Proof.
  intros [Hp|Hp|pe Hp Zp|pe Hp Zp] [Hg|Hg|g Hg Zg|g Hg Zg];
    unfold pb_step; read_fields; eauto.
Qed.


(** Each step of the calculator reads the metrics through two or three
    fields only, is skipped when one of them is falsy, and writes its own
    keys only. *)

Lemma peg_step_ext m m' a :
  m' !! "pe_ratio_ttm" = m !! "pe_ratio_ttm" ->
  m' !! "growth_estimate_next_year" = m !! "growth_estimate_next_year" ->
  peg_step m' a = peg_step m a.
Proof. intros H1 H2. unfold peg_step, dict_get, getitem. now rewrite H1, H2. Qed.

Lemma coverage_step_ext m m' a :
  m' !! "current_price" = m !! "current_price" ->
  m' !! "pe_ratio_ttm" = m !! "pe_ratio_ttm" ->
  m' !! "forward_dividend_rate" = m !! "forward_dividend_rate" ->
  coverage_step m' a = coverage_step m a.
Proof. intros H1 H2 H3. unfold coverage_step, dict_get, getitem. now rewrite H1, H2, H3. Qed.

Lemma pb_step_ext m m' a :
  m' !! "pe_ratio_ttm" = m !! "pe_ratio_ttm" ->
  m' !! "growth_estimate_next_year" = m !! "growth_estimate_next_year" ->
  pb_step m' a = pb_step m a.
Proof. intros H1 H2. unfold pb_step, dict_get, getitem. now rewrite H1, H2. Qed.

Lemma peg_step_skip m a :
  truthy (dict_get m "pe_ratio_ttm") && truthy (dict_get m "growth_estimate_next_year") = false ->
  peg_step m a = Ok a.
Proof. intros H. unfold peg_step. now rewrite H. Qed.

Lemma coverage_step_skip m a :
  truthy (dict_get m "forward_dividend_rate") && truthy (dict_get m "current_price")
    && truthy (dict_get m "pe_ratio_ttm") = false ->
  coverage_step m a = Ok a.
Proof. intros H. unfold coverage_step. now rewrite H. Qed.

Lemma pb_step_skip m a :
  truthy (dict_get m "pe_ratio_ttm") && truthy (dict_get m "growth_estimate_next_year") = false ->
  pb_step m a = Ok a.
Proof. intros H. unfold pb_step. now rewrite H. Qed.

Local Ltac split_outcome H :=
  repeat first
    [ discriminate H
    | match type of H with
      | context [mbind _ ?x] => destruct x eqn:?; cbn [mbind outcome_bind] in H
      | context [if ?x then _ else _] => destruct x eqn:?
      end ].

Lemma peg_step_frame m a a' key :
  peg_step m a = Ok a' -> key <> "peg_ratio" -> a' !! key = a !! key.
Proof.
  unfold peg_step. cbn [mbind outcome_bind]. intros H Hk.
  split_outcome H; injection H as <-; by rewrite ?lookup_insert_ne.
Qed.

Lemma coverage_step_frame m a a' key :
  coverage_step m a = Ok a' ->
  key <> "estimated_eps" -> key <> "dividend_coverage_ratio" -> a' !! key = a !! key.
Proof.
  unfold coverage_step. cbn [mbind outcome_bind]. intros H Hk1 Hk2.
  split_outcome H; injection H as <-; by rewrite ?lookup_insert_ne.
Qed.

Lemma pb_step_frame m a a' key :
  pb_step m a = Ok a' -> key <> "estimated_pb_ratio" -> a' !! key = a !! key.
Proof.
  unfold pb_step. cbn [mbind outcome_bind]. intros H Hk.
  split_outcome H; injection H as <-; by rewrite ?lookup_insert_ne.
Qed.

Lemma zero_field_falsy m key : zero_field m key -> truthy (dict_get m key) = false.
Proof.
  intros (q & Hq & Zq). unfold dict_get. rewrite Hq. simpl.
  apply q_is_zero_spec in Zq. now rewrite Zq.
Qed.

Lemma none_field_falsy (m : gmap string pyval) key :
  truthy (dict_get (<[key := PNone]> m) key) = false.
Proof. unfold dict_get. now rewrite lookup_insert_eq. Qed.

Lemma calculate_ext m m' :
  (forall a, peg_step m' a = peg_step m a) ->
  (forall a, coverage_step m' a = coverage_step m a) ->
  (forall a, pb_step m' a = pb_step m a) ->
  calculate_additional_metrics m' = calculate_additional_metrics m.
Proof.
  intros H1 H2 H3. unfold calculate_additional_metrics.
  rewrite H1. destruct (peg_step m ∅); cbn [mbind outcome_bind]; [|reflexivity].
  rewrite H2. destruct (coverage_step m a); cbn [mbind outcome_bind]; [|reflexivity].
  apply H3.
Qed.

Lemma calculate_steps m additional :
  calculate_additional_metrics m = Ok additional ->
  exists a1 a2,
    peg_step m ∅ = Ok a1 /\ coverage_step m a1 = Ok a2 /\ pb_step m a2 = Ok additional.
Proof.
  unfold calculate_additional_metrics. intros H.
  destruct (peg_step m ∅) as [a1|]; cbn [mbind outcome_bind] in H; [|discriminate].
  destruct (coverage_step m a1) as [a2|] eqn:E2; cbn [mbind outcome_bind] in H; [|discriminate].
  eauto.
Qed.

(** Setting a field that holds zero to [None] changes no step. *)
Lemma blank_zero_field_steps m key :
  key ∈ numeric_keys -> zero_field m key ->
  (forall a, peg_step (<[key := PNone]> m) a = peg_step m a)
  /\ (forall a, coverage_step (<[key := PNone]> m) a = coverage_step m a)
  /\ (forall a, pb_step (<[key := PNone]> m) a = pb_step m a).
Proof.
  intros Hkey Hz.
  assert (Hfalsy := zero_field_falsy _ _ Hz).
  assert (Hnone := none_field_falsy m key).
  unfold numeric_keys in Hkey. rewrite !elem_of_cons, elem_of_nil in Hkey.
  destruct Hkey as [-> | [-> | [-> | [-> | [-> | []]]]]]; split_and!; intros a;
    first
      [ by (apply peg_step_ext || apply coverage_step_ext || apply pb_step_ext);
           rewrite lookup_insert_ne
      | rewrite !peg_step_skip
      | rewrite !coverage_step_skip
      | rewrite !pb_step_skip ];
    try reflexivity;
    rewrite ?Hfalsy, ?Hnone; by repeat destruct (truthy _).
Qed.

(** ** Display *)

Section DisplayFacts.

Variable format_2f : Q -> string.
Variable str_float : Q -> string.

Lemma display_line_ext m m' key label before after :
  m' !! key = m !! key ->
  display_line format_2f m' key label before after
  = display_line format_2f m key label before after.
Proof. intros H. unfold display_line, getitem. now rewrite H. Qed.

Lemma display_line_zero m key label before after :
  zero_field m key ->
  display_line format_2f m key label before after = Ok (label +:+ ": N/A").
Proof.
  intros (q & Hq & Zq). apply q_is_zero_spec in Zq.
  unfold display_line, getitem. rewrite Hq. simpl. now rewrite Zq.
Qed.

Lemma display_line_none (m : gmap string pyval) key label before after :
  m !! key = Some PNone ->
  display_line format_2f m key label before after = Ok (label +:+ ": N/A").
Proof. intros H. unfold display_line, getitem. now rewrite H. Qed.

Lemma display_line_blank m key k label before after :
  zero_field m key ->
  display_line format_2f (<[key := PNone]> m) k label before after
  = display_line format_2f m k label before after.
Proof.
  intros Hz. destruct (decide (k = key)) as [->|Hne].
  - rewrite (display_line_zero m) by assumption.
    apply display_line_none, lookup_insert_eq.
  - apply display_line_ext. by rewrite lookup_insert_ne.
Qed.

(** The lines of the display contain the N/A line of a field that holds
    zero. *)
Lemma display_lines_zero m key lines :
  key ∈ numeric_keys -> zero_field m key ->
  display_lines format_2f str_float m = Ok lines ->
  (label_of key +:+ ": N/A") ∈ lines.
Proof.
  intros Hkey Hz H.
  assert (Hline := fun label before after =>
                     display_line_zero m key label before after Hz).
  unfold numeric_keys in Hkey. rewrite !elem_of_cons, elem_of_nil in Hkey.
  unfold display_lines in H.
  destruct Hkey as [-> | [-> | [-> | [-> | [-> | []]]]]];
    rewrite Hline in H;
    split_outcome H; injection H as <-;
    cbn [label_of String.eqb Ascii.eqb Bool.eqb];
    rewrite ?elem_of_app, !elem_of_cons; tauto.
Qed.

End DisplayFacts.

(** C10.  A numeric field that holds zero reads as absent.  For each of the
    five numeric fields of any dictionary: when the field holds 0 the display
    formatter prints "N/A" for it, and both the formatter and the secondary
    metrics calculator give the same result as on the dictionary with the
    field set to [None]; no derived metric whose formula reads the field is
    produced. *)
Theorem zero_metric_reads_as_absent
    (format_2f str_float : Q -> string) (metrics : gmap string pyval) (key : string) :
  key ∈ numeric_keys ->
  zero_field metrics key ->
  (forall label before after,
      display_line format_2f metrics key label before after = Ok (label +:+ ": N/A"))
  /\ (forall lines,
        display_lines format_2f str_float metrics = Ok lines ->
        (label_of key +:+ ": N/A") ∈ lines)
  /\ format_metrics_display format_2f str_float (<[key := PNone]> metrics)
     = format_metrics_display format_2f str_float metrics
  /\ calculate_additional_metrics (<[key := PNone]> metrics)
     = calculate_additional_metrics metrics
  /\ (forall additional derived,
         calculate_additional_metrics metrics = Ok additional ->
         derived ∈ derived_from key ->
         additional !! derived = None).
Proof.
  intros Hkey Hz.
  assert (Hfalsy := zero_field_falsy _ _ Hz).
  assert (Hnone := none_field_falsy metrics key).
  split; [intros; by apply display_line_zero|].
  split; [intros lines; by apply display_lines_zero|].
  split.
  { unfold format_metrics_display, display_lines, dict_get, getitem.
    rewrite !display_line_blank by assumption.
    rewrite !(lookup_insert_ne metrics key); [reflexivity|..];
      intros ->; revert Hkey; unfold numeric_keys; rewrite !elem_of_cons, elem_of_nil;
      intuition discriminate. }
  split.
  { apply calculate_ext; by apply blank_zero_field_steps. }
  intros additional derived (a1 & a2 & E1 & E2 & E3)%calculate_steps Hd.
  assert (Hempty : (∅ : gmap string pyval) !! derived = None) by apply lookup_empty.
  unfold numeric_keys in Hkey. rewrite !elem_of_cons, elem_of_nil in Hkey.
  destruct Hkey as [-> | [-> | [-> | [-> | [-> | []]]]]];
    cbn in Hd; rewrite ?elem_of_cons, elem_of_nil in Hd;
    repeat match goal with
           | H : peg_step metrics _ = _ |- _ =>
               rewrite peg_step_skip in H
                 by (rewrite Hfalsy; by repeat destruct (truthy _));
               injection H as <-
           | H : coverage_step metrics _ = _ |- _ =>
               rewrite coverage_step_skip in H
                 by (rewrite Hfalsy; by repeat destruct (truthy _));
               injection H as <-
           | H : pb_step metrics _ = _ |- _ =>
               rewrite pb_step_skip in H
                 by (rewrite Hfalsy; by repeat destruct (truthy _));
               injection H as <-
           end;
    intuition subst;
    repeat first
      [ assumption
      | erewrite pb_step_frame by (done || eassumption)
      | erewrite coverage_step_frame by (done || eassumption)
      | erewrite peg_step_frame by (done || eassumption) ].
Qed.

(** ** Growth table *)

Example growth_spec_example :
  _extract_from_growth_table benchmark_first_table "AAPL" = Ok (Some (42 # 5)).
Proof. reflexivity. Qed.

Example growth_na_keeps_scanning :
  _extract_from_growth_table na_cell_table "AAPL" = Ok (Some (42 # 5)).
Proof. reflexivity. Qed.

Lemma unavailable_iff text :
  unavailable text = true <->
  text = "" \/ upper text = "N/A" \/ upper text = "NA" \/ upper text = "--".
Proof.
  unfold unavailable, str_in. simpl existsb.
  rewrite !orb_true_iff, !String.eqb_eq.
  destruct text; simpl; intuition discriminate.
Qed.

(** The row loop returns the normalized cell of the first deciding row, and
    absent when no row decides. *)
Lemma scan_rows_first_deciding idx symbol rows :
  scan_rows idx symbol rows =
  match first_deciding idx symbol rows with
  | Some text => _clean_percentage_value text
  | None => Ok None
  end.
Proof.
  unfold first_deciding.
  induction rows as [|row rest IH]; [reflexivity|].
  cbn [scan_rows omap list_omap]. unfold deciding_cell at 1. fold (cells_of row).
  destruct (idx <? length (cells_of row))%nat eqn:Hlen.
  - apply Nat.ltb_lt in Hlen.
    destruct (lookup_lt_is_Some_2 (cells_of row) idx Hlen) as [ci Hci].
    destruct (lookup_lt_is_Some_2 (cells_of row) 0 ltac:(lia)) as [c0 Hc0].
    rewrite Hc0, Hci.
    destruct (is_company_row symbol (upper (get_text true c0))); cbn [andb]; [|exact IH].
    destruct (unavailable (get_text true ci)); cbn [negb]; [exact IH | reflexivity].
  - apply Nat.ltb_ge in Hlen.
    rewrite (lookup_ge_None_2 (cells_of row) idx Hlen).
    destruct (cells_of row !! 0%nat); exact IH.
Qed.

Lemma first_deciding_Some idx symbol rows text :
  first_deciding idx symbol rows = Some text ->
  exists row, row ∈ rows /\ deciding_cell idx symbol row = Some text.
Proof.
  unfold first_deciding. intros H.
  assert (Hin : text ∈ omap (deciding_cell idx symbol) rows).
  { destruct (omap (deciding_cell idx symbol) rows) as [|t l]; [discriminate|].
    injection H as ->. apply list_elem_of_here. }
  apply list_elem_of_omap in Hin as (row & Hrow & Hd). eauto.
Qed.

Lemma is_company_row_cases symbol first :
  is_company_row symbol first = true ->
  first = upper symbol
  \/ ((String.length first <= 6)%nat /\ isalpha first = true
      /\ contains "S&P" first = false /\ contains "500" first = false
      /\ contains "SECTOR" first = false /\ contains "INDUSTRY" first = false).
Proof.
  unfold is_company_row.
  rewrite orb_true_iff, !andb_true_iff, !negb_true_iff, String.eqb_eq, Nat.leb_le.
  tauto.
Qed.

Lemma sp500_is_no_company_row symbol :
  upper symbol <> "S&P 500" -> is_company_row symbol "S&P 500" = false.
Proof.
  intros H. unfold is_company_row.
  apply String.eqb_neq in H. rewrite String.eqb_sym, H. reflexivity.
Qed.

(** Wherever it stands, a row whose first cell reads S&P 500 does not change
    the result of the scan for another symbol. *)
Lemma sp500_row_is_skipped idx symbol before row after c0 :
  upper symbol <> "S&P 500" ->
  cells_of row !! 0%nat = Some c0 ->
  upper (get_text true c0) = "S&P 500" ->
  scan_rows idx symbol (before ++ row :: after) = scan_rows idx symbol (before ++ after).
Proof.
  intros Hs Hc0 Ht. rewrite !scan_rows_first_deciding. unfold first_deciding.
  rewrite !omap_app. cbn [omap list_omap].
  unfold deciding_cell at 2. rewrite Hc0, Ht, (sp500_is_no_company_row _ Hs).
  now destruct (cells_of row !! idx).
Qed.

Lemma growth_table_Some table symbol v :
  _extract_from_growth_table table symbol = Ok (Some v) ->
  exists idx, scan_rows idx symbol (find_all (named ["tr"]) table) = Ok (Some v).
Proof.
  unfold _extract_from_growth_table, try_except_all.
  destruct (match find (named ["thead"]) table with
            | Some h => Some h
            | None => find (named ["tr"]) table
            end) as [header_row|]; [|discriminate].
  destruct (find_column 0 _) as [idx|]; [|discriminate].
  destruct (scan_rows idx symbol _) as [r|e] eqn:E; [|discriminate].
  intros [= ->]. eauto.
Qed.

(** C5 (as amended).  Whatever the growth-table extractor returns was read
    from a row of the table whose first cell, upper-cased, equals the target
    symbol, or is at most 6 characters long, alphabetic only, and contains
    none of S&P, 500, SECTOR and INDUSTRY.  That row's first cell is never
    S&P 500, unless the target symbol itself upper-cases to S&P 500. *)
Theorem growth_row_selection (table : node) (symbol : string) (v : Q) :
  _extract_from_growth_table table symbol = Ok (Some v) ->
  exists row idx c0 ci,
    row ∈ find_all (named ["tr"]) table
    /\ cells_of row !! 0%nat = Some c0
    /\ cells_of row !! idx = Some ci
    /\ (upper (get_text true c0) = upper symbol
        \/ ((String.length (upper (get_text true c0)) <= 6)%nat
            /\ isalpha (upper (get_text true c0)) = true
            /\ contains "S&P" (upper (get_text true c0)) = false
            /\ contains "500" (upper (get_text true c0)) = false
            /\ contains "SECTOR" (upper (get_text true c0)) = false
            /\ contains "INDUSTRY" (upper (get_text true c0)) = false))
    /\ _clean_percentage_value (get_text true ci) = Ok (Some v)
    /\ (upper symbol <> "S&P 500" -> upper (get_text true c0) <> "S&P 500").
Proof.
  intros (idx & Hscan)%growth_table_Some.
  rewrite scan_rows_first_deciding in Hscan.
  destruct (first_deciding idx symbol _) as [text|] eqn:Hfd; [|discriminate].
  apply first_deciding_Some in Hfd as (row & Hrow & Hd).
  unfold deciding_cell in Hd.
  destruct (cells_of row !! 0%nat) as [c0|] eqn:Hc0; [|discriminate].
  destruct (cells_of row !! idx) as [ci|] eqn:Hci; [|discriminate].
  destruct (is_company_row symbol (upper (get_text true c0))) eqn:Hco; [|discriminate].
  destruct (unavailable (get_text true ci)); [discriminate|].
  injection Hd as <-.
  exists row, idx, c0, ci. split_and!; auto.
  - by apply is_company_row_cases.
  - intros Hs Heq. rewrite Heq, (sp500_is_no_company_row _ Hs) in Hco. discriminate.
Qed.

(** C5, counterexample.  For the target symbol "S&P 500" the row whose first
    cell is S&P 500 is the one selected: the extractor returns its 5.0 and not
    the 8.4 of the row that follows. *)
Lemma sp500_row_selected_for_its_own_symbol :
  is_company_row "S&P 500" "S&P 500" = true
  /\ _extract_from_growth_table benchmark_first_table "S&P 500" = Ok (Some 5%Q)
  /\ _extract_from_growth_table benchmark_first_table "s&p 500" = Ok (Some 5%Q).
Proof. repeat split; reflexivity. Qed.

(** C6 (as amended).  The row loop of the growth-table extractor returns the
    normalized percentage (possibly absent) of the first row that has the
    target column, passes the company test and whose target cell is not one
    of the tokens N/A, NA, -- (in any letter case) or empty; rows whose target
    cell is one of these tokens are passed over and the scan goes on; the
    result is absent when no row is left.  NULL is not one of the tokens. *)
Theorem growth_scan_passes_over_unavailable (idx : nat) (symbol : string) (rows : list node) :
  scan_rows idx symbol rows
    = match first_deciding idx symbol rows with
      | Some text => _clean_percentage_value text
      | None => Ok None
      end
  /\ (forall text,
        unavailable text = true <->
        text = "" \/ upper text = "N/A" \/ upper text = "NA" \/ upper text = "--")
  /\ unavailable "NULL" = false.
Proof.
  split; [apply scan_rows_first_deciding|].
  split; [apply unavailable_iff | reflexivity].
Qed.

(** C6, counterexample.  NULL is a sentinel of the normalizer, but in the
    target cell of the company row it ends the scan: the extractor returns
    absent although the next row passes the company test and holds 8.4. *)
Lemma null_cell_ends_the_scan :
  is_sentinel "NULL" = true
  /\ _extract_from_growth_table null_cell_table "AAPL" = Ok None
  /\ scan_rows 4 "AAPL" [table_row_of "td" ["MSFT"; "1.0"; "1.1"; "7.0"; "8.4"]]
     = Ok (Some (42 # 5)).
Proof. repeat split; reflexivity. Qed.

(** ** Documents *)

Lemma node_ind' (P : node -> Prop) :
  (forall s, P (NavigableString s)) ->
  (forall name attrs cls cs, Forall P cs -> P (Tag name attrs cls cs)) ->
  forall n, P n.
Proof.
  intros Hs Ht. fix IH 1. intros [s|name attrs cls cs]; [apply Hs|].
  apply Ht. induction cs as [|c cs IHcs]; constructor; [apply IH | exact IHcs].
Qed.

(** The second component of a pair listed by [descendants_with_parent] is a
    tag that has the first component among its children. *)
Lemma descendants_parent n c p :
  (c, p) ∈ descendants_with_parent n ->
  exists name attrs cls cs, p = Tag name attrs cls cs /\ c ∈ cs.
Proof.
  revert c p. induction n as [s|name attrs cls cs IH] using node_ind'; intros c p.
  - cbn. intros H. by apply elem_of_nil in H.
  - assert (Hgen : forall l, Forall (fun n => forall c p,
                     (c, p) ∈ descendants_with_parent n ->
                     exists name attrs cls cs, p = Tag name attrs cls cs /\ c ∈ cs) l ->
              forall self',
              (c, p) ∈ (fix go (l : list node) : list (node * node) :=
                         match l with
                         | [] => []
                         | c :: l' => ((c, self') :: descendants_with_parent c ++ go l')%list
                         end) l ->
              (p = self' /\ c ∈ l)
              \/ exists name attrs cls cs, p = Tag name attrs cls cs /\ c ∈ cs).
    { induction l as [|x l IHl]; intros Hl self'.
      - intros H. by apply elem_of_nil in H.
      - apply Forall_cons in Hl as [Hx Hl].
        rewrite elem_of_cons, elem_of_app.
        intros [[= -> ->] | [H | H]].
        + left. split; [reflexivity | apply list_elem_of_here].
        + right. by apply Hx.
        + destruct (IHl Hl self' H) as [[-> Hc] | Hr]; [|by right].
          left. split; [reflexivity | by apply list_elem_of_further]. }
    intros H. destruct (Hgen cs IH (Tag name attrs cls cs) H) as [[-> Hc] | Hr]; eauto 6.
Qed.

(** ** Current price *)

Lemma first_hit_Some {A} (l : list A) f p :
  first_hit l f = Ok (Some p) -> exists x, x ∈ l /\ f x = Ok (Some p).
Proof.
  induction l as [|x l IH]; cbn [first_hit]; [discriminate|].
  destruct (f x) as [[q|]|e] eqn:Hx; cbn [mbind outcome_bind].
  - intros [= ->]. exists x. split; [apply list_elem_of_here | exact Hx].
  - intros (y & Hy & Hfy)%IH. exists y. split; [by apply list_elem_of_further | exact Hfy].
  - discriminate.
Qed.

Lemma first_hit_never_raises {A} (l : list A) f :
  (forall x, exists r, f x = Ok r) -> exists r, first_hit l f = Ok r.
Proof.
  intros Hf. induction l as [|x l IH]; cbn [first_hit]; [eauto|].
  destruct (Hf x) as [[q|] ->]; cbn [mbind outcome_bind]; eauto.
Qed.

Lemma price_above_spec lo price :
  price_above lo price = true <->
  exists p, price = Some p /\ ~ (p == 0)%Q /\ (lo < p)%Q.
Proof.
  unfold price_above. destruct price as [p|].
  - rewrite andb_true_iff, !negb_true_iff, q_is_zero_false.
    assert (Qle_bool p lo = false <-> (lo < p)%Q).
    { rewrite <- not_true_iff_false, Qle_bool_iff. split; [apply Qnot_le_lt | apply Qlt_not_le]. }
    split.
    + intros [Hz Hl]. exists p. tauto.
    + intros (q & [= <-] & Hz & Hl). tauto.
  - split; [discriminate | intros (p & [=] & _)].
Qed.

Lemma parent_mentions_price_spec parent :
  parent_mentions_price parent = true ->
  exists keyword,
    keyword ∈ price_keywords /\ contains keyword (lower (parent_attrs parent)) = true.
Proof.
  unfold parent_mentions_price. rewrite andb_true_iff, existsb_exists.
  intros (_ & keyword & Hin & Hc). exists keyword.
  split; [by apply list_elem_of_In | exact Hc].
Qed.

(** An element handled by the global fallback yields a price exactly when its
    normalized text is above 1 and its parent mentions a price keyword. *)
Lemma fallback_element_Some element parent p :
  fallback_element (element, parent) = Ok (Some p) <->
  _clean_numeric_value (get_text true element) = Ok (Some p)
  /\ price_above 1 (Some p) = true
  /\ parent_mentions_price parent = true.
Proof.
  unfold fallback_element.
  destruct (clean_numeric_never_raises (get_text true element)) as [price ->].
  cbn [mbind outcome_bind].
  destruct (price_above 1 price) eqn:Ha; [destruct (parent_mentions_price parent) eqn:Hp|].
  - split.
    + intros [= ->]. auto.
    + intros ([= ->] & _). reflexivity.
  - split; [discriminate | intros (_ & _ & [=])].
  - split; [discriminate|]. intros ([= ->] & Hb & _). congruence.
Qed.

Lemma fallback_candidates_spec soup element parent :
  (element, parent) ∈ fallback_candidates soup ->
  (element, parent) ∈ descendants_with_parent soup
  /\ named ["span"; "div"] element = true
  /\ string_matches matches_price_re element = true.
Proof.
  unfold fallback_candidates, find_all_with_parent.
  rewrite list_elem_of_In, filter_In, <- list_elem_of_In. cbn [fst].
  rewrite !andb_true_iff. tauto.
Qed.

(** C8.  When the global price fallback (strategy 5) yields a price, it comes
    from a [span] or [div] whose string matches the strict pattern, the
    normalized value is greater than 1, and the identifying attributes of the
    element's parent (its [data-testid] and its classes) contain one of the
    keywords price, quote and market in any letter case.  An element yields a
    price in this strategy only under these two conditions. *)
Theorem fallback_price_guard (soup : node) (p : Q) :
  price_method5 soup = Ok (Some p) ->
  exists element parent,
    (element, parent) ∈ descendants_with_parent soup
    /\ (exists name attrs cls cs, parent = Tag name attrs cls cs /\ element ∈ cs)
    /\ named ["span"; "div"] element = true
    /\ string_matches matches_price_re element = true
    /\ _clean_numeric_value (get_text true element) = Ok (Some p)
    /\ (1 < p)%Q
    /\ (exists keyword,
          keyword ∈ price_keywords
          /\ contains keyword (lower (parent_attrs parent)) = true)
    /\ (forall e' parent' p',
          fallback_element (e', parent') = Ok (Some p') ->
          (1 < p')%Q /\ parent_mentions_price parent' = true).
Proof.
  unfold price_method5.
  intros ([element parent] & Hin & Hel)%first_hit_Some.
  apply fallback_candidates_spec in Hin as (Hd & Hn & Hs).
  apply fallback_element_Some in Hel as (Hc & Ha & Hp).
  apply price_above_spec in Ha as (q & [= <-] & _ & Hlt).
  exists element, parent. split_and!; auto.
  - by eapply descendants_parent.
  - by apply parent_mentions_price_spec.
  - intros e' parent' p' (_ & Ha' & Hp')%fallback_element_Some.
    apply price_above_spec in Ha' as (q' & [= <-] & _ & Hlt'). auto.
Qed.

Example fallback_page_price : price_method5 fallback_page = Ok (Some (10059 # 50)).
Proof. reflexivity. Qed.

(** ** Regular expressions *)

Lemma str_forall_app p x y :
  str_forall p (x +:+ y) = str_forall p x && str_forall p y.
Proof.
  induction x as [|c x IH]; [reflexivity|].
  rewrite app_cons. cbn [str_forall]. now rewrite IH, andb_assoc.
Qed.

Lemma str_filter_app p x y :
  str_filter p (x +:+ y) = str_filter p x +:+ str_filter p y.
Proof.
  induction x as [|c x IH]; [reflexivity|].
  rewrite app_cons. cbn [str_filter]. destruct (p c); now rewrite ?app_cons, IH.
Qed.

Lemma str_filter_all p q s :
  str_forall p s = true -> (forall c, p c = true -> q c = true) -> str_filter q s = s.
Proof.
  intros Hs Hpq. induction s as [|c s IH]; [reflexivity|].
  cbn [str_forall] in Hs. apply andb_true_iff in Hs as [Hc Hs].
  cbn [str_filter]. now rewrite (Hpq c Hc), IH.
Qed.

Lemma str_filter_none p q s :
  str_forall p s = true -> (forall c, p c = true -> q c = false) -> str_filter q s = "".
Proof.
  intros Hs Hpq. induction s as [|c s IH]; [reflexivity|].
  cbn [str_forall] in Hs. apply andb_true_iff in Hs as [Hc Hs].
  cbn [str_filter]. now rewrite (Hpq c Hc), IH.
Qed.

Lemma take_drop k s : str_take k s +:+ str_drop k s = s.
Proof.
  revert s. induction k as [|k IH]; intros [|c s]; try reflexivity.
  cbn [str_take str_drop]. now rewrite app_cons, IH.
Qed.

Lemma length_take k s : (k <= String.length s)%nat -> String.length (str_take k s) = k.
Proof.
  revert s. induction k as [|k IH]; intros [|c s]; cbn; intros H; try lia.
  rewrite IH; lia.
Qed.

Lemma span_le_length p limit s : (span p limit s <= String.length s)%nat.
Proof.
  revert limit. induction s as [|c s IH]; intros [[|m]|]; cbn; try lia;
    destruct (p c); try lia; apply le_n_S, IH.
Qed.

Lemma span_le_limit p m s : (span p (Some m) s <= m)%nat.
Proof.
  revert m. induction s as [|c s IH]; intros [|m]; cbn; try lia.
  destruct (p c); [apply le_n_S, IH | lia].
Qed.

Lemma take_span_forall p limit k s :
  (k <= span p limit s)%nat -> str_forall p (str_take k s) = true.
Proof.
  revert limit s. induction k as [|k IH]; intros limit s; [reflexivity|].
  destruct s as [|c s]; [reflexivity|].
  destruct limit as [[|m]|]; cbn [span]; try lia;
    destruct (p c) eqn:Hc; try lia; intros Hk;
    cbn [str_take str_forall]; rewrite Hc; cbn [andb]; eapply IH; apply le_S_n, Hk.
Qed.

Lemma backtrack_Some {A} lo n (attempt : nat -> option A) r :
  backtrack lo n attempt = Some r ->
  exists k, (lo <= k <= n)%nat /\ attempt k = Some r.
Proof.
  induction n as [|n IH]; cbn [backtrack].
  - destruct (0 <? lo)%nat eqn:Hlo; [discriminate|]. apply Nat.ltb_ge in Hlo.
    destruct (attempt 0%nat) eqn:Ha; [|discriminate].
    intros [= ->]. exists 0%nat. split; [lia | exact Ha].
  - destruct (S n <? lo)%nat eqn:Hlo; [discriminate|]. apply Nat.ltb_ge in Hlo.
    destruct (attempt (S n)) eqn:Ha.
    + intros [= ->]. exists (S n). split; [lia | exact Ha].
    + intros (k & Hk & Hr)%IH. exists k. split; [lia | exact Hr].
Qed.

(** A match splits the subject into the texts of the atoms and the rest, and
    every text fits its atom. *)
Lemma match_here_sound pat dollar s ts rest :
  match_here pat dollar s = Some (ts, rest) ->
  Forall2 fits pat ts /\ s = concat_str ts +:+ rest.
Proof.
  revert s ts rest. induction pat as [|a pat IH]; intros s ts rest; cbn [match_here].
  - assert (Some ([] : list string, s) = Some (ts, rest) ->
            Forall2 fits [] ts /\ s = concat_str ts +:+ rest).
    { intros [= <- <-]. split; [constructor | reflexivity]. }
    destruct dollar; [destruct (is_empty s || String.eqb s _)|]; auto; discriminate.
  - intros (k & [Hlo Hhi] & Hk)%backtrack_Some.
    destruct (match_here pat dollar (str_drop k s)) as [[ts' rest']|] eqn:Hm; [|discriminate].
    injection Hk as <- <-.
    destruct (IH _ _ _ Hm) as [Hfit Hs].
    split.
    + constructor; [|exact Hfit].
      assert (Hlen : String.length (str_take k s) = k).
      { apply length_take. etransitivity; [exact Hhi | apply span_le_length]. }
      unfold fits. rewrite Hlen. split_and!.
      * by eapply take_span_forall.
      * exact Hlo.
      * destruct (a_max a) as [m|] eqn:Hmax; [|exact I].
        etransitivity; [exact Hhi | apply span_le_limit].
    + cbn [concat_str fold_right]. fold (concat_str ts').
      rewrite app_assoc_str, <- Hs. symmetry. apply take_drop.
Qed.

Lemma re_search_sound pat s ts :
  re_search pat s = Some ts -> Forall2 fits pat ts.
Proof.
  induction s as [|c s IH]; cbn [re_search];
    destruct (match_here pat false _) as [[ts' rest]|] eqn:Hm.
  - intros [= <-]. by eapply match_here_sound.
  - discriminate.
  - intros [= <-]. by eapply match_here_sound.
  - exact IH.
Qed.

(** ** Unsigned numbers *)

Local Ltac by_char c :=
  destruct c as [[] [] [] [] [] [] [] []]; try discriminate; try reflexivity.

Lemma split_sign_digit c s : is_digit c = true -> split_sign (String c s) = (false, String c s).
Proof. unfold split_sign. by_char c. Qed.

Lemma split_point_dot s : split_point (String "." s) = span_digits s.
Proof. reflexivity. Qed.

Lemma sentinel_digit c s : is_digit c = true -> is_sentinel (String c s) = false.
Proof. by_char c. Qed.

Lemma degenerate_digit c s : is_digit c = true -> degenerate (String c s) = false.
Proof. by_char c. Qed.

Lemma digit_is_numeric c : is_digit c = true -> numeric_char c = true.
Proof. unfold numeric_char. now intros ->. Qed.

Lemma span_digits_all s : str_forall is_digit s = true -> span_digits s = (s, "").
Proof.
  induction s as [|c s IH]; [reflexivity|].
  cbn [str_forall span_digits]. intros [Hc Hs]%andb_true_iff.
  now rewrite Hc, (IH Hs).
Qed.

Lemma span_digits_stop d c rest :
  str_forall is_digit d = true -> is_digit c = false ->
  span_digits (d +:+ String c rest) = (d, String c rest).
Proof.
  intros Hd Hc. induction d as [|x d IH].
  - change ("" +:+ String c rest) with (String c rest).
    cbn [span_digits]. now rewrite Hc.
  - cbn [str_forall] in Hd. apply andb_true_iff in Hd as [Hx Hd].
    rewrite app_cons. cbn [span_digits]. now rewrite Hx, (IH Hd).
Qed.

Lemma fits_point g t :
  fits (Atom (lit ".") 0 (Some 1%nat) g) t -> t = "" \/ t = ".".
Proof.
  unfold fits. cbn [a_class a_min a_max]. intros (Hc & _ & Hl).
  destruct t as [|c [|c' t]]; cbn [String.length] in Hl; [auto | | lia].
  cbn [str_forall] in Hc. rewrite andb_true_r in Hc.
  unfold lit in Hc. apply Ascii.eqb_eq in Hc as <-. auto.
Qed.

Lemma fits_percent g t :
  fits (Atom (lit "%") 0 (Some 1%nat) g) t -> str_forall (lit "%") t = true.
Proof. now intros (Hc & _). Qed.

Lemma fits_digits g lo t :
  fits (Atom is_digit lo None g) t ->
  str_forall is_digit t = true /\ (lo <= String.length t)%nat.
Proof. intros (Hc & Hl & _). auto. Qed.

Lemma digits_value_nonneg s acc :
  0 <= acc -> str_forall is_digit s = true -> 0 <= digits_value acc s.
Proof.
  revert acc. induction s as [|c s IH]; intros acc Hacc; cbn [str_forall digits_value].
  - intros _. exact Hacc.
  - intros [Hc Hs]%andb_true_iff. apply IH; [|exact Hs].
    unfold is_digit in Hc. apply andb_true_iff in Hc as [Hlo _].
    apply N.leb_le in Hlo. lia.
Qed.

Lemma decimal_nonneg ip fp :
  str_forall is_digit ip = true -> str_forall is_digit fp = true ->
  (0 <= decimal false ip fp)%Q.
Proof.
  intros Hi Hf. unfold decimal. rewrite Qred_correct.
  unfold Qle. cbn [Qnum Qden]. rewrite Z.mul_1_r, Z.mul_0_l.
  apply digits_value_nonneg; [lia|]. now rewrite str_forall_app, Hi, Hf.
Qed.

(** The text of [\d+ \.? \d*] is accepted by [float]; its value is not
    negative. *)
Lemma py_float_unsigned t1 t2 t3 :
  str_forall is_digit t1 = true -> (1 <= String.length t1)%nat ->
  t2 = "" \/ t2 = "." ->
  str_forall is_digit t3 = true ->
  exists q, py_float (t1 +:+ t2 +:+ t3) = Ok q /\ (0 <= q)%Q.
Proof.
  intros H1 Hl H2 H3.
  destruct t1 as [|c t1]; [cbn in Hl; lia|].
  cbn [str_forall] in H1. apply andb_true_iff in H1 as [Hc H1].
  rewrite app_cons. unfold py_float. rewrite (split_sign_digit _ _ Hc).
  destruct H2 as [-> | ->].
  - change ("" +:+ t3) with t3.
    assert (Hall : str_forall is_digit (String c (t1 +:+ t3)) = true)
      by (cbn [str_forall]; rewrite Hc, str_forall_app, H1, H3; reflexivity).
    rewrite (span_digits_all _ Hall). cbn [split_point is_empty andb negb].
    eexists. split; [reflexivity | by apply decimal_nonneg].
  - rewrite <- app_cons.
    change ("." +:+ t3) with (String "." t3).
    assert (Hhead : str_forall is_digit (String c t1) = true)
      by (cbn [str_forall]; rewrite Hc, H1; reflexivity).
    rewrite span_digits_stop by (assumption || reflexivity).
    rewrite split_point_dot, (span_digits_all _ H3). cbn [is_empty andb negb].
    eexists. split; [reflexivity | by apply decimal_nonneg].
Qed.

(** The text of [\d+ \.? \d* %?] is normalized to a number that is not
    negative. *)
Lemma clean_percentage_unsigned t1 t2 t3 t4 :
  str_forall is_digit t1 = true -> (1 <= String.length t1)%nat ->
  t2 = "" \/ t2 = "." ->
  str_forall is_digit t3 = true ->
  str_forall (lit "%") t4 = true ->
  exists q, _clean_percentage_value (t1 +:+ t2 +:+ t3 +:+ t4) = Ok (Some q) /\ (0 <= q)%Q.
Proof.
  intros H1 Hl H2 H3 H4.
  destruct (py_float_unsigned t1 t2 t3 H1 Hl H2 H3) as (q & Hq & Hpos).
  exists q. split; [|exact Hpos].
  rewrite clean_percentage_is_clean_numeric, clean_numeric_value_eq.
  assert (Hstrip : strip_non_numeric (t1 +:+ t2 +:+ t3 +:+ t4) = t1 +:+ t2 +:+ t3).
  { unfold strip_non_numeric. rewrite !str_filter_app.
    rewrite (str_filter_all is_digit _ t1 H1 digit_is_numeric).
    rewrite (str_filter_all is_digit _ t3 H3 digit_is_numeric).
    rewrite (str_filter_none (lit "%") _ t4 H4)
      by (intros c Hc; apply Ascii.eqb_eq in Hc as <-; reflexivity).
    rewrite app_nil_r. by destruct H2 as [-> | ->]. }
  rewrite Hstrip.
  destruct t1 as [|c t1]; [cbn in Hl; lia|].
  cbn [str_forall] in H1. apply andb_true_iff in H1 as [Hc H1].
  rewrite !app_cons, (sentinel_digit _ _ Hc), (degenerate_digit _ _ Hc).
  unfold parsed. rewrite <- !app_cons. now rewrite Hq.
Qed.

(** ** Dividend sub-routine *)

(** C7.  When the dividend text contains the pattern
    [<number> (<number>%?)], the dividend sub-routine sets
    [forward_dividend_rate] to the number of the first capture and
    [forward_dividend_yield] to the second capture normalized as a
    percentage; both are numbers, whatever the dictionary held before. *)
Theorem parse_dividend_info_pattern
    (dividend_text : string) (metrics : gmap string pyval) (ts : list string) :
  re_search dividend_re dividend_text = Some ts ->
  exists rate yld,
    py_float (group dividend_re ts 1) = Ok rate
    /\ _clean_percentage_value (group dividend_re ts 2) = Ok (Some yld)
    /\ _parse_dividend_info dividend_text metrics
       = (Ok tt, <["forward_dividend_yield" := PFloat yld]>
                   (<["forward_dividend_rate" := PFloat rate]> metrics)).
Proof.
  intros Hs. assert (Hfit := re_search_sound _ _ _ Hs).
  unfold dividend_re in Hfit.
  repeat match type of Hfit with
         | Forall2 _ (_ :: _) _ =>
             apply Forall2_cons_inv_l in Hfit as (? & ? & ? & Hfit & ->)
         | Forall2 _ [] _ => apply Forall2_nil_inv_l in Hfit as ->
         end.
  repeat match goal with
         | H : fits (Atom is_digit _ None _) _ |- _ => apply fits_digits in H as [? ?]
         | H : fits (Atom (lit ".") _ _ _) _ |- _ => apply fits_point in H
         | H : fits (Atom (lit "%") 0 _ _) _ |- _ => apply fits_percent in H
         end.
  match goal with
  | |- context [group dividend_re [?t1; ?t2; ?t3; _; _; ?t6; ?t7; ?t8; ?t9; _] _] =>
      assert (G1 : group dividend_re [t1; t2; t3; x2; x3; t6; t7; t8; t9; x8] 1
                   = t1 +:+ t2 +:+ t3)
        by (cbn; now rewrite app_nil_r);
      assert (G2 : group dividend_re [t1; t2; t3; x2; x3; t6; t7; t8; t9; x8] 2
                   = t6 +:+ t7 +:+ t8 +:+ t9)
        by (cbn; now rewrite app_nil_r);
      destruct (py_float_unsigned t1 t2 t3) as (rate & Hrate & _); try assumption;
      destruct (clean_percentage_unsigned t6 t7 t8 t9) as (yld & Hyld & _); try assumption
  end.
  exists rate, yld. rewrite G1, G2. split_and!; try assumption.
  unfold _parse_dividend_info, try_all. rewrite Hs, G1, G2.
  unfold mbind, M_bind, lift, setitem. now rewrite Hrate, Hyld.
Qed.

Example dividend_spec_example :
  _parse_dividend_info "0.96 (1.45%)" ∅
  = (Ok tt, <["forward_dividend_yield" := PFloat (29 # 20)]>
              (<["forward_dividend_rate" := PFloat (24 # 25)]> ∅)).
Proof. reflexivity. Qed.

(** ** Computations that leave a key alone *)

Lemma preserves_ret {A} key (a : A) : preserves key (mret a : M A).
Proof. intros d. reflexivity. Qed.

Lemma preserves_lift {A} key (o : outcome A) : preserves key (lift o).
Proof. intros d. reflexivity. Qed.

Lemma preserves_getm key k : preserves key (getm k).
Proof. intros d. reflexivity. Qed.

Lemma preserves_setitem key k v : k <> key -> preserves key (setitem k v).
Proof. intros Hne d. cbn. by rewrite lookup_insert_ne. Qed.

Lemma preserves_bind {A B} key (m : M A) (k : A -> M B) :
  preserves key m -> (forall a, preserves key (k a)) -> preserves key (m ≫= k).
Proof.
  intros Hm Hk d. unfold mbind, M_bind. specialize (Hm d).
  destruct (m d) as [[a|e] d']; cbn in Hm |- *; [|exact Hm].
  rewrite <- Hm. apply Hk.
Qed.

Lemma preserves_try_all {A} key (body : M A) handler :
  preserves key body -> (forall e, preserves key (handler e)) ->
  preserves key (try_all body handler).
Proof.
  intros Hb Hh d. unfold try_all. specialize (Hb d).
  destruct (body d) as [[a|e] d']; cbn in Hb |- *; [exact Hb|].
  rewrite <- Hb. apply Hh.
Qed.

Lemma preserves_for_each {A} key (l : list A) body :
  (forall x, preserves key (body x)) -> preserves key (for_each l body).
Proof.
  intros Hb. induction l as [|x l IH]; cbn [for_each].
  - apply preserves_ret.
  - apply preserves_bind; [apply Hb | intros _; exact IH].
Qed.

Local Ltac preserving :=
  repeat first
    [ apply preserves_ret
    | apply preserves_lift
    | apply preserves_getm
    | apply preserves_setitem; discriminate
    | apply preserves_try_all; [|intros ?]
    | apply preserves_for_each; intros ?
    | apply preserves_bind; [|intros ?]
    | match goal with
      | |- preserves _ (match ?x with _ => _ end) => destruct x
      | |- preserves _ (let '(_, _) := ?x in _) => destruct x
      end ].

Lemma parse_dividend_info_preserves key text :
  key <> "forward_dividend_rate" -> key <> "forward_dividend_yield" ->
  preserves key (_parse_dividend_info text).
Proof.
  intros H1 H2. unfold _parse_dividend_info.
  assert (forall v, preserves key (setitem "forward_dividend_rate" v))
    by (intros; by apply preserves_setitem).
  assert (forall v, preserves key (setitem "forward_dividend_yield" v))
    by (intros; by apply preserves_setitem).
  preserving; auto.
Qed.

Lemma extract_by_testid_preserves_price soup :
  preserves "current_price" (_extract_by_testid soup).
Proof.
  unfold _extract_by_testid. apply preserves_for_each. intros [test_id metric_key].
  unfold testid_step. destruct (find _ soup); [|apply preserves_ret].
  destruct (negb _ && _); [|apply preserves_ret].
  destruct (String.eqb_spec metric_key "forward_dividend_yield").
  - by apply parse_dividend_info_preserves.
  - destruct (String.eqb_spec metric_key "pe_ratio_ttm") as [->|]; preserving.
Qed.

Lemma extract_from_quote_stats_preserves_price soup :
  preserves "current_price" (_extract_from_quote_stats soup).
Proof.
  unfold _extract_from_quote_stats, quote_stat_item.
  preserving; by apply parse_dividend_info_preserves.
Qed.

Lemma extract_from_tables_preserves_price soup :
  preserves "current_price" (_extract_from_tables soup).
Proof.
  unfold _extract_from_tables, table_row.
  preserving; by apply parse_dividend_info_preserves.
Qed.

(** ** Priority of the locators *)

Lemma price_strategies_first_hit soup :
  price_strategies soup = first_hit price_methods (fun m => m soup).
Proof.
  unfold price_strategies, price_methods, or_else. cbn [first_hit].
  destruct (price_method1 soup) as [[|]|]; cbn [mbind outcome_bind]; try reflexivity.
  destruct (price_method2 soup) as [[|]|]; cbn [mbind outcome_bind]; try reflexivity.
  destruct (price_method3 soup) as [[|]|]; cbn [mbind outcome_bind]; try reflexivity.
  destruct (price_method4 soup) as [[|]|]; cbn [mbind outcome_bind]; try reflexivity.
  destruct (price_method5 soup) as [[|]|]; reflexivity.
Qed.

Lemma first_hit_first {A} (before : list A) x after f p :
  Forall (fun y => f y = Ok None) before ->
  f x = Ok (Some p) ->
  first_hit (before ++ x :: after) f = Ok (Some p).
Proof.
  intros Hb Hx. induction Hb as [|y before Hy Hb IH]; cbn [app first_hit].
  - now rewrite Hx.
  - now rewrite Hy.
Qed.

Lemma extract_current_price_sets soup d p :
  price_strategies soup = Ok (Some p) ->
  _extract_current_price soup d = (Ok tt, <["current_price" := PFloat p]> d).
Proof.
  intros H. unfold _extract_current_price, try_all, mbind, M_bind, lift. now rewrite H.
Qed.

(** Without the combined pattern in the text, the dividend sub-routine leaves
    a rate and a yield that are already set and not zero as they are. *)
Lemma parse_dividend_fallback_keeps text d :
  re_search dividend_re text = None ->
  (truthy (dict_get d "forward_dividend_rate") = true ->
   exec (_parse_dividend_info text) d !! "forward_dividend_rate"
   = d !! "forward_dividend_rate")
  /\ (truthy (dict_get d "forward_dividend_yield") = true ->
      exec (_parse_dividend_info text) d !! "forward_dividend_yield"
      = d !! "forward_dividend_yield").
Proof.
  intros Hnone.
  unfold exec, _parse_dividend_info, try_all. rewrite Hnone.
  unfold mbind, M_bind, getm, lift, setitem, mret, M_ret.
  split; intros Ht.
  - rewrite Ht. cbn [negb].
    destruct (head (re_findall number_re text)); cbn [fst snd];
      destruct (head (re_findall percent_re text)) as [pc|]; try reflexivity;
      destruct (truthy (dict_get d "forward_dividend_yield")); cbn [negb]; try reflexivity;
      destruct (_clean_percentage_value pc); cbn [fst snd]; try reflexivity;
      by rewrite lookup_insert_ne.
  - destruct (head (re_findall number_re text)) as [n|].
    + destruct (truthy (dict_get d "forward_dividend_rate")); cbn [negb].
      * rewrite Ht. cbn [negb]. by destruct (head (re_findall percent_re text)).
      * destruct (py_float n) as [rate|e]; cbn [fst snd]; [|reflexivity].
        assert (Hy : dict_get (<["forward_dividend_rate" := PFloat rate]> d)
                       "forward_dividend_yield"
                     = dict_get d "forward_dividend_yield")
          by (unfold dict_get; by rewrite lookup_insert_ne).
        rewrite Hy, Ht. cbn [negb].
        destruct (head (re_findall percent_re text)); cbn [fst snd];
          by rewrite lookup_insert_ne.
    + rewrite Ht. cbn [negb]. by destruct (head (re_findall percent_re text)).
Qed.

(** C1 (as amended).  The strategies for the current price are tried in their
    fixed order and the first that yields a value decides [current_price]; the
    locators that run afterwards (field identifiers, quote statistics, tables)
    never change [current_price].  In the dividend sub-routine, when the text
    does not contain the combined pattern, a [forward_dividend_rate] and a
    [forward_dividend_yield] that are already set and not zero are left
    unchanged. *)
Theorem locator_priority (soup : node) (metrics : gmap string pyval) :
  (forall before strategy after p,
      price_methods = (before ++ strategy :: after)%list ->
      Forall (fun earlier => earlier soup = Ok None) before ->
      strategy soup = Ok (Some p) ->
      _extract_current_price soup metrics
      = (Ok tt, <["current_price" := PFloat p]> metrics))
  /\ exec (_extract_by_testid soup) metrics !! "current_price"
     = metrics !! "current_price"
  /\ exec (_extract_from_quote_stats soup) metrics !! "current_price"
     = metrics !! "current_price"
  /\ exec (_extract_from_tables soup) metrics !! "current_price"
     = metrics !! "current_price"
  /\ (forall text,
        re_search dividend_re text = None ->
        (truthy (dict_get metrics "forward_dividend_rate") = true ->
         exec (_parse_dividend_info text) metrics !! "forward_dividend_rate"
         = metrics !! "forward_dividend_rate")
        /\ (truthy (dict_get metrics "forward_dividend_yield") = true ->
            exec (_parse_dividend_info text) metrics !! "forward_dividend_yield"
            = metrics !! "forward_dividend_yield")).
Proof.
  split_and!.
  - intros before strategy after p Hsplit Hbefore Hp.
    apply extract_current_price_sets.
    rewrite price_strategies_first_hit, Hsplit.
    by apply (first_hit_first before strategy after (fun m => m soup)).
  - exact (extract_by_testid_preserves_price soup metrics).
  - exact (extract_from_quote_stats_preserves_price soup metrics).
  - exact (extract_from_tables_preserves_price soup metrics).
  - intros text. apply parse_dividend_fallback_keeps.
Qed.

(** C1, counterexample.  On a page where the identifier locator finds the P/E
    ratio 15.0 and a quote-statistics item reads "PE Ratio (TTM) 99.5", the
    lower-priority quote-statistics locator, run afterwards, replaces the
    populated [pe_ratio_ttm] by 99.5.  In the same way the table locator
    replaces a dividend rate and yield populated by the identifier locator. *)
Lemma quote_stats_replace_populated_pe_ratio :
  exec (_extract_by_testid two_pe_page) ∅ !! "pe_ratio_ttm" = Some (PFloat 15)
  /\ exec (_extract_from_quote_stats two_pe_page)
          (exec (_extract_by_testid two_pe_page) ∅) !! "pe_ratio_ttm"
     = Some (PFloat (199 # 2))
  /\ (exists metrics,
       get_key_metrics (sample_fetch (Response 200 two_pe_page) not_found)
         (fun s => s) "AAPL" = Ok metrics
       /\ metrics !! "pe_ratio_ttm" = Some (PFloat (199 # 2)))
  /\ exec (_extract_by_testid two_dividend_page) ∅ !! "forward_dividend_rate"
     = Some (PFloat (24 # 25))
  /\ exec (_extract_by_testid two_dividend_page) ∅ !! "forward_dividend_yield"
     = Some (PFloat (29 # 20))
  /\ exec (_extract_from_tables two_dividend_page)
          (exec (_extract_by_testid two_dividend_page) ∅) !! "forward_dividend_rate"
     = Some (PFloat 1)
  /\ exec (_extract_from_tables two_dividend_page)
          (exec (_extract_by_testid two_dividend_page) ∅) !! "forward_dividend_yield"
     = Some (PFloat 2).
Proof. split_and!; try reflexivity. eexists. split; reflexivity. Qed.

Example primary_price_first :
  _extract_current_price primary_price_page ∅
  = (Ok tt, <["current_price" := PFloat (10059 # 50)]> ∅).
Proof. reflexivity. Qed.

(** ** Sign of a P/E ratio read from the quote statistics *)

Lemma findall_from_sound pat skip s m :
  m ∈ findall_from pat skip s ->
  exists ts, Forall2 fits pat ts /\ m = concat_str ts.
Proof.
  revert skip. induction s as [|c s IH]; intros skip; cbn [findall_from].
  - intros H. by apply elem_of_nil in H.
  - destruct skip as [|k]; [|apply IH].
    destruct (match_here pat false (String c s)) as [[ts rest]|] eqn:Hm; [|apply IH].
    rewrite elem_of_cons. intros [-> | H]; [|by eapply IH].
    exists ts. split; [by eapply match_here_sound | reflexivity].
Qed.

(** Every token of the pattern [\d+ \.? \d*] normalizes to a number that is
    not negative: the pattern has no sign. *)
Lemma number_token_unsigned text n :
  n ∈ re_findall number_re text ->
  exists q, _clean_numeric_value n = Ok (Some q) /\ (0 <= q)%Q.
Proof.
  intros (ts & Hfit & ->)%findall_from_sound.
  unfold number_re in Hfit.
  repeat match type of Hfit with
         | Forall2 _ (_ :: _) _ =>
             apply Forall2_cons_inv_l in Hfit as (? & ? & ? & Hfit & ->)
         | Forall2 _ [] _ => apply Forall2_nil_inv_l in Hfit as ->
         end.
  repeat match goal with
         | H : fits (Atom is_digit _ None _) _ |- _ => apply fits_digits in H as [? ?]
         | H : fits (Atom (lit ".") _ _ _) _ |- _ => apply fits_point in H
         end.
  cbn [concat_str fold_right].
  rewrite <- clean_percentage_is_clean_numeric.
  by apply clean_percentage_unsigned.
Qed.

(** In a quote-statistics item that mentions the trailing P/E ratio, the
    value stored is the normalized last numeric token of the item's text; it
    is never negative. *)
Lemma quote_stat_item_last_token item d n :
  mentions_trailing_pe (lower (get_text true item)) = true ->
  last (re_findall number_re (get_text false item)) = Some n ->
  exists q,
    _clean_numeric_value n = Ok (Some q) /\ (0 <= q)%Q
    /\ quote_stat_item item d = (Ok tt, <["pe_ratio_ttm" := PFloat q]> d).
Proof.
  unfold mentions_trailing_pe. intros [Hpe Httm]%andb_true_iff Hlast.
  assert (Hin : n ∈ re_findall number_re (get_text false item)).
  { apply last_Some in Hlast as [l' ->]. apply elem_of_app. right. apply list_elem_of_here. }
  destruct (number_token_unsigned _ _ Hin) as (q & Hq & Hpos).
  exists q. split_and!; try assumption.
  unfold quote_stat_item, try_all. rewrite Hpe, Httm, Hlast.
  unfold mbind, M_bind, lift, setitem. now rewrite Hq.
Qed.

(** C4.  On the quote-statistics item "PE Ratio (TTM) -12.5" the last numeric
    token is "12.5": the locator stores 12.5 and the minus sign is lost, while
    the identifier and table locators, which normalize the whole value text,
    keep it. *)
Theorem quote_stats_pe_loses_minus_sign :
  mentions_trailing_pe (lower (get_text true negative_pe_item)) = true
  /\ re_findall number_re (get_text false negative_pe_item) = ["12.5"]
  /\ exec (quote_stat_item negative_pe_item) ∅ !! "pe_ratio_ttm" = Some (PFloat (25 # 2))
  /\ exec (_extract_from_quote_stats negative_pe_page) ∅ !! "pe_ratio_ttm"
     = Some (PFloat (25 # 2))
  /\ _clean_numeric_value "-12.5" = Ok (Some (-25 # 2))
  /\ exec (table_row negative_pe_row) ∅ !! "pe_ratio_ttm" = Some (PFloat (-25 # 2)).
Proof. repeat split; reflexivity. Qed.

Example quote_stats_last_token :
  exec (quote_stat_item (Tag "li" ∅ None [NavigableString "1 PE Ratio (TTM) 28.5"])) ∅
    !! "pe_ratio_ttm" = Some (PFloat (57 # 2)).
Proof. reflexivity. Qed.

(** ** The two phases *)

Section PipelineFacts.

Variable session_get : string -> outcome response.
Variable quote : string -> string.

Lemma finish_try_all (body : M (option (gmap string pyval))) key prefix d :
  exists r,
    finish (try_all body
              (fun e => setitem key (PStr (prefix +:+ exn_str e)) ;; mret None) d) = Ok r.
Proof.
  unfold try_all. destruct (body d) as [[[early|]|e] d']; cbn; eauto.
Qed.

Lemma summary_metrics_returns symbol :
  exists summary, _get_summary_metrics session_get quote symbol = Ok summary.
Proof. apply finish_try_all. Qed.

Lemma growth_estimates_returns symbol :
  exists growth, _get_growth_estimates session_get quote symbol = Ok growth.
Proof. apply finish_try_all. Qed.

Lemma get_key_metrics_merges symbol summary growth :
  _get_summary_metrics session_get quote symbol = Ok summary ->
  _get_growth_estimates session_get quote symbol = Ok growth ->
  get_key_metrics session_get quote symbol
  = Ok (growth ∪ (summary ∪ initial_metrics symbol)).
Proof.
  intros Hs Hg. unfold get_key_metrics, try_all, mbind at 1 2 3, M_bind, lift, update.
  now rewrite Hs, Hg.
Qed.

Lemma summary_non_200 symbol r :
  session_get (summary_url quote symbol) = Ok r -> status_code r <> 200 ->
  _get_summary_metrics session_get quote symbol
  = Ok (failed_fetch "summary" (status_code r)).
Proof.
  intros Hr Hs. unfold _get_summary_metrics, try_all, mbind, M_bind, lift.
  rewrite Hr. apply Z.eqb_neq in Hs. now rewrite Hs.
Qed.

Lemma analysis_non_200 symbol r :
  session_get (analysis_url quote symbol) = Ok r -> status_code r <> 200 ->
  _get_growth_estimates session_get quote symbol
  = Ok (failed_fetch "analysis" (status_code r)).
Proof.
  intros Hr Hs. unfold _get_growth_estimates, try_all, mbind, M_bind, lift.
  rewrite Hr. apply Z.eqb_neq in Hs. now rewrite Hs.
Qed.

End PipelineFacts.

Section PhaseResults.

Variable session_get : string -> outcome response.
Variable quote : string -> string.

Lemma later_locators_preserve_price soup :
  preserves "current_price"
    (_extract_by_testid soup ;; _extract_from_quote_stats soup ;;
     _extract_from_tables soup ;; (mret None : M (option (gmap string pyval)))).
Proof.
  apply preserves_bind; [apply extract_by_testid_preserves_price | intros _].
  apply preserves_bind; [apply extract_from_quote_stats_preserves_price | intros _].
  apply preserves_bind; [apply extract_from_tables_preserves_price | intros _].
  apply preserves_ret.
Qed.

(** A summary page that answers 200 populates the price its strategies find. *)
Lemma summary_200_price symbol r p :
  session_get (summary_url quote symbol) = Ok r -> status_code r = 200 ->
  price_strategies (soup_of r) = Ok (Some p) ->
  exists summary,
    _get_summary_metrics session_get quote symbol = Ok summary
    /\ summary !! "current_price" = Some (PFloat p).
Proof.
  intros Hr Hs Hp. unfold _get_summary_metrics, try_all.
  unfold mbind at 1, M_bind at 1, lift. rewrite Hr, Hs. cbn [Z.eqb Pos.eqb negb].
  unfold mbind at 1, M_bind at 1. rewrite (extract_current_price_sets _ _ _ Hp).
  cbn beta iota.
  pose proof (later_locators_preserve_price (soup_of r)
                (<["current_price" := PFloat p]> ∅)) as Hkeep.
  rewrite lookup_insert_eq in Hkeep.
  match type of Hkeep with
  | (?x).2 !! _ = _ => destruct x as [[[early|]|e] d'] eqn:E
  end; cbn [snd] in Hkeep; cbn.
  - (* no early return on this path *)
    exfalso. revert E. unfold mbind, M_bind.
    repeat match goal with
           | |- context [match ?m ?d with _ => _ end] => destruct (m d) as [[?|?] ?]
           end; discriminate.
  - eauto.
  - eexists. split; [reflexivity|]. by rewrite lookup_insert_ne.
Qed.

(** An analysis page that answers 200 populates the growth estimate its
    tables give. *)
Lemma analysis_200_growth symbol r g :
  session_get (analysis_url quote symbol) = Ok r -> status_code r = 200 ->
  _extract_growth_estimate_table (soup_of r) symbol = Ok (Some g) ->
  _get_growth_estimates session_get quote symbol
  = Ok (<["growth_estimate_next_year" := PFloat g]> ∅).
Proof.
  intros Hr Hs Hg. unfold _get_growth_estimates, try_all, mbind, M_bind, lift.
  now rewrite Hr, Hs, Hg.
Qed.

Lemma failed_fetch_lookup what status key :
  failed_fetch what status !! key
  = if String.eqb key "error"
    then Some (PStr ("Failed to retrieve " +:+ what +:+ " data: Status code " +:+ pretty status))
    else None.
Proof.
  unfold failed_fetch. destruct (String.eqb_spec key "error") as [->|Hne].
  - apply lookup_singleton_eq.
  - by apply lookup_singleton_ne.
Qed.

Lemma initial_metrics_numeric symbol key :
  key ∈ numeric_keys -> initial_metrics symbol !! key = Some PNone.
Proof.
  unfold numeric_keys. rewrite !elem_of_cons, elem_of_nil.
  intros [-> | [-> | [-> | [-> | [-> | []]]]]]; reflexivity.
Qed.

End PhaseResults.

(** C2.  Both phases of [get_key_metrics] always return and their results are
    merged into the record, so the call returns (it does not raise).  When
    the quote-page fetch and the analysis-page fetch both answer with a status
    other than 200, the five numeric fields of the record are [None] and
    [error] is a string that is not empty.  A status other than 200 in one
    phase does not keep the other phase from running: the growth estimate
    found on the analysis page, respectively the price found on the quote
    page, is in the record. *)
Theorem fetch_failures_are_data
    (session_get : string -> outcome response) (quote : string -> string)
    (symbol : string) :
  exists summary growth metrics,
    _get_summary_metrics session_get quote symbol = Ok summary
    /\ _get_growth_estimates session_get quote symbol = Ok growth
    /\ get_key_metrics session_get quote symbol = Ok metrics
    /\ metrics = growth ∪ (summary ∪ initial_metrics symbol)
    /\ (forall r1 r2,
          session_get (summary_url quote symbol) = Ok r1 -> status_code r1 <> 200 ->
          session_get (analysis_url quote symbol) = Ok r2 -> status_code r2 <> 200 ->
          Forall (fun key => metrics !! key = Some PNone) numeric_keys
          /\ exists message, metrics !! "error" = Some (PStr message) /\ message <> "")
    /\ (forall r1 r2 g,
          session_get (summary_url quote symbol) = Ok r1 -> status_code r1 <> 200 ->
          session_get (analysis_url quote symbol) = Ok r2 -> status_code r2 = 200 ->
          _extract_growth_estimate_table (soup_of r2) symbol = Ok (Some g) ->
          metrics !! "growth_estimate_next_year" = Some (PFloat g))
    /\ (forall r1 r2 p,
          session_get (summary_url quote symbol) = Ok r1 -> status_code r1 = 200 ->
          price_strategies (soup_of r1) = Ok (Some p) ->
          session_get (analysis_url quote symbol) = Ok r2 -> status_code r2 <> 200 ->
          metrics !! "current_price" = Some (PFloat p)).
Proof.
  destruct (summary_metrics_returns session_get quote symbol) as [summary Hsum].
  destruct (growth_estimates_returns session_get quote symbol) as [growth Hgro].
  exists summary, growth, (growth ∪ (summary ∪ initial_metrics symbol)).
  split_and!; auto using get_key_metrics_merges.
  - intros r1 r2 H1 S1 H2 S2.
    rewrite (summary_non_200 _ _ _ _ H1 S1) in Hsum. injection Hsum as <-.
    rewrite (analysis_non_200 _ _ _ _ H2 S2) in Hgro. injection Hgro as <-.
    split.
    + apply Forall_forall. intros key Hkey.
      assert (Hne : String.eqb key "error" = false).
      { apply String.eqb_neq. intros ->. revert Hkey. unfold numeric_keys.
        rewrite !elem_of_cons, elem_of_nil. intuition discriminate. }
      rewrite !lookup_union, !failed_fetch_lookup, Hne.
      by rewrite (initial_metrics_numeric _ _ Hkey).
    + eexists. split.
      * rewrite lookup_union, failed_fetch_lookup. cbn [String.eqb Ascii.eqb Bool.eqb].
        reflexivity.
      * discriminate.
  - intros r1 r2 g H1 S1 H2 S2 Hg.
    rewrite (summary_non_200 _ _ _ _ H1 S1) in Hsum. injection Hsum as <-.
    rewrite (analysis_200_growth _ _ _ _ _ H2 S2 Hg) in Hgro. injection Hgro as <-.
    rewrite lookup_union, lookup_insert_eq. reflexivity.
  - intros r1 r2 p H1 S1 Hp H2 S2.
    destruct (summary_200_price _ _ _ _ _ H1 S1 Hp) as (summary' & Hsum' & Hprice).
    rewrite Hsum' in Hsum. injection Hsum as <-.
    rewrite (analysis_non_200 _ _ _ _ H2 S2) in Hgro. injection Hgro as <-.
    rewrite !lookup_union, failed_fetch_lookup, Hprice. reflexivity.
Qed.

(** ** Instances *)


(** C10 on the sample record with a dividend yield of zero. *)
Lemma zero_metric_reads_as_absent_witness :
  "forward_dividend_yield" ∈ numeric_keys
  /\ zero_field zero_yield_metrics "forward_dividend_yield"
  /\ display_line sample_format zero_yield_metrics
       "forward_dividend_yield" "Forward Dividend Yield" "" "%"
     = Ok "Forward Dividend Yield: N/A"
  /\ format_metrics_display sample_format sample_format
       (<["forward_dividend_yield" := PNone]> zero_yield_metrics)
     = format_metrics_display sample_format sample_format zero_yield_metrics
  /\ calculate_additional_metrics (<["forward_dividend_yield" := PNone]> zero_yield_metrics)
     = calculate_additional_metrics zero_yield_metrics.
Proof.
  assert (Hkey : "forward_dividend_yield" ∈ numeric_keys).
  { unfold numeric_keys. rewrite !elem_of_cons. auto. }
  assert (Hzero : zero_field zero_yield_metrics "forward_dividend_yield").
  { exists 0%Q. split; reflexivity. }
  destruct (zero_metric_reads_as_absent sample_format sample_format
              zero_yield_metrics "forward_dividend_yield" Hkey Hzero)
    as (Hline & _ & Hdisplay & Hcalc & _).
  split_and!; try assumption. apply Hline.
Defined.

(** C5 on the table whose benchmark row comes first, for the symbol AAPL. *)
Lemma growth_row_selection_witness :
  _extract_from_growth_table benchmark_first_table "AAPL" = Ok (Some (42 # 5))
  /\ exists row c0,
       row ∈ find_all (named ["tr"]) benchmark_first_table
       /\ cells_of row !! 0%nat = Some c0
       /\ upper (get_text true c0) <> "S&P 500".
Proof.
  assert (H : _extract_from_growth_table benchmark_first_table "AAPL" = Ok (Some (42 # 5)))
    by reflexivity.
  split; [exact H|].
  destruct (growth_row_selection benchmark_first_table "AAPL" (42 # 5) H)
    as (row & idx & c0 & ci & Hrow & Hc0 & _ & _ & _ & Hsp).
  exists row, c0. split_and!; try assumption.
  apply Hsp. discriminate.
Defined.

(** C7 on the dividend text of the specification. *)
Lemma parse_dividend_info_pattern_witness :
  re_search dividend_re "0.96 (1.45%)"
  = Some ["0"; "."; "96"; " "; "("; "1"; "."; "45"; "%"; ")"]
  /\ exists rate yld,
       py_float "0.96" = Ok rate
       /\ _clean_percentage_value "1.45%" = Ok (Some yld)
       /\ _parse_dividend_info "0.96 (1.45%)" ∅
          = (Ok tt, <["forward_dividend_yield" := PFloat yld]>
                      (<["forward_dividend_rate" := PFloat rate]> ∅)).
Proof.
  assert (H : re_search dividend_re "0.96 (1.45%)"
              = Some ["0"; "."; "96"; " "; "("; "1"; "."; "45"; "%"; ")"])
    by reflexivity.
  split; [exact H|].
  exact (parse_dividend_info_pattern "0.96 (1.45%)" ∅ _ H).
Defined.

(** C8 on the sample quote page. *)
Lemma fallback_price_guard_witness :
  price_method5 fallback_page = Ok (Some (10059 # 50))
  /\ exists element parent,
       (element, parent) ∈ descendants_with_parent fallback_page
       /\ _clean_numeric_value (get_text true element) = Ok (Some (10059 # 50))
       /\ (1 < 10059 # 50)%Q
       /\ exists keyword,
            keyword ∈ price_keywords
            /\ contains keyword (lower (parent_attrs parent)) = true.
Proof.
  assert (H : price_method5 fallback_page = Ok (Some (10059 # 50))) by reflexivity.
  split; [exact H|].
  destruct (fallback_price_guard fallback_page (10059 # 50) H)
    as (element & parent & Hin & _ & _ & _ & Hclean & Hlt & Hkw & _).
  exists element, parent. auto.
Defined.

(** ** Worked examples *)

Example both_fetches_fail :
  exists metrics,
    get_key_metrics (sample_fetch not_found not_found) (fun s => s) "aapl" = Ok metrics
    /\ Forall (fun key => metrics !! key = Some PNone) numeric_keys
    /\ metrics !! "symbol" = Some (PStr "AAPL")
    /\ metrics !! "error"
       = Some (PStr "Failed to retrieve analysis data: Status code 404").
Proof. eexists. split; [reflexivity|]. repeat constructor. Qed.

Example summary_fails_analysis_runs :
  exists metrics,
    get_key_metrics (sample_fetch not_found (Response 200 analysis_page)) (fun s => s) "AAPL"
    = Ok metrics
    /\ metrics !! "growth_estimate_next_year" = Some (PFloat (42 # 5))
    /\ metrics !! "error"
       = Some (PStr "Failed to retrieve summary data: Status code 404").
Proof. eexists. split; [reflexivity|]. split; reflexivity. Qed.

Example analysis_fails_summary_runs :
  exists metrics,
    get_key_metrics (sample_fetch (Response 200 primary_price_page) not_found)
      (fun s => s) "AAPL"
    = Ok metrics
    /\ metrics !! "current_price" = Some (PFloat (10059 # 50))
    /\ metrics !! "growth_estimate_next_year" = Some PNone.
Proof. eexists. split; [reflexivity|]. split; reflexivity. Qed.

Example transport_error_is_data :
  exists metrics,
    get_key_metrics (fun _ => Raise (Exn RequestException "timed out")) (fun s => s) "AAPL"
    = Ok metrics
    /\ metrics !! "error" = Some (PStr "Error in growth estimates: timed out").
Proof. eexists. split; reflexivity. Qed.

Example zero_yield_display :
  display_lines sample_format sample_format zero_yield_metrics
  = Ok ["Symbol: AAPL"; "Current Price: $#.##"; "PE Ratio (TTM): #.##";
        "Forward Dividend Rate: $#.##"; "Forward Dividend Yield: N/A";
        "Growth Estimate Next Year: #.##%"].
Proof. reflexivity. Qed.

Example sample_secondary_metrics :
  exists additional,
    calculate_additional_metrics sample_metrics = Ok additional
    /\ additional !! "peg_ratio" = Some (PFloat (20 / 10))
    /\ additional !! "estimated_eps" = Some (PFloat (100 / 20))
    /\ additional !! "dividend_coverage_ratio" = Some (PFloat (100 / 20 / 2))
    /\ additional !! "estimated_pb_ratio" = Some (PFloat (20 * (10 / 100))).
Proof. eexists. split; [reflexivity|]. repeat split. Qed.

(** * Further properties of the extractor *)

(** ** Computations: what they write and whether they raise *)

Lemma writes_only_mono {A} (P Q : string -> pyval -> Prop) (m : M A) :
  (forall key v, P key v -> Q key v) -> writes_only P m -> writes_only Q m.
Proof.
  intros HPQ Hm d key. destruct (Hm d key) as [H | (v & H & Hv)]; [by left|].
  right. exists v. auto.
Qed.

Lemma writes_only_ret {A} P (a : A) : writes_only P (mret a : M A).
Proof. intros d key. by left. Qed.

Lemma writes_only_lift {A} P (o : outcome A) : writes_only P (lift o).
Proof. intros d key. by left. Qed.

Lemma writes_only_getm P k : writes_only P (getm k).
Proof. intros d key. by left. Qed.

Lemma writes_only_setitem (P : string -> pyval -> Prop) k v :
  P k v -> writes_only P (setitem k v).
Proof.
  intros Hv d key. cbn. destruct (decide (k = key)) as [<-|Hne].
  - right. exists v. by rewrite lookup_insert_eq.
  - left. by rewrite lookup_insert_ne.
Qed.

Lemma writes_only_step (P : string -> pyval -> Prop) (d d1 d2 : gmap string pyval) key :
  (d1 !! key = d !! key \/ exists v, d1 !! key = Some v /\ P key v) ->
  (d2 !! key = d1 !! key \/ exists v, d2 !! key = Some v /\ P key v) ->
  d2 !! key = d !! key \/ exists v, d2 !! key = Some v /\ P key v.
Proof. intros H1 [H2 | H2]; [rewrite H2; exact H1 | by right]. Qed.

Lemma writes_only_bind {A B} P (m : M A) (k : A -> M B) :
  writes_only P m -> (forall a, writes_only P (k a)) -> writes_only P (m ≫= k).
Proof.
  intros Hm Hk d key. unfold mbind, M_bind. specialize (Hm d key).
  destruct (m d) as [[a|e] d1]; cbn [snd] in Hm |- *; [|exact Hm].
  eapply writes_only_step; [exact Hm | apply Hk].
Qed.

(** Binding the outcome of a pure call: the continuation runs on its value
    only. *)
Lemma writes_only_bind_lift {A B} P (o : outcome A) (k : A -> M B) :
  (forall a, o = Ok a -> writes_only P (k a)) -> writes_only P (lift o ≫= k).
Proof.
  intros Hk d key. unfold mbind, M_bind, lift.
  destruct o as [a|e]; [by apply Hk | by left].
Qed.

Lemma writes_only_try_all {A} P (body : M A) handler :
  writes_only P body -> (forall e, writes_only P (handler e)) ->
  writes_only P (try_all body handler).
Proof.
  intros Hb Hh d key. unfold try_all. specialize (Hb d key).
  destruct (body d) as [[a|e] d1]; cbn [snd] in Hb |- *; [exact Hb|].
  eapply writes_only_step; [exact Hb | apply Hh].
Qed.

Lemma writes_only_for_each {A} P (l : list A) body :
  (forall x, writes_only P (body x)) -> writes_only P (for_each l body).
Proof.
  intros Hb. induction l as [|x l IH]; cbn [for_each].
  - apply writes_only_ret.
  - apply writes_only_bind; [apply Hb | intros _; exact IH].
Qed.

Lemma never_raises_ret {A} (a : A) : never_raises (mret a : M A).
Proof. intros d. by exists a, d. Qed.

Lemma never_raises_setitem k v : never_raises (setitem k v).
Proof. intros d. by eexists _, _. Qed.

Lemma never_raises_getm k : never_raises (getm k).
Proof. intros d. by eexists _, _. Qed.

Lemma never_raises_bind {A B} (m : M A) (k : A -> M B) :
  never_raises m -> (forall a, never_raises (k a)) -> never_raises (m ≫= k).
Proof.
  intros Hm Hk d. unfold mbind, M_bind. destruct (Hm d) as (a & d1 & ->). apply Hk.
Qed.

Lemma never_raises_bind_lift {A B} (o : outcome A) (k : A -> M B) :
  (exists a, o = Ok a) -> (forall a, never_raises (k a)) -> never_raises (lift o ≫= k).
Proof.
  intros [a ->] Hk d. unfold mbind, M_bind, lift. apply Hk.
Qed.

Lemma never_raises_try_all {A} (body : M A) handler :
  (forall e, never_raises (handler e)) -> never_raises (try_all body handler).
Proof.
  intros Hh d. unfold try_all. destruct (body d) as [[a|e] d1]; [by eexists _, _ | apply Hh].
Qed.

Lemma never_raises_for_each {A} (l : list A) body :
  (forall x, never_raises (body x)) -> never_raises (for_each l body).
Proof.
  intros Hb. induction l as [|x l IH]; cbn [for_each].
  - apply never_raises_ret.
  - apply never_raises_bind; [apply Hb | intros _; exact IH].
Qed.

(** ** Tokens and captures of the number patterns *)

Lemma concat_three t1 t2 t3 : concat_str [t1; t2; t3] = t1 +:+ t2 +:+ t3.
Proof. cbn [concat_str fold_right]. now rewrite app_nil_r. Qed.

Lemma head_elem {A} (l : list A) x : head l = Some x -> x ∈ l.
Proof. destruct l; [discriminate|]. intros [= ->]. apply list_elem_of_here. Qed.

(** [float] accepts every token of [\d+ \.? \d*]. *)
Lemma number_token_float text n :
  n ∈ re_findall number_re text -> exists q, py_float n = Ok q /\ (0 <= q)%Q.
Proof.
  intros (ts & Hfit & ->)%findall_from_sound.
  unfold number_re in Hfit.
  repeat match type of Hfit with
         | Forall2 _ (_ :: _) _ =>
             apply Forall2_cons_inv_l in Hfit as (? & ? & ? & Hfit & ->)
         | Forall2 _ [] _ => apply Forall2_nil_inv_l in Hfit as ->
         end.
  repeat match goal with
         | H : fits (Atom is_digit _ None _) _ |- _ => apply fits_digits in H as [? ?]
         | H : fits (Atom (lit ".") _ _ _) _ |- _ => apply fits_point in H
         end.
  rewrite concat_three. by apply py_float_unsigned.
Qed.

(** Every token of [\d+ \.? \d* %] normalizes to a number. *)
Lemma percent_token_unsigned text p :
  p ∈ re_findall percent_re text ->
  exists q, _clean_percentage_value p = Ok (Some q) /\ (0 <= q)%Q.
Proof.
  intros (ts & Hfit & ->)%findall_from_sound.
  unfold percent_re in Hfit.
  repeat match type of Hfit with
         | Forall2 _ (_ :: _) _ =>
             apply Forall2_cons_inv_l in Hfit as (? & ? & ? & Hfit & ->)
         | Forall2 _ [] _ => apply Forall2_nil_inv_l in Hfit as ->
         end.
  repeat match goal with
         | H : fits (Atom is_digit _ None _) _ |- _ => apply fits_digits in H as [? ?]
         | H : fits (Atom (lit ".") _ _ _) _ |- _ => apply fits_point in H
         | H : fits (Atom (lit "%") _ _ _) _ |- _ => destruct H as (H & _)
         end.
  cbn [concat_str fold_right a_class] in *. rewrite app_nil_r.
  by apply clean_percentage_unsigned.
Qed.

(** Both captures of the combined dividend pattern are numbers. *)
Lemma dividend_captures text ts :
  re_search dividend_re text = Some ts ->
  exists rate yld,
    py_float (group dividend_re ts 1) = Ok rate /\ (0 <= rate)%Q
    /\ _clean_percentage_value (group dividend_re ts 2) = Ok (Some yld) /\ (0 <= yld)%Q.
Proof.
  intros Hfit%re_search_sound. unfold dividend_re in Hfit.
  repeat match type of Hfit with
         | Forall2 _ (_ :: _) _ =>
             apply Forall2_cons_inv_l in Hfit as (? & ? & ? & Hfit & ->)
         | Forall2 _ [] _ => apply Forall2_nil_inv_l in Hfit as ->
         end.
  repeat match goal with
         | H : fits (Atom is_digit _ None _) _ |- _ => apply fits_digits in H as [? ?]
         | H : fits (Atom (lit ".") _ _ _) _ |- _ => apply fits_point in H
         | H : fits (Atom (lit "%") 0 _ _) _ |- _ => apply fits_percent in H
         end.
  match goal with
  | |- context [group _ [?t1; ?t2; ?t3; ?a; ?b; ?t6; ?t7; ?t8; ?t9; ?c] 1] =>
      change (group dividend_re [t1; t2; t3; a; b; t6; t7; t8; t9; c] 1)
        with (t1 +:+ t2 +:+ t3 +:+ "");
      change (group dividend_re [t1; t2; t3; a; b; t6; t7; t8; t9; c] 2)
        with (t6 +:+ t7 +:+ t8 +:+ t9 +:+ "");
      rewrite !app_nil_r;
      destruct (py_float_unsigned t1 t2 t3) as (rate & Hrate & Hr0); try assumption;
      destruct (clean_percentage_unsigned t6 t7 t8 t9) as (yld & Hyld & Hy0); try assumption
  end.
  exists rate, yld. auto.
Qed.

(** ** The dividend sub-routine: footprint *)

Lemma parse_dividend_info_writes text :
  writes_only dividend_value (_parse_dividend_info text).
Proof.
  unfold _parse_dividend_info.
  apply writes_only_try_all; [|intros; apply writes_only_ret].
  destruct (re_search dividend_re text) as [ts|] eqn:Hs.
  - destruct (dividend_captures _ _ Hs) as (rate & yld & Hrate & Hr0 & Hyld & Hy0).
    apply writes_only_bind_lift. intros r Hr. rewrite Hrate in Hr. injection Hr as <-.
    apply writes_only_bind.
    { apply writes_only_setitem. split; [auto | eauto]. }
    intros _. apply writes_only_bind_lift. intros y Hy. rewrite Hyld in Hy.
    injection Hy as <-. apply writes_only_setitem. split; [auto | cbn; eauto].
  - apply writes_only_bind; [apply writes_only_getm | intros rate_now].
    apply writes_only_bind.
    { destruct (head (re_findall number_re text)) as [n|] eqn:Hn; [|apply writes_only_ret].
      destruct (negb (truthy rate_now)); [|apply writes_only_ret].
      destruct (number_token_float _ _ (head_elem _ _ Hn)) as (q & Hq & Hq0).
      apply writes_only_bind_lift. intros r Hr. rewrite Hq in Hr. injection Hr as <-.
      apply writes_only_setitem. split; [auto | eauto]. }
    intros _. apply writes_only_bind; [apply writes_only_getm | intros yield_now].
    destruct (head (re_findall percent_re text)) as [p|] eqn:Hp; [|apply writes_only_ret].
    destruct (negb (truthy yield_now)); [|apply writes_only_ret].
    destruct (percent_token_unsigned _ _ (head_elem _ _ Hp)) as (q & Hq & Hq0).
    apply writes_only_bind_lift. intros y Hy. rewrite Hq in Hy. injection Hy as <-.
    apply writes_only_setitem. split; [auto | cbn; eauto].
Qed.

Lemma parse_dividend_info_never_raises text : never_raises (_parse_dividend_info text).
Proof.
  unfold _parse_dividend_info. apply never_raises_try_all.
  intros _. apply never_raises_ret.
Qed.

(** X1.  The dividend sub-routine returns on every text and every dictionary.
    It changes no key other than [forward_dividend_rate] and
    [forward_dividend_yield], and a value it writes under one of them is a
    number that is not negative. *)
Theorem parse_dividend_info_footprint (dividend_text : string) (metrics : gmap string pyval) :
  exists metrics',
    _parse_dividend_info dividend_text metrics = (Ok tt, metrics')
    /\ forall key,
         metrics' !! key = metrics !! key
         \/ ((key = "forward_dividend_rate" \/ key = "forward_dividend_yield")
             /\ exists q, metrics' !! key = Some (PFloat q) /\ (0 <= q)%Q).
Proof.
  destruct (parse_dividend_info_never_raises dividend_text metrics) as ([] & metrics' & Hrun).
  exists metrics'. split; [exact Hrun|].
  intros key. destruct (parse_dividend_info_writes dividend_text metrics key)
    as [H | (v & H & Hk & q & -> & Hq)]; rewrite Hrun in H; cbn [snd] in H.
  - by left.
  - right. split; [exact Hk | eauto].
Qed.

(** ** The price strategies: footprint *)

Lemma accept_Some lo price p :
  accept lo price = Some p -> price = Some p /\ (lo < p)%Q.
Proof.
  unfold accept. destruct (price_above lo price) eqn:Ha; [|discriminate].
  intros ->. apply price_above_spec in Ha as (q & [= <-] & _ & Hlt). auto.
Qed.

Lemma normalized_accept_returns lo value :
  exists r, (price ← _clean_numeric_value value; Ok (accept lo price)) = Ok r.
Proof.
  destruct (clean_numeric_never_raises value) as [price ->].
  cbn [mbind outcome_bind]. eauto.
Qed.

Lemma normalized_accept_above lo value p :
  (price ← _clean_numeric_value value; Ok (accept lo price)) = Ok (Some p) -> (lo < p)%Q.
Proof.
  destruct (clean_numeric_never_raises value) as [price ->].
  cbn [mbind outcome_bind]. intros [= H]. by apply accept_Some in H as [_ H].
Qed.

Lemma strict_price_returns text : exists r, strict_price text = Ok r.
Proof.
  unfold strict_price. destruct (matches_price_re text); [|eauto].
  apply normalized_accept_returns.
Qed.

Lemma strict_price_above text p : strict_price text = Ok (Some p) -> (1 < p)%Q.
Proof.
  unfold strict_price. destruct (matches_price_re text); [|discriminate].
  apply normalized_accept_above.
Qed.

Lemma fallback_element_returns ep : exists r, fallback_element ep = Ok r.
Proof.
  destruct ep as [element parent]. unfold fallback_element.
  destruct (clean_numeric_never_raises (get_text true element)) as [price ->].
  cbn [mbind outcome_bind].
  destruct (price_above 1 price); [destruct (parent_mentions_price parent)|]; eauto.
Qed.

Lemma price_method_returns m soup : m ∈ price_methods -> exists r, m soup = Ok r.
Proof.
  unfold price_methods. rewrite !elem_of_cons, elem_of_nil.
  intros [-> | [-> | [-> | [-> | [-> | []]]]]].
  - unfold price_method1. destruct (find _ soup); [|eauto]. apply normalized_accept_returns.
  - unfold price_method2. apply first_hit_never_raises. intros element.
    destruct (negb _); [|eauto]. apply normalized_accept_returns.
  - unfold price_method3. destruct (find _ soup); [|eauto].
    apply first_hit_never_raises. intros span. apply strict_price_returns.
  - unfold price_method4.
    destruct (match find _ soup with Some h => Some h | None => _ end); [|eauto].
    apply first_hit_never_raises. intros span. apply strict_price_returns.
  - unfold price_method5. apply first_hit_never_raises. apply fallback_element_returns.
Qed.

(** What each strategy demands of the price it assigns: above 0 for the two
    attribute strategies, above 1 for the three pattern strategies. *)
Lemma price_method_above m soup p :
  m ∈ price_methods -> m soup = Ok (Some p) ->
  (0 < p)%Q /\ (m <> price_method1 -> m <> price_method2 -> (1 < p)%Q).
Proof.
  unfold price_methods. rewrite !elem_of_cons, elem_of_nil.
  assert (H01 : forall q : Q, (1 < q)%Q -> (0 < q)%Q).
  { intros q Hq. by apply Qlt_trans with 1%Q. }
  intros [-> | [-> | [-> | [-> | [-> | []]]]]].
  - unfold price_method1. destruct (find _ soup); [|discriminate].
    intros H%normalized_accept_above. split; [exact H | congruence].
  - unfold price_method2. intros (element & _ & H)%first_hit_Some.
    destruct (negb _); [|discriminate]. apply normalized_accept_above in H.
    split; [exact H | congruence].
  - unfold price_method3. destruct (find _ soup); [|discriminate].
    intros (span & _ & H%strict_price_above)%first_hit_Some. auto.
  - unfold price_method4.
    destruct (match find _ soup with Some h => Some h | None => _ end); [|discriminate].
    intros (span & _ & H%strict_price_above)%first_hit_Some. auto.
  - unfold price_method5. intros ([element parent] & _ & H)%first_hit_Some.
    apply fallback_element_Some in H as (_ & (q & [= <-] & _ & Hq)%price_above_spec & _).
    auto.
Qed.

Lemma first_hit_returns {A} (l : list A) f :
  (forall x, x ∈ l -> exists r, f x = Ok r) -> exists r, first_hit l f = Ok r.
Proof.
  induction l as [|x l IH]; intros Hf; cbn [first_hit]; [eauto|].
  destruct (Hf x) as [[q|] ->]; [apply list_elem_of_here | |]; cbn [mbind outcome_bind]; eauto.
  apply IH. intros y Hy. apply Hf. by apply list_elem_of_further.
Qed.

Lemma price_strategies_returns soup : exists r, price_strategies soup = Ok r.
Proof.
  rewrite price_strategies_first_hit. apply first_hit_returns.
  intros m Hm. by apply price_method_returns.
Qed.

Lemma price_strategies_positive soup p :
  price_strategies soup = Ok (Some p) -> (0 < p)%Q.
Proof.
  rewrite price_strategies_first_hit.
  intros (m & Hm & H)%first_hit_Some. by apply (price_method_above m soup p).
Qed.

(** X2.  The price locator returns on every page and every dictionary.  It
    either leaves the dictionary as it is or assigns [current_price] alone,
    and the price it assigns is a number above zero. *)
Theorem extract_current_price_footprint (soup : node) (metrics : gmap string pyval) :
  _extract_current_price soup metrics = (Ok tt, metrics)
  \/ exists price,
       (0 < price)%Q
       /\ _extract_current_price soup metrics
          = (Ok tt, <["current_price" := PFloat price]> metrics).
Proof.
  destruct (price_strategies_returns soup) as [[p|] H].
  - right. exists p. split; [by apply price_strategies_positive with soup|].
    by apply extract_current_price_sets.
  - left. unfold _extract_current_price, try_all, mbind, M_bind, lift. by rewrite H.
Qed.

(** ** The P/E ratio and dividend locators: footprint *)

Lemma of_opt_ratio key (v : option Q) :
  key = "pe_ratio_ttm" \/ key = "forward_dividend_rate" \/ key = "forward_dividend_yield" ->
  ratio_value key (of_opt v).
Proof. intros Hk. split; [exact Hk|]. destruct v; cbn; eauto. Qed.

Lemma dividend_is_ratio key v : dividend_value key v -> ratio_value key v.
Proof. intros ([-> | ->] & q & -> & _); (split; [auto | eauto]). Qed.

Lemma parse_dividend_info_ratio text : writes_only ratio_value (_parse_dividend_info text).
Proof.
  apply writes_only_mono with dividend_value;
    [apply dividend_is_ratio | apply parse_dividend_info_writes].
Qed.

Lemma store_normalized_writes key (o : outcome (option Q)) :
  key = "pe_ratio_ttm" \/ key = "forward_dividend_rate" \/ key = "forward_dividend_yield" ->
  writes_only ratio_value (v ← lift o; setitem key (of_opt v)).
Proof.
  intros Hk. apply writes_only_bind_lift. intros v _.
  apply writes_only_setitem. by apply of_opt_ratio.
Qed.

Lemma store_normalized_never_raises key (o : outcome (option Q)) :
  (exists r, o = Ok r) -> never_raises (v ← lift o; setitem key (of_opt v)).
Proof.
  intros Ho. apply never_raises_bind_lift; [exact Ho|].
  intros v. apply never_raises_setitem.
Qed.

Lemma testid_step_writes soup entry : writes_only ratio_value (testid_step soup entry).
Proof.
  destruct entry as [test_id metric_key]. unfold testid_step.
  destruct (find _ soup); [|apply writes_only_ret].
  destruct (negb _ && _); [|apply writes_only_ret].
  destruct (String.eqb_spec metric_key "forward_dividend_yield");
    [apply parse_dividend_info_ratio|].
  destruct (String.eqb_spec metric_key "pe_ratio_ttm") as [->|]; [|apply writes_only_ret].
  apply store_normalized_writes. auto.
Qed.

Lemma testid_step_never_raises soup entry : never_raises (testid_step soup entry).
Proof.
  destruct entry as [test_id metric_key]. unfold testid_step.
  destruct (find _ soup); [|apply never_raises_ret].
  destruct (negb _ && _); [|apply never_raises_ret].
  destruct (String.eqb metric_key "forward_dividend_yield");
    [apply parse_dividend_info_never_raises|].
  destruct (String.eqb metric_key "pe_ratio_ttm"); [|apply never_raises_ret].
  apply store_normalized_never_raises, clean_numeric_never_raises.
Qed.

Lemma quote_stat_item_writes item : writes_only ratio_value (quote_stat_item item).
Proof.
  unfold quote_stat_item. apply writes_only_try_all; [|intros; apply writes_only_ret].
  destruct (contains "pe ratio" _ || contains "p/e ratio" _).
  - destruct (contains "ttm" _ || contains "trailing" _); [|apply writes_only_ret].
    destruct (last _); [|apply writes_only_ret].
    apply store_normalized_writes. auto.
  - destruct (contains "dividend" _ && contains "yield" _); [|apply writes_only_ret].
    apply parse_dividend_info_ratio.
Qed.

Lemma table_row_writes row : writes_only ratio_value (table_row row).
Proof.
  unfold table_row.
  destruct (find_all _ row) as [|c0 [|c1 cells]]; try apply writes_only_ret.
  apply writes_only_try_all; [|intros; apply writes_only_ret].
  destruct (_ && _); [apply store_normalized_writes; auto|].
  destruct (contains "forward annual dividend rate" _); [apply store_normalized_writes; auto|].
  destruct (contains "forward annual dividend yield" _);
    [apply store_normalized_writes; auto|].
  destruct (_ && _); [apply parse_dividend_info_ratio | apply writes_only_ret].
Qed.

Lemma table_row_never_raises row : never_raises (table_row row).
Proof.
  unfold table_row.
  destruct (find_all _ row) as [|c0 [|c1 cells]]; try apply never_raises_ret.
  apply never_raises_try_all. intros _. apply never_raises_ret.
Qed.

Lemma quote_stat_item_never_raises item : never_raises (quote_stat_item item).
Proof.
  unfold quote_stat_item. apply never_raises_try_all. intros _. apply never_raises_ret.
Qed.

Lemma extract_by_testid_never_raises soup : never_raises (_extract_by_testid soup).
Proof. apply never_raises_for_each, testid_step_never_raises. Qed.

Lemma extract_from_quote_stats_never_raises soup :
  never_raises (_extract_from_quote_stats soup).
Proof.
  apply never_raises_for_each. intros section.
  apply never_raises_for_each, quote_stat_item_never_raises.
Qed.

Lemma extract_from_tables_never_raises soup : never_raises (_extract_from_tables soup).
Proof.
  apply never_raises_for_each. intros table.
  apply never_raises_for_each, table_row_never_raises.
Qed.

(** The three locators one after the other, as [_get_summary_metrics] calls
    them. *)
Lemma ratio_locators_write soup :
  writes_only ratio_value
    (_extract_by_testid soup ;; _extract_from_quote_stats soup ;; _extract_from_tables soup).
Proof.
  apply writes_only_bind; [|intros _; apply writes_only_bind; [|intros _]].
  - apply writes_only_for_each, testid_step_writes.
  - apply writes_only_for_each. intros section.
    apply writes_only_for_each, quote_stat_item_writes.
  - apply writes_only_for_each. intros table.
    apply writes_only_for_each, table_row_writes.
Qed.

Lemma ratio_locators_never_raise soup :
  never_raises
    (_extract_by_testid soup ;; _extract_from_quote_stats soup ;; _extract_from_tables soup).
Proof.
  apply never_raises_bind; [|intros _; apply never_raises_bind; [|intros _]].
  - apply extract_by_testid_never_raises.
  - apply extract_from_quote_stats_never_raises.
  - apply extract_from_tables_never_raises.
Qed.

(** X4.  The three P/E ratio and dividend locators, run one after the other
    on any page and any dictionary, return.  They change no key other than
    [pe_ratio_ttm], [forward_dividend_rate] and [forward_dividend_yield], and
    what they leave under a key they changed is a number or [None]. *)
Theorem ratio_locators_footprint (soup : node) (metrics : gmap string pyval) :
  exists metrics',
    (_extract_by_testid soup ;; _extract_from_quote_stats soup ;; _extract_from_tables soup)
      metrics = (Ok tt, metrics')
    /\ forall key,
         metrics' !! key = metrics !! key
         \/ ((key = "pe_ratio_ttm" \/ key = "forward_dividend_rate"
              \/ key = "forward_dividend_yield")
             /\ (metrics' !! key = Some PNone \/ exists q, metrics' !! key = Some (PFloat q))).
Proof.
  destruct (ratio_locators_never_raise soup metrics) as ([] & metrics' & Hrun).
  exists metrics'. split; [exact Hrun|].
  intros key. destruct (ratio_locators_write soup metrics key)
    as [H | (v & H & Hk & Hv)]; rewrite Hrun in H; cbn [snd] in H.
  - by left.
  - right. split; [exact Hk|]. destruct Hv as [-> | [q ->]]; eauto.
Qed.

(** ** The two phases: what they return *)

Lemma extract_current_price_never_raises soup : never_raises (_extract_current_price soup).
Proof.
  unfold _extract_current_price. apply never_raises_try_all.
  intros _. apply never_raises_ret.
Qed.

Lemma extract_current_price_writes soup :
  writes_only price_value (_extract_current_price soup).
Proof.
  unfold _extract_current_price.
  apply writes_only_try_all; [|intros; apply writes_only_ret].
  apply writes_only_bind_lift. intros [p|] Hp; [|apply writes_only_ret].
  apply writes_only_setitem. split; [reflexivity|].
  exists p. split; [reflexivity | by apply price_strategies_positive with soup].
Qed.

Lemma run_bind {A B} (m : M A) (k : A -> M B) d a d1 :
  m d = (Ok a, d1) -> (m ≫= k) d = k a d1.
Proof. intros H. unfold mbind, M_bind. by rewrite H. Qed.

Lemma writes_from_empty {A} P (m : M A) a d key v :
  writes_only P m -> m ∅ = (a, d) -> d !! key = Some v -> P key v.
Proof.
  intros Hm Hrun Hv. destruct (Hm ∅ key) as [H | (w & H & Hw)];
    rewrite Hrun in H; cbn [snd] in H.
  - rewrite lookup_empty in H. congruence.
  - congruence.
Qed.

Lemma growth_estimate_table_returns soup symbol :
  exists r, _extract_growth_estimate_table soup symbol = Ok r.
Proof.
  unfold _extract_growth_estimate_table, try_except_all.
  match goal with |- context [match ?b with Ok _ => _ | Raise _ => _ end] => destruct b end;
    eauto.
Qed.

Section Phases.

Variable session_get : string -> outcome response.
Variable quote : string -> string.

Lemma summary_200_run symbol r :
  session_get (summary_url quote symbol) = Ok r -> status_code r = 200 ->
  exists summary,
    _get_summary_metrics session_get quote symbol = Ok summary
    /\ forall key v, summary !! key = Some v -> price_value key v \/ ratio_value key v.
Proof.
  intros Hr Hs.
  set (body := _extract_current_price (soup_of r) ;;
               (_extract_by_testid (soup_of r) ;; _extract_from_quote_stats (soup_of r) ;;
                _extract_from_tables (soup_of r))).
  assert (Hw : writes_only (fun key v => price_value key v \/ ratio_value key v) body).
  { apply writes_only_bind; [|intros _].
    - apply writes_only_mono with price_value; [auto | apply extract_current_price_writes].
    - apply writes_only_mono with ratio_value; [auto | apply ratio_locators_write]. }
  destruct (extract_current_price_never_raises (soup_of r) ∅) as ([] & d1 & E1).
  destruct (extract_by_testid_never_raises (soup_of r) d1) as ([] & d2 & E2).
  destruct (extract_from_quote_stats_never_raises (soup_of r) d2) as ([] & d3 & E3).
  destruct (extract_from_tables_never_raises (soup_of r) d3) as ([] & summary & E4).
  assert (Hrun : body ∅ = (Ok tt, summary)).
  { unfold body.
    rewrite (run_bind _ _ _ _ _ E1), (run_bind _ _ _ _ _ E2), (run_bind _ _ _ _ _ E3).
    exact E4. }
  exists summary. split; [|intros key v; by apply (writes_from_empty _ _ _ _ _ _ Hw Hrun)].
  unfold _get_summary_metrics, try_all.
  unfold mbind at 1, M_bind at 1, lift. rewrite Hr, Hs. cbn [Z.eqb Pos.eqb negb].
  rewrite (run_bind _ _ _ _ _ E1), (run_bind _ _ _ _ _ E2), (run_bind _ _ _ _ _ E3),
    (run_bind _ _ _ _ _ E4).
  reflexivity.
Qed.

Lemma summary_failed_run symbol message :
  phase_error (session_get (summary_url quote symbol)) "summary" "summary metrics"
  = Some message ->
  _get_summary_metrics session_get quote symbol = Ok {[ "error" := PStr message ]}.
Proof.
  unfold phase_error, _get_summary_metrics, try_all, mbind, M_bind, lift.
  destruct (session_get _) as [r|e].
  - destruct (status_code r =? 200); [discriminate|]. by intros [= <-].
  - intros [= <-]. reflexivity.
Qed.

Lemma growth_200_run symbol r :
  session_get (analysis_url quote symbol) = Ok r -> status_code r = 200 ->
  exists growth,
    _get_growth_estimates session_get quote symbol = Ok growth
    /\ forall key v, growth !! key = Some v -> growth_value key v.
Proof.
  intros Hr Hs. unfold _get_growth_estimates, try_all, mbind, M_bind, lift.
  rewrite Hr, Hs. cbn [Z.eqb Pos.eqb negb].
  destruct (growth_estimate_table_returns (soup_of r) symbol) as [[g|] ->]; cbn.
  - eexists. split; [reflexivity|]. intros key v.
    rewrite lookup_insert_Some, lookup_empty. intros [[<- <-] | [_ [=]]].
    split; eauto.
  - eexists. split; [reflexivity|]. intros key v. by rewrite lookup_empty.
Qed.

Lemma growth_failed_run symbol message :
  phase_error (session_get (analysis_url quote symbol)) "analysis" "growth estimates"
  = Some message ->
  _get_growth_estimates session_get quote symbol = Ok {[ "error" := PStr message ]}.
Proof.
  unfold phase_error, _get_growth_estimates, try_all, mbind, M_bind, lift.
  destruct (session_get _) as [r|e].
  - destruct (status_code r =? 200); [discriminate|]. by intros [= <-].
  - intros [= <-]. reflexivity.
Qed.

Lemma phase_error_None fetched what label :
  phase_error fetched what label = None <-> exists r, fetched = Ok r /\ status_code r = 200.
Proof.
  unfold phase_error. destruct fetched as [r|e].
  - destruct (Z.eqb_spec (status_code r) 200); split; try discriminate; eauto.
    intros (r' & [= <-] & H). contradiction.
  - split; [discriminate | intros (r & [=] & _)].
Qed.

Lemma phase_error_nonempty fetched what label message :
  phase_error fetched what label = Some message -> message <> "".
Proof.
  unfold phase_error. destruct fetched as [r|e].
  - destruct (status_code r =? 200); [discriminate|]. intros [= <-]. discriminate.
  - intros [= <-]. rewrite app_cons. discriminate.
Qed.

(** The summary: an error report alone when the fetch failed, else what the
    locators wrote and no error. *)
Lemma summary_cases symbol :
  exists summary,
    _get_summary_metrics session_get quote symbol = Ok summary
    /\ match phase_error (session_get (summary_url quote symbol))
               "summary" "summary metrics" with
       | Some message => summary = {[ "error" := PStr message ]}
       | None => forall key v, summary !! key = Some v -> price_value key v \/ ratio_value key v
       end.
Proof.
  destruct (phase_error _ _ _) as [message|] eqn:He.
  - eexists. split; [by apply summary_failed_run | reflexivity].
  - apply phase_error_None in He as (r & Hr & Hs). by apply summary_200_run with r.
Qed.

Lemma growth_cases symbol :
  exists growth,
    _get_growth_estimates session_get quote symbol = Ok growth
    /\ match phase_error (session_get (analysis_url quote symbol))
               "analysis" "growth estimates" with
       | Some message => growth = {[ "error" := PStr message ]}
       | None => forall key v, growth !! key = Some v -> growth_value key v
       end.
Proof.
  destruct (phase_error _ _ _) as [message|] eqn:He.
  - eexists. split; [by apply growth_failed_run | reflexivity].
  - apply phase_error_None in He as (r & Hr & Hs). by apply growth_200_run with r.
Qed.

End Phases.

(** ** The record of [get_key_metrics] *)

Lemma initial_metrics_lookup symbol key v :
  initial_metrics symbol !! key = Some v ->
  (key = "symbol" /\ v = PStr (upper symbol)) \/ (key ∈ record_keys /\ key <> "symbol" /\ v = PNone).
Proof.
  unfold initial_metrics, record_keys. rewrite !lookup_insert_Some, lookup_empty.
  rewrite !elem_of_cons, elem_of_nil.
  intros [[<- <-] | [H0 H]]; [by left | right].
  repeat (destruct H as [[<- <-] | [_ H]]; [split_and!; [tauto | discriminate | reflexivity]|]).
  discriminate H.
Qed.

Lemma initial_metrics_keys symbol key :
  key ∈ record_keys -> is_Some (initial_metrics symbol !! key).
Proof.
  unfold record_keys. rewrite !elem_of_cons, elem_of_nil.
  intros [-> | [-> | [-> | [-> | [-> | [-> | [-> | []]]]]]]]; by eexists.
Qed.

Lemma error_singleton_lookup message key v :
  message <> "" ->
  ({[ "error" := PStr message ]} : gmap string pyval) !! key = Some v -> error_value key v.
Proof.
  intros Hne [<- <-]%lookup_singleton_Some. split; eauto.
Qed.

Lemma merged_well_formed symbol (summary growth : gmap string pyval) :
  (forall key v, summary !! key = Some v ->
                 price_value key v \/ ratio_value key v \/ error_value key v) ->
  (forall key v, growth !! key = Some v -> growth_value key v \/ error_value key v) ->
  forall key v,
    (growth ∪ (summary ∪ initial_metrics symbol)) !! key = Some v ->
    well_formed symbol key v.
Proof.
  intros Hs Hg key v. rewrite !lookup_union_Some_raw.
  intros [H | [_ [H | [_ H]]]].
  - destruct (Hg key v H) as [[-> [g ->]] | [-> (message & -> & Hne)]].
    + right; right; left. split; [tauto | eauto].
    + right; right; right. split; eauto.
  - destruct (Hs key v H) as [[-> (p & -> & Hp)] | [[Hk Hv] | [-> (message & -> & Hne)]]].
    + right; left. split; eauto.
    + right; right; left. split; [tauto | exact Hv].
    + right; right; right. split; eauto.
  - apply initial_metrics_lookup in H as [[-> ->] | (Hk & Hne & ->)]; [by left|].
    unfold record_keys in Hk. rewrite !elem_of_cons, elem_of_nil in Hk.
    destruct Hk as [-> | [-> | [-> | [-> | [-> | [-> | [-> | []]]]]]]];
      [done| | | | | |]; unfold well_formed; tauto.
Qed.

Section Record.

Variable session_get : string -> outcome response.
Variable quote : string -> string.

Lemma get_key_metrics_cases symbol :
  exists summary growth,
    get_key_metrics session_get quote symbol
    = Ok (growth ∪ (summary ∪ initial_metrics symbol))
    /\ match phase_error (session_get (summary_url quote symbol))
               "summary" "summary metrics" with
       | Some message => summary = {[ "error" := PStr message ]}
       | None => forall key v, summary !! key = Some v -> price_value key v \/ ratio_value key v
       end
    /\ match phase_error (session_get (analysis_url quote symbol))
               "analysis" "growth estimates" with
       | Some message => growth = {[ "error" := PStr message ]}
       | None => forall key v, growth !! key = Some v -> growth_value key v
       end.
Proof.
  destruct (summary_cases session_get quote symbol) as (summary & Hsum & Hs).
  destruct (growth_cases session_get quote symbol) as (growth & Hgro & Hg).
  exists summary, growth. split; [by apply get_key_metrics_merges | by split].
Qed.

Lemma get_key_metrics_well_formed symbol :
  exists metrics,
    get_key_metrics session_get quote symbol = Ok metrics
    /\ (forall key, key ∈ record_keys -> is_Some (metrics !! key))
    /\ (forall key v, metrics !! key = Some v -> well_formed symbol key v).
Proof.
  destruct (get_key_metrics_cases symbol) as (summary & growth & Hrun & Hs & Hg).
  eexists. split; [exact Hrun|]. split.
  - intros key Hk. rewrite !lookup_union_is_Some. right; right.
    by apply initial_metrics_keys.
  - apply merged_well_formed.
    + destruct (phase_error _ "summary" _) as [message|] eqn:He.
      * subst summary. intros key v H. right; right.
        apply error_singleton_lookup with message; [|exact H].
        by apply phase_error_nonempty in He.
      * intros key v H. destruct (Hs key v H); tauto.
    + destruct (phase_error _ "analysis" _) as [message|] eqn:He.
      * subst growth. intros key v H. right.
        apply error_singleton_lookup with message; [|exact H].
        by apply phase_error_nonempty in He.
      * intros key v H. left. by apply Hg.
Qed.

End Record.

(** X5.  [get_key_metrics] returns for every symbol and every behaviour of the
    page fetcher.  The record has the seven keys [symbol], [current_price],
    [pe_ratio_ttm], [forward_dividend_rate], [forward_dividend_yield],
    [growth_estimate_next_year] and [error], and no other key.  [symbol] is
    the upper-cased ticker, [current_price] is [None] or a number above zero,
    the other four figures are [None] or a number, and [error] is [None] or a
    message that is not empty. *)
Theorem get_key_metrics_record
    (session_get : string -> outcome response) (quote : string -> string)
    (symbol : string) :
  exists metrics,
    get_key_metrics session_get quote symbol = Ok metrics
    /\ (forall key, key ∈ record_keys <-> is_Some (metrics !! key))
    /\ (forall key v, metrics !! key = Some v -> well_formed symbol key v).
Proof.
  destruct (get_key_metrics_well_formed session_get quote symbol) as (metrics & Hrun & Hk & Hv).
  exists metrics. split; [exact Hrun|]. split; [|exact Hv].
  intros key. split; [apply Hk|]. intros [v H].
  unfold record_keys. rewrite !elem_of_cons.
  destruct (Hv key v H) as [[-> _] | [[-> _] | [[Hkey _] | [-> _]]]]; tauto.
Qed.

(** X6.  The [error] field of the record reports the two page fetches and
    nothing else: it holds the message of the analysis phase when that fetch
    raised or answered a status other than 200, else the message of the
    summary phase when that fetch failed, else [None].  A page that answers
    200 never produces an error, whatever it contains, the handler of
    [get_key_metrics] itself is never entered, and when both fetches fail
    only the analysis failure is reported. *)
Theorem error_field_reports_the_fetches
    (session_get : string -> outcome response) (quote : string -> string)
    (symbol : string) :
  exists metrics,
    get_key_metrics session_get quote symbol = Ok metrics
    /\ metrics !! "error"
       = Some
           match phase_error (session_get (analysis_url quote symbol))
                   "analysis" "growth estimates",
                 phase_error (session_get (summary_url quote symbol))
                   "summary" "summary metrics" with
           | Some message, _ => PStr message
           | None, Some message => PStr message
           | None, None => PNone
           end.
Proof.
  destruct (get_key_metrics_cases session_get quote symbol)
    as (summary & growth & Hrun & Hs & Hg).
  eexists. split; [exact Hrun|].
  destruct (phase_error _ "analysis" _) as [ma|].
  - subst growth. apply lookup_union_Some_l, lookup_singleton_eq.
  - assert (Hge : growth !! "error" = None).
    { destruct (growth !! "error") as [v|] eqn:E; [|reflexivity].
      by destruct (Hg _ _ E) as [? _]. }
    rewrite lookup_union_r by exact Hge.
    destruct (phase_error _ "summary" _) as [ms|].
    + subst summary. apply lookup_union_Some_l, lookup_singleton_eq.
    + assert (Hse : summary !! "error" = None).
      { destruct (summary !! "error") as [v|] eqn:E; [|reflexivity].
        destruct (Hs _ _ E) as [[? _] | [[? | [? | ?]] _]]; discriminate. }
      rewrite lookup_union_r by exact Hse. reflexivity.
Qed.

(** ** The record and its consumers *)

Lemma well_formed_record symbol (metrics : gmap string pyval) :
  (forall key v, metrics !! key = Some v -> well_formed symbol key v) ->
  metrics_record metrics.
Proof.
  intros Hv. apply Forall_forall. intros key Hk. unfold numeric_field.
  destruct (metrics !! key) as [[| |s]|] eqn:E; try exact I.
  unfold numeric_keys in Hk. rewrite !elem_of_cons, elem_of_nil in Hk.
  destruct (Hv key _ E) as [[-> _] | [[_ [? | (? & ? & _)]] | [[_ [? | (? & ?)]] | [-> _]]]];
    try discriminate; intuition discriminate.
Qed.

Lemma calculate_returns metrics :
  metrics_record metrics -> exists additional, calculate_additional_metrics metrics = Ok additional.
Proof.
  intros (Hc & Hp & Hr & Hg)%metrics_record_fields.
  unfold calculate_additional_metrics.
  destruct (peg_step_cases metrics ∅ Hp Hg) as [E1 | (pe & g & _ & _ & E1)];
    rewrite E1; cbn [mbind outcome_bind];
    match goal with |- context [coverage_step metrics ?a] =>
      destruct (coverage_step_cases metrics a Hc Hp Hr) as [E2 | (eps & cov & _ & _ & _ & E2)]
    end;
    rewrite E2; cbn [mbind outcome_bind];
    match goal with |- context [pb_step metrics ?a] =>
      destruct (pb_step_cases metrics a Hp Hg) as [E3 | (pb & E3)]
    end;
    rewrite E3; eauto.
Qed.

Section DisplayReturns.

Variable format_2f : Q -> string.
Variable str_float : Q -> string.

Lemma display_line_returns (metrics : gmap string pyval) key label before after :
  metrics !! key = Some PNone \/ (exists q, metrics !! key = Some (PFloat q)) ->
  exists line, display_line format_2f metrics key label before after = Ok line.
Proof.
  unfold display_line, getitem. intros [-> | [q ->]]; cbn [mbind outcome_bind truthy].
  - eauto.
  - destruct (negb (q_is_zero q)); cbn [format_fixed mbind outcome_bind]; eauto.
Qed.

Lemma format_metrics_display_returns symbol (metrics : gmap string pyval) :
  (forall key, key ∈ record_keys -> is_Some (metrics !! key)) ->
  (forall key v, metrics !! key = Some v -> well_formed symbol key v) ->
  exists text, format_metrics_display format_2f str_float metrics = Ok text.
Proof.
  intros Hk Hv.
  assert (Hnum : forall key, key ∈ numeric_keys ->
            metrics !! key = Some PNone \/ exists q, metrics !! key = Some (PFloat q)).
  { intros key Hkey.
    assert (Hrec : key ∈ record_keys).
    { unfold record_keys. apply list_elem_of_further. revert Hkey. unfold numeric_keys.
      rewrite !elem_of_cons, !elem_of_nil. tauto. }
    destruct (Hk key Hrec) as [v E]. rewrite E.
    unfold numeric_keys in Hkey. rewrite !elem_of_cons, elem_of_nil in Hkey.
    destruct (Hv key v E) as [[-> _] | [[_ [-> | (p & -> & _)]] | [[_ [-> | (q & ->)]] | [-> _]]]];
      eauto; intuition discriminate. }
  unfold format_metrics_display, display_lines.
  destruct (Hk "symbol") as [vs Es]; [unfold record_keys; rewrite !elem_of_cons; tauto|].
  assert (getitem metrics "symbol" = Ok vs) as -> by (unfold getitem; by rewrite Es).
  cbn [mbind outcome_bind].
  repeat match goal with
         | |- context [display_line format_2f metrics ?key ?label ?before ?after] =>
             let line := fresh "line" in
             let E := fresh "E" in
             destruct (display_line_returns metrics key label before after) as [line E];
             [apply Hnum; unfold numeric_keys; rewrite !elem_of_cons; tauto|];
             rewrite E; cbn [mbind outcome_bind]
         end.
  destruct (Hk "error") as [ve Ee]; [unfold record_keys; rewrite !elem_of_cons; tauto|].
  assert (getitem metrics "error" = Ok ve) as -> by (unfold getitem; by rewrite Ee).
  destruct (truthy _); cbn [mbind outcome_bind]; eauto.
Qed.

End DisplayReturns.

(** ** The symbol is read through its upper-case form *)

Lemma first_hit_ext {A} (l : list A) f g :
  (forall x, f x = g x) -> first_hit l f = first_hit l g.
Proof.
  intros Hfg. induction l as [|x l IH]; cbn [first_hit]; [reflexivity|].
  by rewrite Hfg, IH.
Qed.

Lemma scan_rows_upper idx symbol symbol' rows :
  upper symbol = upper symbol' ->
  scan_rows idx symbol rows = scan_rows idx symbol' rows.
Proof.
  intros Hu. induction rows as [|row rows IH]; cbn [scan_rows]; [reflexivity|].
  unfold is_company_row. by rewrite Hu, IH.
Qed.

Lemma extract_from_growth_table_upper table symbol symbol' :
  upper symbol = upper symbol' ->
  _extract_from_growth_table table symbol = _extract_from_growth_table table symbol'.
Proof.
  intros Hu. unfold _extract_from_growth_table.
  destruct (match find _ table with Some h => Some h | None => _ end); [|reflexivity].
  destruct (find_column _ _); [|reflexivity].
  by rewrite (scan_rows_upper _ _ _ _ Hu).
Qed.

Lemma extract_growth_estimate_table_upper soup symbol symbol' :
  upper symbol = upper symbol' ->
  _extract_growth_estimate_table soup symbol = _extract_growth_estimate_table soup symbol'.
Proof.
  intros Hu. unfold _extract_growth_estimate_table. f_equal. f_equal.
  - destruct (find _ soup); [|reflexivity]. destruct (find _ _); [|reflexivity].
    by apply extract_from_growth_table_upper.
  - f_equal; apply first_hit_ext; intros [table parent]; cbn [fst snd];
      by rewrite (extract_from_growth_table_upper _ _ _ Hu).
Qed.

Lemma get_key_metrics_upper
    (session_get : string -> outcome response) (quote : string -> string)
    (symbol symbol' : string) :
  upper symbol = upper symbol' ->
  get_key_metrics session_get quote symbol = get_key_metrics session_get quote symbol'.
Proof.
  intros Hu.
  assert (Hs : _get_summary_metrics session_get quote symbol
               = _get_summary_metrics session_get quote symbol').
  { unfold _get_summary_metrics, summary_url. by rewrite Hu. }
  assert (Hg : _get_growth_estimates session_get quote symbol
               = _get_growth_estimates session_get quote symbol').
  { unfold _get_growth_estimates, analysis_url, try_all, mbind, M_bind, lift. rewrite Hu.
    destruct (session_get _) as [r|e]; [|reflexivity].
    destruct (negb _); [reflexivity|].
    by rewrite (extract_growth_estimate_table_upper _ _ _ Hu). }
  destruct (summary_metrics_returns session_get quote symbol) as [summary Hsum].
  destruct (growth_estimates_returns session_get quote symbol) as [growth Hgro].
  rewrite (get_key_metrics_merges _ _ _ _ _ Hsum Hgro).
  rewrite Hs in Hsum. rewrite Hg in Hgro.
  rewrite (get_key_metrics_merges _ _ _ _ _ Hsum Hgro).
  unfold initial_metrics. by rewrite Hu.
Qed.

(** X8.  The ticker is read through its upper-case form only: two spellings
    of a symbol that differ in letter case give the same record. *)
Theorem get_key_metrics_ignores_case
    (session_get : string -> outcome response) (quote : string -> string)
    (symbol symbol' : string) :
  upper symbol = upper symbol' ->
  get_key_metrics session_get quote symbol = get_key_metrics session_get quote symbol'.
Proof. apply get_key_metrics_upper. Qed.

(** X8 on two spellings of the sample symbol. *)
Lemma get_key_metrics_ignores_case_witness :
  upper "aapl" = upper "AAPL"
  /\ get_key_metrics (sample_fetch not_found not_found) (fun s => s) "aapl"
     = get_key_metrics (sample_fetch not_found not_found) (fun s => s) "AAPL".
Proof.
  split; [reflexivity|].
  apply (get_key_metrics_ignores_case (sample_fetch not_found not_found) (fun s => s)).
  reflexivity.
Defined.

(** ** The normalizer reads the residual only *)

Lemma strip_non_numeric_upper value :
  strip_non_numeric (upper value) = strip_non_numeric value.
Proof.
  unfold strip_non_numeric, upper.
  induction value as [|c value IH]; [reflexivity|].
  cbn [str_map str_filter]. rewrite IH.
  generalize (str_filter numeric_char value). intros rest. by_char c.
Qed.

(** The sentinel test decides nothing that the residual does not decide. *)
Lemma clean_numeric_residual value :
  _clean_numeric_value value =
  Ok (if degenerate (strip_non_numeric value) then None
      else parsed (strip_non_numeric value)).
Proof.
  rewrite clean_numeric_value_eq. destruct (is_sentinel value) eqn:Hs; [|reflexivity].
  apply is_sentinel_iff in Hs. rewrite <- (strip_non_numeric_upper value).
  destruct Hs as [-> | [-> | [-> | [-> | ->]]]]; reflexivity.
Qed.

(** X9.  The value normalizer reads a text through its digits, decimal points
    and minus signs only: two texts with the same such characters in the same
    order normalize alike.  Currency signs, thousands separators, percent
    signs, letters and brackets change nothing. *)
Theorem clean_numeric_value_reads_residual (value value' : string) :
  strip_non_numeric value = strip_non_numeric value' ->
  _clean_numeric_value value = _clean_numeric_value value'
  /\ _clean_percentage_value value = _clean_numeric_value value'.
Proof.
  intros H. change (_clean_percentage_value value) with (_clean_numeric_value value).
  rewrite (clean_numeric_residual value), (clean_numeric_residual value'), H. auto.
Qed.

(** X9 on a decorated amount and its bare digits. *)
Lemma clean_numeric_value_reads_residual_witness :
  strip_non_numeric "$1,234.50 (USD)" = strip_non_numeric "1234.50"
  /\ _clean_numeric_value "$1,234.50 (USD)" = _clean_numeric_value "1234.50"
  /\ _clean_percentage_value "$1,234.50 (USD)" = _clean_numeric_value "1234.50".
Proof.
  split; [reflexivity|].
  apply (clean_numeric_value_reads_residual "$1,234.50 (USD)" "1234.50"). reflexivity.
Defined.

(** ** Batch extraction *)

Section BatchFacts.

Variable session_get : string -> outcome response.
Variable quote : string -> string.

Lemma get_key_metrics_returns symbol :
  exists metrics, get_key_metrics session_get quote symbol = Ok metrics.
Proof.
  destruct (get_key_metrics_well_formed session_get quote symbol) as (metrics & H & _).
  eauto.
Qed.

(** Every entry of the result was there before the loop or is the record of
    a symbol of the list, stored under its upper-case form. *)
Lemma batch_loop_entries symbols acc :
  exists results,
    batch_loop session_get quote symbols acc = Ok results
    /\ forall key,
         results !! key = acc !! key
         \/ exists symbol metrics,
              symbol ∈ symbols /\ upper symbol = key
              /\ get_key_metrics session_get quote symbol = Ok metrics
              /\ results !! key = Some metrics.
Proof.
  revert acc. induction symbols as [|symbol rest IH]; intros acc; cbn [batch_loop].
  - exists acc. split; [reflexivity | by left].
  - destruct (get_key_metrics_returns symbol) as [metrics Hm]. rewrite Hm.
    cbn [mbind outcome_bind].
    destruct (IH (<[upper symbol := metrics]> acc)) as (results & Hrun & Hr).
    exists results. split; [exact Hrun|]. intros key.
    destruct (Hr key) as [H | (s & m & Hs & Hu & Hg & H)].
    + destruct (decide (upper symbol = key)) as [<-|Hne].
      * right. exists symbol, metrics. rewrite lookup_insert_eq in H.
        split_and!; auto. apply list_elem_of_here.
      * left. by rewrite lookup_insert_ne in H.
    + right. exists s, m. split_and!; auto. by apply list_elem_of_further.
Qed.

End BatchFacts.

(** X10.  [get_multiple_stocks_metrics] returns for every list of symbols.
    The keys of its result are exactly the upper-case forms of the symbols,
    and under the upper-case form of each symbol of the list stands the
    record [get_key_metrics] gives for that symbol; symbols that differ in
    letter case only share one entry.  The page fetcher is a function of the
    URL here. *)
Theorem get_multiple_stocks_metrics_entries
    (session_get : string -> outcome response) (quote : string -> string)
    (symbols : list string) :
  exists results,
    get_multiple_stocks_metrics session_get quote symbols = Ok results
    /\ (forall key, is_Some (results !! key) <-> exists symbol, symbol ∈ symbols /\ upper symbol = key)
    /\ (forall symbol,
          symbol ∈ symbols ->
          exists metrics,
            get_key_metrics session_get quote symbol = Ok metrics
            /\ results !! upper symbol = Some metrics).
Proof.
  destruct (batch_loop_entries session_get quote symbols ∅) as (results & Hrun & Hr).
  exists results. split; [exact Hrun|].
  assert (Hin : forall key, is_Some (results !! key) ->
            exists symbol metrics,
              symbol ∈ symbols /\ upper symbol = key
              /\ get_key_metrics session_get quote symbol = Ok metrics
              /\ results !! key = Some metrics).
  { intros key [m Hm]. destruct (Hr key) as [H | H]; [|exact H].
    rewrite lookup_empty in H. congruence. }
  assert (Hall : forall symbol, symbol ∈ symbols -> is_Some (results !! upper symbol)).
  { clear Hin Hr. unfold get_multiple_stocks_metrics in Hrun.
    generalize dependent (∅ : gmap string (gmap string pyval)).
    induction symbols as [|s rest IH]; intros acc Hrun symbol Hs.
    - by apply elem_of_nil in Hs.
    - cbn [batch_loop] in Hrun.
      destruct (get_key_metrics_returns session_get quote s) as [m Hm].
      rewrite Hm in Hrun. cbn [mbind outcome_bind] in Hrun.
      apply elem_of_cons in Hs as [-> | Hs]; [|by apply (IH _ Hrun)].
      destruct (batch_loop_entries session_get quote rest (<[upper s := m]> acc))
        as (results' & Hrun' & Hr').
      rewrite Hrun' in Hrun. injection Hrun as ->.
      destruct (Hr' (upper s)) as [H | (s' & m' & _ & _ & _ & H)]; rewrite H; [|by eexists].
      rewrite lookup_insert_eq. by eexists. }
  split.
  - intros key. split.
    + intros (symbol & metrics & Hs & Hu & _)%Hin. eauto.
    + intros (symbol & Hs & <-). by apply Hall.
  - intros symbol Hs.
    destruct (Hin _ (Hall symbol Hs)) as (s' & m' & Hs' & Hu & Hg & Hl).
    exists m'. split; [|exact Hl].
    by rewrite <- (get_key_metrics_upper session_get quote s' symbol Hu).
Qed.

(** ** The secondary metrics as functions of the record *)

Lemma q_is_zero_div a b :
  q_is_zero a = false -> q_is_zero b = false -> q_is_zero (a / b) = false.
Proof.
  unfold q_is_zero. destruct a as [na da], b as [nb db]. cbn [Qnum].
  rewrite !Z.eqb_neq. intros Ha Hb.
  unfold Qdiv, Qinv, Qmult. cbn [Qnum Qden].
  destruct nb as [|p|p]; [contradiction| |]; cbn [Qnum]; lia.
Qed.

Local Ltac by_field_views :=
  repeat match goal with
         | H : field_view _ _ |- _ => destruct H as [H|H|? H ?|? H ?]
         end;
  unfold number_at;
  repeat match goal with
         | H : ?m !! ?k = _ |- context [?m !! ?k] => rewrite H
         end;
  repeat match goal with
         | H : q_is_zero ?q = _ |- context [q_is_zero ?q] => rewrite H
         end.

Lemma peg_step_value metrics a :
  field_view metrics "pe_ratio_ttm" -> field_view metrics "growth_estimate_next_year" ->
  peg_step metrics a
  = Ok match number_at metrics "pe_ratio_ttm",
             number_at metrics "growth_estimate_next_year" with
       | Some pe, Some g => <["peg_ratio" := PFloat (pe / g)]> a
       | _, _ => a
       end.
Proof.
  intros Hp Hg. unfold peg_step. by_field_views; read_fields; reflexivity.
Qed.

Lemma coverage_step_value metrics a :
  field_view metrics "current_price" -> field_view metrics "pe_ratio_ttm" ->
  field_view metrics "forward_dividend_rate" ->
  coverage_step metrics a
  = Ok match number_at metrics "forward_dividend_rate",
             number_at metrics "current_price",
             number_at metrics "pe_ratio_ttm" with
       | Some rate, Some price, Some pe =>
           <["dividend_coverage_ratio" := PFloat (price / pe / rate)]>
             (<["estimated_eps" := PFloat (price / pe)]> a)
       | _, _, _ => a
       end.
Proof.
  intros Hc Hp Hr. unfold coverage_step. by_field_views; read_fields; try reflexivity.
  rewrite q_is_zero_div by assumption.
  cbn [negb mbind outcome_bind]. read_fields. reflexivity.
Qed.

Lemma pb_step_value metrics a :
  field_view metrics "pe_ratio_ttm" -> field_view metrics "growth_estimate_next_year" ->
  pb_step metrics a
  = Ok match number_at metrics "pe_ratio_ttm",
             number_at metrics "growth_estimate_next_year" with
       | Some pe, Some g => <["estimated_pb_ratio" := PFloat (pe * (g / 100))]> a
       | _, _ => a
       end.
Proof.
  intros Hp Hg. unfold pb_step. by_field_views; read_fields; reflexivity.
Qed.

Lemma calculate_additional_metrics_fields (metrics : gmap string pyval) :
  metrics_record metrics ->
  exists additional,
    calculate_additional_metrics metrics = Ok additional
    /\ additional !! "peg_ratio"
       = match number_at metrics "pe_ratio_ttm",
               number_at metrics "growth_estimate_next_year" with
         | Some pe, Some g => Some (PFloat (pe / g))
         | _, _ => None
         end
    /\ additional !! "estimated_pb_ratio"
       = match number_at metrics "pe_ratio_ttm",
               number_at metrics "growth_estimate_next_year" with
         | Some pe, Some g => Some (PFloat (pe * (g / 100)))
         | _, _ => None
         end
    /\ additional !! "estimated_eps"
       = match number_at metrics "forward_dividend_rate",
               number_at metrics "current_price",
               number_at metrics "pe_ratio_ttm" with
         | Some rate, Some price, Some pe => Some (PFloat (price / pe))
         | _, _, _ => None
         end
    /\ additional !! "dividend_coverage_ratio"
       = match number_at metrics "forward_dividend_rate",
               number_at metrics "current_price",
               number_at metrics "pe_ratio_ttm" with
         | Some rate, Some price, Some pe => Some (PFloat (price / pe / rate))
         | _, _, _ => None
         end
    /\ forall key,
         is_Some (additional !! key) ->
         key ∈ ["peg_ratio"; "estimated_eps"; "dividend_coverage_ratio"; "estimated_pb_ratio"].
Proof.
  intros (Hc & Hp & Hr & Hg)%metrics_record_fields.
  unfold calculate_additional_metrics.
  rewrite (peg_step_value metrics ∅ Hp Hg). cbn [mbind outcome_bind].
  rewrite (coverage_step_value metrics _ Hc Hp Hr). cbn [mbind outcome_bind].
  rewrite (pb_step_value metrics _ Hp Hg).
  eexists. split; [reflexivity|].
  destruct (number_at metrics "pe_ratio_ttm") as [pe|];
    destruct (number_at metrics "growth_estimate_next_year") as [g|];
    destruct (number_at metrics "forward_dividend_rate") as [rate|];
    destruct (number_at metrics "current_price") as [price|];
    (split_and!; [reflexivity..|]);
    intros key [v Hv]; rewrite !elem_of_cons;
    repeat (apply lookup_insert_Some in Hv as [[<- _] | [_ Hv]]; [tauto|]);
    by rewrite lookup_empty in Hv.
Qed.



(** ** Valuation *)

Lemma q_lt_iff x y : q_lt x y = true <-> (x < y)%Q.
Proof.
  unfold q_lt. rewrite negb_true_iff, <- not_true_iff_false, Qle_bool_iff.
  split; [apply Qnot_le_lt | apply Qlt_not_le].
Qed.

Lemma q_lt_spread x y : q_lt x y = true -> q_is_zero (y - x) = false.
Proof.
  rewrite q_lt_iff, q_is_zero_false. destruct x as [a b], y as [c d].
  unfold Qlt, Qeq. cbn. lia.
Qed.

Lemma q_lt_false x y : q_lt x y = false -> Qle_bool y x = true.
Proof. unfold q_lt. by intros ?%negb_false_iff. Qed.

Lemma q_lt_true x y : Qle_bool y x = false -> q_lt x y = true.
Proof. unfold q_lt. by intros ->. Qed.

Local Ltac read_lookups :=
  repeat first [ rewrite lookup_insert_eq | rewrite lookup_insert_ne by discriminate ];
  rewrite ?lookup_empty.

Local Ltac produced_keys :=
  let key := fresh "key" in
  let v := fresh "v" in
  let H := fresh "H" in
  intros key [v H]; rewrite !elem_of_cons;
  repeat (apply lookup_insert_Some in H as [[<- _] | [_ H]]; [tauto|]);
  by rewrite lookup_empty in H.

Lemma calculate_valuation_metrics_fields (current_price pe_ratio growth_rate dividend_yield : option Q) :
  exists valuations,
    calculate_valuation_metrics (of_opt current_price) (of_opt pe_ratio)
      (of_opt growth_rate) (of_opt dividend_yield) = Ok valuations
    /\ match current_price, pe_ratio, growth_rate, dividend_yield with
       | Some price, Some pe, Some g, Some y =>
           if q_is_zero price || q_is_zero pe then valuations = ∅
           else
             let score := ((g + y) / pe)%Q in
             let growth_rate_decimal := if q_is_zero g then (5 # 100)%Q else (g / 100)%Q in
             valuations !! "valuation_score" = Some (PFloat score)
             /\ valuations !! "valuation_status"
                = Some (PStr (if q_lt score 1 then "🚩 Overvalued"
                              else if Qle_bool score (15 # 10) then "✅ Fairly Valued"
                              else if Qle_bool score 2 then "📈 Neutral"
                              else "📈 Undervalued"))
             /\ valuations !! "peg_based_fair_value"
                = (if q_is_zero g then None else Some (PFloat (price / pe * g)))
             /\ valuations !! "dividend_growth_fair_value"
                = (if q_lt 0 y && q_lt growth_rate_decimal (10 # 100)
                   then Some (PFloat (price * (y / 100) * (1 + growth_rate_decimal)
                                      / ((10 # 100) - growth_rate_decimal)))
                   else None)
             /\ forall key,
                  is_Some (valuations !! key) ->
                  key ∈ ["peg_based_fair_value"; "dividend_growth_fair_value";
                         "valuation_score"; "valuation_status"]
       | _, _, _, _ => valuations = ∅
       end.
Proof.
  unfold calculate_valuation_metrics.
  destruct current_price as [price|]; [|by eexists].
  cbn [of_opt truthy]. destruct (q_is_zero price) eqn:Zprice;
    [destruct pe_ratio, growth_rate, dividend_yield; by eexists|].
  destruct pe_ratio as [pe|]; [|by eexists].
  cbn [of_opt truthy]. destruct (q_is_zero pe) eqn:Zpe;
    [destruct growth_rate, dividend_yield; by eexists|].
  destruct growth_rate as [g|]; [|by eexists].
  destruct dividend_yield as [y|]; [|by eexists].
  cbn [of_opt truthy negb andb orb is_not_none ne_zero truediv mul add sub compare_number
       mbind outcome_bind].
  rewrite Zpe. change (q_is_zero 100) with false.
  cbn [negb andb mbind outcome_bind].
  destruct (q_is_zero g) eqn:Zg; cbn [negb mbind outcome_bind andb truediv mul];
    destruct (q_lt 0 y) eqn:Hy;
    cbn [negb mbind outcome_bind andb truediv mul add sub compare_number];
    try change (q_lt (5 # 100) (10 # 100)) with true;
    try change (q_is_zero ((10 # 100) - (5 # 100))) with false;
    try (destruct (q_lt (g / 100) (10 # 100)) eqn:Hg; [rewrite (q_lt_spread _ _ Hg)|]);
    cbn [negb mbind outcome_bind andb truediv mul add sub compare_number];
    (destruct (q_lt ((g + y) / pe) 1) eqn:Hs1; cbn [mbind outcome_bind];
     [|rewrite (q_lt_false _ _ Hs1); cbn [mbind outcome_bind];
       destruct (Qle_bool ((g + y) / pe) (15 # 10)) eqn:Hs2; cbn [mbind outcome_bind];
       [|rewrite (q_lt_true _ _ Hs2); cbn [mbind outcome_bind];
         destruct (Qle_bool ((g + y) / pe) 2) eqn:Hs3; cbn [mbind outcome_bind]]]);
    (eexists; split; [reflexivity|]);
    (split_and!; [read_lookups; reflexivity..|produced_keys]).
Qed.


(** ** Radar chart *)

Lemma clamp_range x : exists v, clamp (PFloat x) = Ok v /\ in_range v.
Proof.
  unfold clamp, py_min. cbn [mbind outcome_bind].
  destruct (q_lt x 100) eqn:Hhi; unfold py_max.
  - destruct (q_lt 0 x) eqn:Hlo; eexists; (split; [reflexivity|]); eexists;
      (split; [reflexivity|]).
    + apply q_lt_iff in Hhi, Hlo. split; by apply Qlt_le_weak.
    + split; [apply Qle_refl | discriminate].
  - destruct (q_lt 0 100); eexists; (split; [reflexivity|]); eexists;
      (split; [reflexivity|]); split; try apply Qle_refl; discriminate.
Qed.

Lemma radar_axis_value d key label normalized chart :
  field_view d key ->
  (forall q, exists v, normalized (PFloat q) = Ok v /\ in_range v) ->
  match number_at d key with
  | Some q =>
      exists v,
        in_range v
        /\ radar_axis d key label normalized chart
           = Ok ((chart.1 ++ [label])%list, (chart.2 ++ [v])%list)
  | None => radar_axis d key label normalized chart = Ok chart
  end.
Proof.
  intros Hview Hn. unfold radar_axis, number_at, dict_get, getitem.
  destruct Hview as [H|H|q H Z|q H Z]; rewrite H; cbn [default from_option id truthy];
    try rewrite Z; cbn [negb]; try reflexivity.
  destruct (Hn q) as (v & Hv & Hr). exists v. split; [exact Hr|].
  cbn [mbind outcome_bind]. by rewrite Hv.
Qed.

Lemma radar_axis_scaled d key label k chart :
  field_view d key ->
  match number_at d key with
  | Some q =>
      exists v,
        in_range v
        /\ radar_axis d key label (fun x => scaled ← mul x (PFloat k); clamp scaled) chart
           = Ok ((chart.1 ++ [label])%list, (chart.2 ++ [v])%list)
  | None =>
      radar_axis d key label (fun x => scaled ← mul x (PFloat k); clamp scaled) chart
      = Ok chart
  end.
Proof.
  intros Hview. apply radar_axis_value; [exact Hview|].
  intros q. cbn [mul mbind outcome_bind]. apply clamp_range.
Qed.

Lemma radar_axis_inverse d key label k chart :
  field_view d key ->
  match number_at d key with
  | Some q =>
      exists v,
        in_range v
        /\ radar_axis d key label
             (fun x => scaled ← mul x (PFloat k);
                       inverse ← sub (PFloat 100) scaled;
                       clamp inverse) chart
           = Ok ((chart.1 ++ [label])%list, (chart.2 ++ [v])%list)
  | None =>
      radar_axis d key label
        (fun x => scaled ← mul x (PFloat k);
                  inverse ← sub (PFloat 100) scaled;
                  clamp inverse) chart
      = Ok chart
  end.
Proof.
  intros Hview. apply radar_axis_value; [exact Hview|].
  intros q. cbn [mul sub mbind outcome_bind]. apply clamp_range.
Qed.

Lemma peg_field_view metrics (additional : gmap string pyval) :
  additional !! "peg_ratio"
  = match number_at metrics "pe_ratio_ttm",
          number_at metrics "growth_estimate_next_year" with
    | Some pe, Some g => Some (PFloat (pe / g))
    | _, _ => None
    end ->
  field_view additional "peg_ratio"
  /\ number_at additional "peg_ratio"
     = match number_at metrics "pe_ratio_ttm",
             number_at metrics "growth_estimate_next_year" with
       | Some pe, Some g => Some (pe / g)%Q
       | _, _ => None
       end.
Proof.
  unfold number_at.
  destruct (metrics !! "pe_ratio_ttm") as [[|pe|]|];
    try (intros Hpeg; rewrite Hpeg; split; [by apply field_missing | reflexivity]).
  destruct (q_is_zero pe) eqn:Zpe;
    try (intros Hpeg; rewrite Hpeg; split; [by apply field_missing | reflexivity]).
  destruct (metrics !! "growth_estimate_next_year") as [[|g|]|];
    try (intros Hpeg; rewrite Hpeg; split; [by apply field_missing | reflexivity]).
  destruct (q_is_zero g) eqn:Zg;
    try (intros Hpeg; rewrite Hpeg; split; [by apply field_missing | reflexivity]).
  intros Hpeg. rewrite Hpeg, (q_is_zero_div _ _ Zpe Zg). split; [|reflexivity].
  apply field_number with (pe / g)%Q; [exact Hpeg | by apply q_is_zero_div].
Qed.

Lemma radar_chart_fields (metrics : gmap string pyval) :
  metrics_record metrics ->
  exists chart,
    create_metrics_radar_chart metrics = Ok chart
    /\ match number_at metrics "pe_ratio_ttm",
             number_at metrics "growth_estimate_next_year" with
       | Some pe, Some g =>
           exists values,
             chart
             = Some (["P/E Ratio<br>(Lower is Better)";
                      "Growth Rate<br>(Higher is Better)"]
                     ++ match number_at metrics "forward_dividend_yield" with
                        | Some _ => ["Dividend Yield<br>(Higher is Better)"]
                        | None => []
                        end
                     ++ ["PEG Ratio<br>(Lower is Better)"],
                     values)%list
             /\ length values
                = match number_at metrics "forward_dividend_yield" with
                  | Some _ => 4%nat
                  | None => 3%nat
                  end
             /\ Forall in_range values
       | _, _ => chart = None
       end.
Proof.
  intros Hrec.
  destruct (calculate_additional_metrics_fields metrics Hrec)
    as (additional & Hrun & Hpeg & _).
  assert (Hy : field_view metrics "forward_dividend_yield").
  { apply numeric_field_view. unfold metrics_record in Hrec.
    rewrite Forall_forall in Hrec. apply Hrec. unfold numeric_keys.
    rewrite !elem_of_cons. tauto. }
  apply metrics_record_fields in Hrec as (_ & Hp & _ & Hg).
  destruct (peg_field_view metrics additional Hpeg) as [Hview Hnum].
  unfold create_metrics_radar_chart. rewrite Hrun.
  pose proof (radar_axis_inverse metrics "pe_ratio_ttm" "P/E Ratio<br>(Lower is Better)"
                (25 # 10) ([], []) Hp) as H1.
  destruct (number_at metrics "pe_ratio_ttm") as [pe|];
    [destruct H1 as (v1 & R1 & ->) | rewrite H1];
    cbn [mbind outcome_bind fst snd app];
    match goal with
    | |- context [radar_axis metrics "growth_estimate_next_year" ?l _ ?c] =>
        pose proof (radar_axis_scaled metrics "growth_estimate_next_year" l (333 # 100) c Hg)
          as H2
    end;
    (destruct (number_at metrics "growth_estimate_next_year") as [g|];
     [destruct H2 as (v2 & R2 & ->) | rewrite H2]);
    cbn [mbind outcome_bind fst snd app];
    match goal with
    | |- context [radar_axis metrics "forward_dividend_yield" ?l _ ?c] =>
        pose proof (radar_axis_scaled metrics "forward_dividend_yield" l 10 c Hy) as H3
    end;
    (destruct (number_at metrics "forward_dividend_yield") as [y|];
     [destruct H3 as (v3 & R3 & ->) | rewrite H3]);
    cbn [mbind outcome_bind fst snd app];
    match goal with
    | |- context [radar_axis additional "peg_ratio" ?l _ ?c] =>
        pose proof (radar_axis_inverse additional "peg_ratio" l (3333 # 100) c Hview) as H4
    end;
    rewrite Hnum in H4;
    first [destruct H4 as (v4 & R4 & ->) | rewrite H4];
    cbn [mbind outcome_bind fst snd app length Nat.leb];
    (eexists; split; [reflexivity|]);
    try reflexivity;
    (eexists; split_and!; [reflexivity | reflexivity | by repeat constructor]).
Qed.



(** ** The record and every consumer *)

Lemma record_numeric_field symbol (metrics : gmap string pyval) key :
  (forall key, key ∈ record_keys -> is_Some (metrics !! key)) ->
  (forall key v, metrics !! key = Some v -> well_formed symbol key v) ->
  key ∈ numeric_keys ->
  exists o, metrics !! key = Some (of_opt o).
Proof.
  intros Hk Hv Hkey.
  assert (Hrec : key ∈ record_keys).
  { unfold record_keys. apply list_elem_of_further. revert Hkey. unfold numeric_keys.
    rewrite !elem_of_cons, !elem_of_nil. tauto. }
  destruct (Hk key Hrec) as [v E]. rewrite E.
  unfold numeric_keys in Hkey. rewrite !elem_of_cons, elem_of_nil in Hkey.
  destruct (Hv key v E) as [[-> _] | [[_ [-> | (p & -> & _)]] | [[_ [-> | (q & ->)]] | [-> _]]]];
    try (by exists None); try (by eexists (Some _)); intuition discriminate.
Qed.

(** X7.  A record returned by [get_key_metrics] is accepted by every
    consumer, whatever the pages held and whichever fetch failed:
    [format_metrics_display], [calculate_additional_metrics] and
    [create_metrics_radar_chart] return on it, and
    [calculate_valuation_metrics] returns on its price, P/E ratio, growth
    estimate and dividend yield. *)
Theorem consumers_accept_the_record
    (session_get : string -> outcome response) (quote : string -> string)
    (format_2f str_float : Q -> string) (symbol : string) :
  exists metrics text additional chart current_price pe_ratio growth_rate dividend_yield
         valuations,
    get_key_metrics session_get quote symbol = Ok metrics
    /\ format_metrics_display format_2f str_float metrics = Ok text
    /\ calculate_additional_metrics metrics = Ok additional
    /\ create_metrics_radar_chart metrics = Ok chart
    /\ getitem metrics "current_price" = Ok current_price
    /\ getitem metrics "pe_ratio_ttm" = Ok pe_ratio
    /\ getitem metrics "growth_estimate_next_year" = Ok growth_rate
    /\ getitem metrics "forward_dividend_yield" = Ok dividend_yield
    /\ calculate_valuation_metrics current_price pe_ratio growth_rate dividend_yield
       = Ok valuations.
Proof.
  destruct (get_key_metrics_well_formed session_get quote symbol) as (metrics & Hrun & Hk & Hv).
  pose proof (well_formed_record symbol metrics Hv) as Hrec.
  destruct (calculate_returns metrics Hrec) as [additional Ha].
  destruct (format_metrics_display_returns format_2f str_float symbol metrics Hk Hv)
    as [text Ht].
  destruct (radar_chart_fields metrics Hrec) as (chart & Hc & _).
  assert (Hfield : forall key, key ∈ numeric_keys ->
            exists o, getitem metrics key = Ok (of_opt o)).
  { intros key Hkey. destruct (record_numeric_field symbol metrics key Hk Hv Hkey) as [o Ho].
    exists o. unfold getitem. by rewrite Ho. }
  destruct (Hfield "current_price") as [price Hprice];
    [unfold numeric_keys; rewrite !elem_of_cons; tauto|].
  destruct (Hfield "pe_ratio_ttm") as [pe Hpe];
    [unfold numeric_keys; rewrite !elem_of_cons; tauto|].
  destruct (Hfield "growth_estimate_next_year") as [g Hg];
    [unfold numeric_keys; rewrite !elem_of_cons; tauto|].
  destruct (Hfield "forward_dividend_yield") as [y Hy];
    [unfold numeric_keys; rewrite !elem_of_cons; tauto|].
  destruct (calculate_valuation_metrics_fields price pe g y) as (valuations & Hval & _).
  exists metrics, text, additional, chart, (of_opt price), (of_opt pe), (of_opt g), (of_opt y),
    valuations.
  split_and!; assumption.
Qed.

(** ** The strict price pattern bounds the price *)

Lemma match_here_dollar pat s ts rest :
  match_here pat true s = Some (ts, rest) ->
  rest = "" \/ rest = String (ascii_of_N 10) "".
Proof.
  revert s ts rest. induction pat as [|a pat IH]; intros s ts rest; cbn [match_here].
  - destruct (is_empty s || String.eqb s _) eqn:E; [|discriminate].
    intros [= <- <-]. apply orb_true_iff in E as [E | E%String.eqb_eq]; [|by right].
    destruct s; [by left | discriminate].
  - intros (k & _ & Hk)%backtrack_Some.
    destruct (match_here pat true (str_drop k s)) as [[ts' rest']|] eqn:Hm; [|discriminate].
    injection Hk as <- <-. by eapply IH.
Qed.

Lemma price_text_shape text :
  matches_price_re text = true ->
  exists ip fp rest,
    text = ip +:+ "." +:+ fp +:+ rest
    /\ str_forall is_digit ip = true /\ (1 <= String.length ip <= 4)%nat
    /\ str_forall is_digit fp = true
    /\ (rest = "" \/ rest = String (ascii_of_N 10) "").
Proof.
  unfold matches_price_re.
  destruct (match_here price_re true text) as [[ts rest]|] eqn:Hm; [|discriminate].
  intros _. pose proof (match_here_dollar _ _ _ _ Hm) as Hrest.
  apply match_here_sound in Hm as [Hfit ->]. unfold price_re in Hfit.
  repeat match type of Hfit with
         | Forall2 _ (_ :: _) _ =>
             apply Forall2_cons_inv_l in Hfit as (? & ? & ? & Hfit & ->)
         | Forall2 _ [] _ => apply Forall2_nil_inv_l in Hfit as ->
         end.
  match goal with
  | H1 : fits _ ?ip, H2 : fits _ ?pt, H3 : fits _ ?fp |- _ =>
      destruct H1 as (Hd1 & Hlo1 & Hhi1); destruct H2 as (Hd2 & Hlo2 & Hhi2);
      destruct H3 as (Hd3 & _ & _); exists ip, fp, rest;
      assert (pt = ".") as ->
  end.
  { cbn [a_class a_min a_max] in *.
    match goal with |- ?pt = _ => destruct pt as [|c [|c' t]]; cbn [String.length] in *; try lia end.
    cbn [str_forall] in Hd2. rewrite andb_true_r in Hd2.
    unfold lit in Hd2. by apply Ascii.eqb_eq in Hd2 as <-. }
  cbn [a_class a_min a_max] in *. split_and!; auto.
  cbn [concat_str fold_right]. by rewrite app_nil_r, !app_assoc_str.
Qed.

Lemma py_float_point ip fp :
  str_forall is_digit ip = true -> (1 <= String.length ip)%nat ->
  str_forall is_digit fp = true ->
  py_float (ip +:+ "." +:+ fp) = Ok (decimal false ip fp).
Proof.
  intros H1 Hl H3.
  destruct ip as [|c ip]; [cbn in Hl; lia|].
  pose proof H1 as Hhead.
  cbn [str_forall] in H1. apply andb_true_iff in H1 as [Hc H1].
  rewrite app_cons. unfold py_float. rewrite (split_sign_digit _ _ Hc).
  rewrite <- app_cons. change ("." +:+ fp) with (String "." fp).
  rewrite span_digits_stop by (assumption || reflexivity).
  by rewrite split_point_dot, (span_digits_all _ H3).
Qed.

Lemma digits_value_lt s acc :
  str_forall is_digit s = true -> 0 <= acc ->
  digits_value acc s < (acc + 1) * 10 ^ Z.of_nat (String.length s).
Proof.
  revert acc. induction s as [|c s IH]; intros acc; cbn [str_forall digits_value String.length].
  - intros _ _. cbn. lia.
  - intros [Hc Hs]%andb_true_iff Hacc.
    unfold is_digit in Hc. apply andb_true_iff in Hc as [Hlo%N.leb_le Hhi%N.leb_le].
    rewrite Nat2Z.inj_succ, Z.pow_succ_r by lia.
    assert (Hpow : 0 < 10 ^ Z.of_nat (String.length s)) by (apply Z.pow_pos_nonneg; lia).
    specialize (IH (10 * acc + (Z.of_N (code c) - 48)) Hs). nia.
Qed.

Lemma str_length_app x y :
  String.length (x +:+ y) = (String.length x + String.length y)%nat.
Proof.
  induction x as [|c x IH]; [reflexivity|]. rewrite app_cons. cbn [String.length]. by rewrite IH.
Qed.

Lemma decimal_below ip fp :
  str_forall is_digit ip = true -> str_forall is_digit fp = true ->
  (String.length ip <= 4)%nat ->
  (decimal false ip fp < 10000)%Q.
Proof.
  intros Hi Hf Hlen. unfold decimal. rewrite Qred_correct.
  unfold Qlt. cbn [Qnum Qden]. rewrite Z.mul_1_r.
  assert (Hpow : 0 < 10 ^ Z.of_nat (String.length fp)) by (apply Z.pow_pos_nonneg; lia).
  rewrite Z2Pos.id by exact Hpow.
  pose proof (digits_value_lt (ip +:+ fp) 0) as Hlt.
  rewrite str_forall_app, Hi, Hf, str_length_app, Nat2Z.inj_add, Z.pow_add_r in Hlt by lia.
  specialize (Hlt eq_refl ltac:(lia)).
  assert (Hip : 10 ^ Z.of_nat (String.length ip) <= 10 ^ 4) by (apply Z.pow_le_mono_r; lia).
  change (10 ^ 4) with 10000 in Hip. nia.
Qed.

(** A text that matches the strict pattern normalizes to a number below
    10000. *)
Lemma price_text_value text :
  matches_price_re text = true ->
  exists q, _clean_numeric_value text = Ok (Some q) /\ (q < 10000)%Q.
Proof.
  intros (ip & fp & rest & -> & Hi & [Hlo Hhi] & Hf & Hrest)%price_text_shape.
  exists (decimal false ip fp). split; [|by apply decimal_below].
  rewrite clean_numeric_residual.
  assert (Hstrip : strip_non_numeric (ip +:+ "." +:+ fp +:+ rest) = ip +:+ "." +:+ fp).
  { unfold strip_non_numeric. rewrite !str_filter_app.
    rewrite (str_filter_all is_digit _ ip Hi digit_is_numeric).
    rewrite (str_filter_all is_digit _ fp Hf digit_is_numeric).
    destruct Hrest as [-> | ->]; cbn [str_filter]; by rewrite ?app_nil_r. }
  rewrite Hstrip. unfold parsed. rewrite (py_float_point ip fp Hi Hlo Hf).
  destruct ip as [|c ip]; [cbn in Hlo; lia|].
  cbn [str_forall] in Hi. apply andb_true_iff in Hi as [Hc _].
  rewrite app_cons. by rewrite (degenerate_digit _ _ Hc).
Qed.

(** White space is no part of the residual. *)
Lemma strip_non_numeric_lstrip s : strip_non_numeric (lstrip s) = strip_non_numeric s.
Proof.
  unfold strip_non_numeric. induction s as [|c s IH]; [reflexivity|].
  cbn [lstrip]. destruct (is_space c) eqn:Hc; [|reflexivity].
  rewrite IH. cbn [str_filter].
  assert (numeric_char c = false) as -> by (revert Hc; by_char c). reflexivity.
Qed.

Lemma strip_non_numeric_rstrip s : strip_non_numeric (rstrip s) = strip_non_numeric s.
Proof.
  unfold strip_non_numeric. induction s as [|c s IH]; [reflexivity|].
  cbn [rstrip]. destruct (is_space c) eqn:Hc; cbn [andb].
  - assert (Hn : numeric_char c = false) by (revert Hc; by_char c).
    destruct (is_empty (rstrip s)) eqn:He; cbn [str_filter]; rewrite Hn.
    + rewrite <- IH. by destruct (rstrip s).
    + exact IH.
  - cbn [str_filter]. by rewrite IH.
Qed.

Lemma strip_non_numeric_strip s : strip_non_numeric (strip s) = strip_non_numeric s.
Proof. unfold strip. by rewrite strip_non_numeric_rstrip, strip_non_numeric_lstrip. Qed.

(** The pieces of text below a node whose [string] is [s]. *)
Lemma tag_string_pieces n s :
  tag_string n = Some s ->
  flat_map (string_piece true) (n :: descendants n) = string_piece true (NavigableString s).
Proof.
  revert s. induction n as [t|name attrs cls cs IH] using node_ind'; intros s.
  - cbn [tag_string]. intros [= ->]. unfold descendants.
    cbn [descendants_with_parent fmap list_fmap flat_map]. by rewrite List.app_nil_r.
  - cbn [tag_string]. destruct cs as [|c [|c' cs]]; try discriminate.
    apply Forall_cons in IH as [IH _]. intros H. specialize (IH s H).
    unfold descendants in *.
    cbn [descendants_with_parent fmap list_fmap fst flat_map string_piece app].
    rewrite List.app_nil_r. exact IH.
Qed.

Lemma get_text_tag_string n s :
  is_tag n = true -> tag_string n = Some s ->
  strip_non_numeric (get_text true n) = strip_non_numeric s.
Proof.
  intros Ht Hs. unfold get_text.
  assert (Hp : flat_map (string_piece true) (descendants n)
               = string_piece true (NavigableString s)).
  { rewrite <- (tag_string_pieces n s Hs). destruct n; [discriminate | reflexivity]. }
  rewrite Hp. cbn [string_piece].
  destruct (is_empty (strip s)) eqn:He; cbn [concat_str fold_right].
  - rewrite <- (strip_non_numeric_strip s). by destruct (strip s).
  - by rewrite app_nil_r, strip_non_numeric_strip.
Qed.

Lemma strict_price_below text p : strict_price text = Ok (Some p) -> (p < 10000)%Q.
Proof.
  unfold strict_price. destruct (matches_price_re text) eqn:Hm; [|discriminate].
  destruct (price_text_value text Hm) as (q & -> & Hq).
  cbn [mbind outcome_bind]. intros [= H]. by apply accept_Some in H as [[= ->] _].
Qed.

Lemma fallback_element_below soup element parent p :
  (element, parent) ∈ fallback_candidates soup ->
  fallback_element (element, parent) = Ok (Some p) -> (p < 10000)%Q.
Proof.
  intros (_ & Hn & Hs)%fallback_candidates_spec (Hc & _ & _)%fallback_element_Some.
  unfold string_matches in Hs.
  destruct (tag_string element) as [s|] eqn:Hts; [|discriminate].
  assert (Ht : is_tag element = true) by (by destruct element).
  destruct (price_text_value s Hs) as (q & Hq & Hlt).
  rewrite clean_numeric_residual in Hc, Hq.
  rewrite (get_text_tag_string element s Ht Hts) in Hc.
  rewrite Hq in Hc. by injection Hc as <-.
Qed.

Lemma pattern_method_below m soup p :
  m ∈ [price_method3; price_method4; price_method5] ->
  m soup = Ok (Some p) -> (p < 10000)%Q.
Proof.
  rewrite !elem_of_cons, elem_of_nil. intros [-> | [-> | [-> | []]]].
  - unfold price_method3. destruct (find _ soup); [|discriminate].
    by intros (span & _ & H%strict_price_below)%first_hit_Some.
  - unfold price_method4.
    destruct (match find _ soup with Some h => Some h | None => _ end); [|discriminate].
    by intros (span & _ & H%strict_price_below)%first_hit_Some.
  - unfold price_method5. intros ([element parent] & Hin & H)%first_hit_Some.
    by apply fallback_element_below with soup element parent.
Qed.

(** X3.  When the two attribute strategies find no price, a price found by
    the remaining strategies comes from a text of one to four digits, a
    point and two digits: it is above 1 and below 10000. *)
Theorem pattern_strategies_price_range (soup : node) (price : Q) :
  price_method1 soup = Ok None ->
  price_method2 soup = Ok None ->
  price_strategies soup = Ok (Some price) ->
  (1 < price)%Q /\ (price < 10000)%Q.
Proof.
  intros H1 H2. rewrite price_strategies_first_hit.
  unfold price_methods. cbn [first_hit]. rewrite H1, H2. cbn [mbind outcome_bind].
  change (first_hit [price_method3; price_method4; price_method5] (fun m => m soup)
          = Ok (Some price) -> (1 < price)%Q /\ (price < 10000)%Q).
  intros (m & Hm & H)%first_hit_Some.
  split; [|by apply (pattern_method_below m soup)].
  assert (Hin : m ∈ price_methods).
  { unfold price_methods. by do 2 apply list_elem_of_further. }
  destruct (price_method_above m soup price Hin H) as [_ Habove].
  apply Habove; intros ->.
  - rewrite H1 in H. discriminate.
  - rewrite H2 in H. discriminate.
Qed.

(** X3 on the sample quote page, whose price comes from the last strategy. *)
Lemma pattern_strategies_price_range_witness :
  price_strategies fallback_page = Ok (Some (10059 # 50))
  /\ (1 < 10059 # 50)%Q /\ (10059 # 50 < 10000)%Q.
Proof.
  split; [reflexivity|].
  apply (pattern_strategies_price_range fallback_page); reflexivity.
Defined.

(** ** Where a growth estimate comes from *)

Lemma descendants_children name attrs cls cs x :
  x ∈ descendants (Tag name attrs cls cs) <->
  exists c, c ∈ cs /\ (x = c \/ x ∈ descendants c).
Proof.
  unfold descendants. cbn [descendants_with_parent].
  generalize (Tag name attrs cls cs). intros self.
  induction cs as [|c cs IH].
  - cbn. split; [by intros ?%elem_of_nil | by intros (c & ?%elem_of_nil & _)].
  - rewrite fmap_cons, fmap_app, elem_of_cons, elem_of_app, IH. cbn [fst]. split.
    + intros [-> | [H | (c' & Hc' & H)]].
      * exists c. split; [apply list_elem_of_here | by left].
      * exists c. split; [apply list_elem_of_here | by right].
      * exists c'. split; [by apply list_elem_of_further | exact H].
    + intros (c' & [-> | Hc']%elem_of_cons & H); [destruct H; auto | eauto].
Qed.

Lemma descendants_trans n x y :
  x ∈ descendants n -> y ∈ descendants x -> y ∈ descendants n.
Proof.
  revert x y. induction n as [s|name attrs cls cs IH] using node_ind'; intros x y.
  - unfold descendants at 1. cbn. by intros ?%elem_of_nil.
  - rewrite !descendants_children. intros (c & Hc & Hx) Hy.
    exists c. split; [exact Hc|]. right. destruct Hx as [-> | Hx]; [exact Hy|].
    rewrite Forall_forall in IH. by apply (IH c Hc x y).
Qed.

Lemma find_all_descendant p n x : x ∈ find_all p n -> x ∈ descendants n /\ p x = true.
Proof.
  unfold find_all. rewrite list_elem_of_In, filter_In, <- list_elem_of_In.
  rewrite andb_true_iff. tauto.
Qed.

Lemma find_all_intro p n x :
  x ∈ descendants n -> is_tag x = true -> p x = true -> x ∈ find_all p n.
Proof.
  intros Hd Ht Hp. unfold find_all. rewrite list_elem_of_In, filter_In, <- list_elem_of_In.
  by rewrite Ht, Hp.
Qed.

Lemma find_all_nested p q n section x :
  section ∈ find_all q n -> x ∈ find_all p section -> x ∈ find_all p n.
Proof.
  unfold find_all. rewrite !list_elem_of_In, !filter_In, <- !list_elem_of_In.
  intros [Hs _] [Hx Hp]. split; [by apply descendants_trans with section | exact Hp].
Qed.

Lemma find_all_with_parent_fst p n x parent :
  (x, parent) ∈ find_all_with_parent p n -> x ∈ find_all p n.
Proof.
  unfold find_all_with_parent, find_all, descendants.
  rewrite !list_elem_of_In, !filter_In, <- !list_elem_of_In. cbn [fst].
  intros [Hin Hp]. split; [|exact Hp].
  apply list_elem_of_fmap. by exists (x, parent).
Qed.

Lemma or_else_Some m1 m2 p :
  or_else m1 m2 = Ok (Some p) -> m1 = Ok (Some p) \/ m2 = Ok (Some p).
Proof.
  unfold or_else. destruct m1 as [[q|]|e]; cbn [mbind outcome_bind]; auto; discriminate.
Qed.

Lemma table_scan_Some soup symbol (test : node * node -> bool) g :
  first_hit (find_all_with_parent (named ["table"]) soup)
    (fun tp => if test tp then _extract_from_growth_table tp.1 symbol else Ok None)
  = Ok (Some g) ->
  exists table,
    table ∈ find_all (named ["table"]) soup
    /\ _extract_from_growth_table table symbol = Ok (Some g).
Proof.
  intros ([table parent] & Hin & H)%first_hit_Some.
  destruct (test _); [|discriminate].
  exists table. split; [by apply find_all_with_parent_fst with parent | exact H].
Qed.

Lemma growth_estimate_table_Some soup symbol g :
  _extract_growth_estimate_table soup symbol = Ok (Some g) ->
  exists table,
    table ∈ find_all (named ["table"]) soup
    /\ _extract_from_growth_table table symbol = Ok (Some g).
Proof.
  unfold _extract_growth_estimate_table, try_except_all.
  match goal with
  | |- match ?body with _ => _ end = _ -> _ => destruct body as [r|e] eqn:Hbody
  end; [|discriminate].
  intros [= ->].
  apply or_else_Some in Hbody as [H1 | [H2 | H3]%or_else_Some].
  - destruct (find _ soup) as [section|] eqn:Hsec; [|discriminate].
    destruct (find (named ["table"]) section) as [table|] eqn:Htab; [|discriminate].
    exists table. split; [|exact H1].
    apply head_elem in Hsec, Htab. by eapply find_all_nested.
  - by apply table_scan_Some in H2.
  - by apply table_scan_Some in H3.
Qed.

(** X14.  [_extract_growth_estimate_table] returns on every page.  A growth
    estimate it returns is the one [_extract_from_growth_table] gives for a
    [table] tag of the page, so a page without tables has no growth
    estimate. *)
Theorem growth_estimate_comes_from_a_table (soup : node) (symbol : string) :
  exists result,
    _extract_growth_estimate_table soup symbol = Ok result
    /\ (forall g,
          result = Some g ->
          exists table,
            table ∈ find_all (named ["table"]) soup
            /\ _extract_from_growth_table table symbol = Ok (Some g))
    /\ (find_all (named ["table"]) soup = [] -> result = None).
Proof.
  destruct (growth_estimate_table_returns soup symbol) as [result Hrun].
  exists result. split; [exact Hrun|].
  assert (Hsome : forall g, result = Some g ->
            exists table,
              table ∈ find_all (named ["table"]) soup
              /\ _extract_from_growth_table table symbol = Ok (Some g)).
  { intros g ->. by apply growth_estimate_table_Some. }
  split; [exact Hsome|].
  intros Hnone. destruct result as [g|]; [|reflexivity].
  destruct (Hsome g eq_refl) as (table & Hin & _).
  rewrite Hnone in Hin. by apply elem_of_nil in Hin.
Qed.
